(** * The Duke Script loader of RigelEngine, embedded in Rocq

    A shallow embedding of [src/loader/duke_script_loader.cpp]: the C++
    input streams the loader reads from, the free functions of its anonymous
    namespace, and [loadScripts].  Every function keeps the name it has in
    the source; a loop of the source becomes a [Fixpoint] over a fuel
    counter whose start value is computed from the unread input. *)

From Stdlib Require Import ZArith Ascii String Lia.
From stdpp Require Import gmap strings list.

Local Open Scope Z_scope.

(** ** Characters and strings *)

Module Chars.

Definition LF : ascii := "010"%char.
Definition CR : ascii := "013"%char.
Definition slash : ascii := "/"%char.

(** [static_cast<uint8_t>(ch)] *)
Definition uint8 (c : ascii) : Z := Z.of_N (N_of_ascii c).

(** [std::isspace] in the "C" locale: space, and the controls
    [\t \n \v \f \r]. *)
Definition isspace (c : ascii) : bool :=
  (uint8 c =? 32) || ((9 <=? uint8 c) && (uint8 c <=? 13)).

Definition isdigit (c : ascii) : bool :=
  (48 <=? uint8 c) && (uint8 c <=? 57).

Definition digit_value (c : ascii) : Z := uint8 c - 48.

End Chars.
Import Chars.

Module Str.

Definition empty (s : string) : bool :=
  match s with EmptyString => true | String _ _ => false end.

(** [boost::trim_left_if] *)
Fixpoint trim_left_if (p : ascii → bool) (s : string) : string :=
  match s with
  | EmptyString => EmptyString
  | String c s' => if p c then trim_left_if p s' else s
  end.

(** [boost::trim_right_if] *)
Fixpoint trim_right_if (p : ascii → bool) (s : string) : string :=
  match s with
  | EmptyString => EmptyString
  | String c s' =>
      let r := trim_right_if p s' in
      if p c && empty r then EmptyString else String c r
  end.

(** [boost::trim_right] and [boost::trim] *)
Definition trim_right (s : string) : string := trim_right_if isspace s.
Definition trim (s : string) : string :=
  trim_left_if isspace (trim_right_if isspace s).

(** [boost::starts_with] *)
Fixpoint starts_with (s prefix : string) : bool :=
  match prefix, s with
  | EmptyString, _ => true
  | String p prefix', String c s' => Ascii.eqb c p && starts_with s' prefix'
  | String _ _, EmptyString => false
  end.

(** [std::find_if(s.cbegin(), s.cend(), p)], as the distance from
    [cbegin()]; [None] stands for [cend()]. *)
Fixpoint find_if (p : ascii → bool) (s : string) : option nat :=
  match s with
  | EmptyString => None
  | String c s' => if p c then Some O else S <$> find_if p s'
  end.

(** the characters from index [n] on *)
Fixpoint drop (n : nat) (s : string) : string :=
  match n, s with
  | O, _ => s
  | S n', String _ s' => drop n' s'
  | S _, EmptyString => EmptyString
  end.

(** every character satisfies [p] *)
Fixpoint all (p : ascii → bool) (s : string) : bool :=
  match s with
  | EmptyString => true
  | String c s' => p c && all p s'
  end.

(** [needle] occurs in [s] *)
Fixpoint contains (s needle : string) : bool :=
  starts_with s needle ||
  match s with
  | EmptyString => false
  | String _ s' => contains s' needle
  end.

End Str.

(** ** [int] *)

Module Int.

Definition INT_MAX : Z := 2147483647.
Definition INT_MIN : Z := -2147483648.

Definition in_range (z : Z) : bool := (INT_MIN <=? z) && (z <=? INT_MAX).

(** Two's complement wrap-around.  Overflow of a signed addition is
    undefined in C++; the model takes what the hardware computes. *)
Definition wrap (z : Z) : Z := (z + 2147483648) mod 4294967296 - 2147483648.

Definition add (a b : Z) : Z := wrap (a + b).

Definition clamp (z : Z) : Z :=
  if z <? INT_MIN then INT_MIN else if INT_MAX <? z then INT_MAX else z.

End Int.

(** ** Outcomes of a call *)

Inductive exception : Type :=
| invalid_argument (what : string)
| out_of_range (what : string).

Definition what (e : exception) : string :=
  match e with invalid_argument w | out_of_range w => w end.

(** A call returns, throws, dies in [assert], leaves defined behaviour
    (an iterator past [cend()]), or -- in the model only -- runs out of the
    fuel given to a loop. *)
Inductive outcome (A : Type) : Type :=
| Returns (a : A)
| Throws (e : exception)
| AssertionFailed
| Undefined
| OutOfFuel.
Arguments Returns {A} a.
Arguments Throws {A} e.
Arguments AssertionFailed {A}.
Arguments Undefined {A}.
Arguments OutOfFuel {A}.

#[global] Instance outcome_ret : MRet outcome := fun A a => Returns a.
#[global] Instance outcome_bind : MBind outcome := fun A B k m =>
  match m with
  | Returns a => k a
  | Throws e => Throws e
  | AssertionFailed => AssertionFailed
  | Undefined => Undefined
  | OutOfFuel => OutOfFuel
  end.

(** ** Input streams

    A [std::istream] over a string buffer: the characters not read yet and
    the two state bits the loader can observe.  A stream position is the
    suffix of the buffer that starts there, so [seekg] to a position
    obtained from [tellg] puts that suffix back. *)

Record istream : Type := mkStream {
  rest : string;
  eofbit : bool;
  failbit : bool
}.

Inductive streampos : Type :=
| pos_at (suffix : string)
| pos_invalid. (* pos_type(-1) *)

Module Stream.

(** [std::istringstream s(text)] *)
Definition istringstream (text : string) : istream := mkStream text false false.

Definition good (s : istream) : bool := negb (eofbit s) && negb (failbit s).
Definition eof (s : istream) : bool := eofbit s.
(** [static_cast<bool>(stream)], i.e. [!fail()] *)
Definition ok (s : istream) : bool := negb (failbit s).

Definition setfail (s : istream) : istream := mkStream (rest s) (eofbit s) true.
Definition seteof (s : istream) : istream := mkStream (rest s) true (failbit s).

(** [peek()]: the next character without extracting it; at the end of
    the buffer it sets [eofbit]. *)
Definition peek (s : istream) : option ascii * istream :=
  if good s then
    match rest s with
    | EmptyString => (None, seteof s)
    | String c _ => (Some c, s)
    end
  else (None, setfail s).

(** [get()] *)
Definition get (s : istream) : option ascii * istream :=
  if good s then
    match rest s with
    | EmptyString => (None, mkStream EmptyString true true)
    | String c r => (Some c, mkStream r false false)
    end
  else (None, setfail s).

(** The characters up to the delimiter, what follows the delimiter, and
    whether the end of the buffer was hit before a delimiter. *)
Fixpoint split_at (delim : ascii) (s : string) : string * string * bool :=
  match s with
  | EmptyString => (EmptyString, EmptyString, true)
  | String c r =>
      if Ascii.eqb c delim then (EmptyString, r, false)
      else let '(l, r', e) := split_at delim r in (String c l, r', e)
  end.

(** [std::getline(s, str, delim)] for a [str] that is empty, or not
    looked at when the call fails, as at every call of the loader: the
    new [str] and the stream.  The delimiter is extracted and dropped;
    [failbit] is set when nothing at all was extracted, and by the sentry
    when the stream was not good. *)
Definition getline (s : istream) (delim : ascii) : string * istream :=
  if good s then
    match rest s with
    | EmptyString => (EmptyString, mkStream EmptyString true true)
    | String _ _ =>
        let '(l, r, e) := split_at delim (rest s) in
        (l, mkStream r e false)
    end
  else (EmptyString, setfail s).

(** The sentry of a formatted extraction: skips white space, and fails
    with [eofbit] and [failbit] when only white space was left. *)
Definition sentry (s : istream) : istream :=
  if good s then
    match Str.trim_left_if isspace (rest s) with
    | EmptyString => mkStream EmptyString true true
    | r => mkStream r false false
    end
  else setfail s.

(** The longest prefix of characters satisfying [p], and the rest. *)
Fixpoint span (p : ascii → bool) (s : string) : string * string :=
  match s with
  | EmptyString => (EmptyString, EmptyString)
  | String c r =>
      if p c then let '(l, r') := span p r in (String c l, r')
      else (EmptyString, s)
  end.

(** [s >> str] for a [std::string str] that is empty before. *)
Definition extract_string (s : istream) : string * istream :=
  let s1 := sentry s in
  if good s1 then
    let '(tok, r) := span (fun c => negb (isspace c)) (rest s1) in
    (tok, mkStream r (Str.empty r) false)
  else (EmptyString, s1).

(** Value of a run of decimal digits, most significant first. *)
Fixpoint digits_value (acc : Z) (s : string) : Z :=
  match s with
  | EmptyString => acc
  | String c r => digits_value (10 * acc + digit_value c) r
  end.

(** An optional sign and a run of digits at the front of [s]:
    the sign, the digits, and what follows them. *)
Definition scan_integer (s : string) : bool * string * string :=
  let '(neg, s1) :=
    match s with
    | String c r =>
        if Ascii.eqb c "-" then (true, r)
        else if Ascii.eqb c "+" then (false, r)
        else (false, s)
    | EmptyString => (false, s)
    end in
  let '(ds, r) := span isdigit s1 in
  (neg, ds, r).

Definition signed_value (neg : bool) (ds : string) : Z :=
  if neg then - digits_value 0 ds else digits_value 0 ds.

(** [s >> v] for an [int v]: given the value [v] has before, the value
    it has after.  A failed sentry leaves [v] alone; a field without
    digits stores 0 and a value out of range stores the nearest
    bound, both with [failbit]. *)
Definition extract_int (s : istream) (v : Z) : Z * istream :=
  let s1 := sentry s in
  if good s1 then
    let '(neg, ds, r) := scan_integer (rest s1) in
    if Str.empty ds then (0, mkStream r (Str.empty r) true)
    else
      let z := signed_value neg ds in
      (Int.clamp z, mkStream r (Str.empty r) (negb (Int.in_range z)))
  else (v, s1).

(** the number of characters not read yet *)
Definition unread (s : istream) : nat := String.length (rest s).

(** [tellg()] *)
Definition tellg (s : istream) : streampos * istream :=
  if good s then (pos_at (rest s), s) else (pos_invalid, setfail s).

(** [seekg(pos)]: clears [eofbit] first. *)
Definition seekg (s : istream) (pos : streampos) : istream :=
  if failbit s then mkStream (rest s) false true
  else
    match pos with
    | pos_at suffix => mkStream suffix false false
    | pos_invalid => mkStream (rest s) false true
    end.

End Stream.
Import Stream.

(** [std::stoi(str)]: [strtol] in base 10, which skips white space, takes
    an optional sign and the digits that follow, and ignores the rest. *)
Definition stoi (str : string) : outcome Z :=
  let '(neg, ds, _) := scan_integer (Str.trim_left_if isspace str) in
  if Str.empty ds then Throws (invalid_argument "stoi")
  else
    let z := signed_value neg ds in
    if Int.in_range z then Returns z else Throws (out_of_range "stoi").

(** ** The script data

    Modelled from the spec: the header [data/script.hpp] with the [Action]
    variant, [Script] and [ScriptBundle] is not among the sources; the
    shapes are those of the data model of the specification, with [int]
    fields as [Z]. *)

Record CheckBoxDefinition : Type := mkCheckBox { yPos : Z; id : Z }.

#[warnings="-register-all"]
Inductive Action : Type :=
| FadeIn
| FadeOut
| WaitForUserInput
| StopNewsReporterAnimation
| DisableMenuFunctionality
| ShowKeyBindings
| EnableTextOffset
| EnableTimeOutToDemo
| ScheduleFadeInBeforeNextWaitState
| Delay (amount : Z)
| AnimateNewsReporter (duration : Z)
| ShowSaveSlots (slot : Z)
| DrawSprite (x y actorId frame : Z)
| ShowFullScreenImage (imageName : string)
| ShowMenuSelectionIndicator (yPos : Z)
| DrawText (x y : Z) (text : string)
| DrawBigText (x y colorIndex : Z) (text : string)
| SetPalette (paletteFile : string)
| SetupCheckBoxes (xPos : Z) (definitions : list CheckBoxDefinition)
| ShowMessageBox (y width height : Z) (messageLines : list string)
| PagesDefinition (pages : list (list Action))
| ConfigurePersistentMenuSelection (slot : Z).

Abbreviation Script := (list Action).

(** Modelled from the spec: [ScriptBundle] is a mapping from unique script
    names to scripts, a [std::unordered_map<std::string, Script>]. *)
Abbreviation ScriptBundle := (gmap string Script).

(** [bundle.emplace(name, script)] of a map with unique keys: nothing
    happens when the key is there already. *)
Definition emplace (name : string) (script : Script) (bundle : ScriptBundle)
  : ScriptBundle :=
  match bundle !! name with
  | Some _ => bundle
  | None => <[name := script]> bundle
  end.

(** ** The loader *)

Module Loader.

(** [while (!s.eof() && std::isspace(s.peek())) s.get();] *)
Fixpoint skipWhiteSpace_loop (fuel : nat) (sourceStream : istream) : istream :=
  match fuel with
  | O => sourceStream
  | S fuel' =>
      if eof sourceStream then sourceStream
      else
        let '(c, s1) := peek sourceStream in
        match c with
        | Some c =>
            if isspace c then skipWhiteSpace_loop fuel' (snd (get s1)) else s1
        | None => s1
        end
  end.

Definition skipWhiteSpace (sourceStream : istream) : istream :=
  skipWhiteSpace_loop (S (String.length (rest sourceStream))) sourceStream.

Definition isCommand (line : string) : bool := Str.starts_with line "//".

Definition stripCommandPrefix (line : string) : string :=
  Str.trim_left_if (fun c => Ascii.eqb c slash) line.

Definition missingEndMarker (endMarker : string) : exception :=
  invalid_argument ("Missing end marker '" +:+ endMarker +:+ "' in Duke Script file").

Section parseScriptLines.

(** The state the callback captures by reference, next to the source
    stream itself. *)
Context {Captured : Type}.
Variable endMarker : string.
(** [consumeLine command lineTextStream], run on the source stream and
    the captured state *)
Variable consumeLine :
  string → istream → istream → Captured → outcome (istream * Captured).

Fixpoint parseScriptLines_loop (fuel : nat)
    (sourceTextStream : istream) (captured : Captured)
  : outcome (istream * Captured) :=
  match fuel with
  | O => OutOfFuel
  | S fuel' =>
      let '(line, s1) := getline sourceTextStream LF in
      if ok s1 then
        let line := Str.trim line in
        if isCommand line then
          let line := stripCommandPrefix line in
          if String.eqb line endMarker then Returns (s1, captured)
          else
            let '(command, lineTextStream) :=
              extract_string (istringstream line) in
            let command := Str.trim command in
            '(s2, captured') ← consumeLine command lineTextStream s1 captured;
            parseScriptLines_loop fuel' s2 captured'
        else parseScriptLines_loop fuel' s1 captured
      else Throws (missingEndMarker endMarker)
  end.

(** What one round of the loop does with a command line that is not the
    end marker: the call of the callback. *)
Definition dispatch (line : string) (s1 : istream) (captured : Captured)
  : outcome (istream * Captured) :=
  let '(command, lineTextStream) := extract_string (istringstream line) in
  consumeLine (Str.trim command) lineTextStream s1 captured.

Definition parseScriptLines (sourceTextStream : istream) (captured : Captured)
  : outcome (istream * Captured) :=
  let s0 := skipWhiteSpace sourceTextStream in
  parseScriptLines_loop (S (String.length (rest s0))) s0 captured.

End parseScriptLines.

Definition corrupt : exception := invalid_argument "Corrupt Duke Script file".

Fixpoint parseMessageBoxTextDefinition_loop (fuel : nat)
    (sourceStream : istream) (startOfLine : streampos)
    (messageLines : list string)
  : outcome (istream * list string) :=
  match fuel with
  | O => OutOfFuel
  | S fuel' =>
      let '(line, s1) := getline sourceStream LF in
      if ok s1 then
        let line := Str.trim line in
        if isCommand line then
          let line := stripCommandPrefix line in
          let '(command, lineTextStream) := extract_string (istringstream line) in
          let command := Str.trim command in
          if String.eqb command "CWTEXT" then
            let '(_, l1) := get lineTextStream in
            let '(messageLine, _) := getline l1 CR in
            if Str.empty messageLine then Throws corrupt
            else
              let '(startOfLine', s2) := tellg s1 in
              parseMessageBoxTextDefinition_loop fuel' s2 startOfLine'
                (messageLines ++ [Str.trim_right messageLine])
          else if String.eqb command "SKLINE" then
            let '(startOfLine', s2) := tellg s1 in
            parseMessageBoxTextDefinition_loop fuel' s2 startOfLine'
              (messageLines ++ [EmptyString])
          else
            Returns (seekg s1 startOfLine, messageLines)
        else parseMessageBoxTextDefinition_loop fuel' s1 startOfLine messageLines
      else Returns (s1, messageLines)
  end.

Definition parseMessageBoxTextDefinition (sourceStream : istream)
  : outcome (istream * list string) :=
  let '(startOfLine, s0) := tellg sourceStream in
  parseMessageBoxTextDefinition_loop (S (String.length (rest s0))) s0 startOfLine [].

(** [std::string(s.cbegin() + first, s.cbegin() + last)]: defined only
    while both iterators stay within [[cbegin(), cend()]]. *)
Definition iterator_range (s : string) (first last : nat) : outcome string :=
  if (last <=? String.length s)%nat
  then Returns (String.substring first (last - first) s)
  else Undefined.

(** [parameters[0]]; of an empty [std::string] it is the terminating
    null character. *)
Definition front (s : string) : ascii :=
  match s with String c _ => c | EmptyString => Ascii.zero end.

Definition invalidCommand (name : string) : exception :=
  invalid_argument ("Invalid " +:+ name +:+ " command in Duke Script file").

Definition notAllowedHere : list string :=
  ["APAGE"; "CENTERWINDOW"; "CWTEXT"; "MENU"; "PAGESEND"; "PAGESSTART"; "SKLINE"].

Definition notAllowedHere_count (command : string) : nat :=
  if existsb (String.eqb command) notAllowedHere then 1%nat else 0%nat.

Definition notAllowed (command : string) : exception :=
  invalid_argument ("The command " +:+ command +:+ " is not allowed in this context").

(** The loop of [TOGGS]: [count] rounds, each extracting a [yPos] and an
    [id] into a definition that starts as [{0, 0}]. *)
Fixpoint readCheckBoxes (count : nat) (lineTextStream : istream)
    (definitions : list CheckBoxDefinition) : list CheckBoxDefinition :=
  match count with
  | O => definitions
  | S count' =>
      let '(y, l1) := extract_int lineTextStream 0 in
      let '(i, l2) := extract_int l1 0 in
      readCheckBoxes count' l2 (definitions ++ [mkCheckBox y i])
  end.

(** The branch of [XYTEXT] from [if (parameters.empty())] on: the three
    variants, told apart on the text that follows the two coordinates. *)
Definition parseXYText (x y : Z) (parameters : string) : outcome (option Action) :=
  if Str.empty parameters then Throws corrupt
  else
    match Str.find_if (fun ch => 240 <=? uint8 ch) parameters with
    | Some numPrecedingCharacters =>
        let colorIndex :=
          uint8 (front (Str.drop numPrecedingCharacters parameters)) - 240 in
        let parameters' := Str.drop (S numPrecedingCharacters) parameters in
        Returns (Some (DrawBigText
          (Int.add x (Int.wrap (Z.of_nat numPrecedingCharacters)))
          y colorIndex parameters'))
    | None =>
        if uint8 (front parameters) =? 239 then
          if (String.length parameters <? 5)%nat then Throws corrupt
          else
            actorNumberString ← iterator_range parameters 1 4;
            frameNumberString ← iterator_range parameters 4 6;
            actorId ← stoi actorNumberString;
            frame ← stoi frameNumberString;
            Returns (Some (DrawSprite (Int.add x 2) (Int.add y 1) actorId frame))
        else Returns (Some (DrawText x y parameters))
    end.

Section Build.

(** Whether the translation unit is compiled with [NDEBUG], which turns
    [assert] into nothing. *)
Variable NDEBUG : bool.

Definition parseOneLineAction (command : string) (lineTextStream : istream)
  : outcome (option Action) :=
  if String.eqb command "FADEIN" then Returns (Some FadeIn)
  else if String.eqb command "FADEOUT" then Returns (Some FadeOut)
  else if String.eqb command "DELAY" then
    let '(amount, _) := extract_int lineTextStream 0 in
    if amount <=? 0 then Throws (invalidCommand "DELAY")
    else Returns (Some (Delay amount))
  else if String.eqb command "BABBLEON" then
    let '(duration, _) := extract_int lineTextStream 0 in
    if duration <=? 0 then Throws (invalidCommand "BABBLEON")
    else Returns (Some (AnimateNewsReporter duration))
  else if String.eqb command "BABBLEOFF" then Returns (Some StopNewsReporterAnimation)
  else if String.eqb command "NOSOUNDS" then Returns (Some DisableMenuFunctionality)
  else if String.eqb command "KEYS" then Returns (Some ShowKeyBindings)
  else if String.eqb command "GETNAMES" then
    let '(slot, _) := extract_int lineTextStream 0 in
    if (slot <? 0) || (8 <=? slot) then Throws (invalidCommand "GETNAMES")
    else Returns (Some (ShowSaveSlots slot))
  else if String.eqb command "PAK" then Returns (Some (DrawSprite 0 0 146 0))
  else if String.eqb command "LOADRAW" then
    let '(imageName, _) := extract_string lineTextStream in
    let imageName := Str.trim imageName in
    if Str.empty imageName then Throws (invalidCommand "LOADRAW")
    else Returns (Some (ShowFullScreenImage imageName))
  else if String.eqb command "Z" then
    let '(yPos, _) := extract_int lineTextStream 0 in
    Returns (Some (ShowMenuSelectionIndicator yPos))
  else if String.eqb command "XYTEXT" then
    let '(x, l1) := extract_int lineTextStream 0 in
    let '(y, l2) := extract_int l1 0 in
    let '(_, l3) := get l2 in
    let '(parameters, _) := getline l3 CR in
    parseXYText x y parameters
  else if String.eqb command "GETPAL" then
    let '(paletteFile, _) := extract_string lineTextStream in
    let paletteFile := Str.trim paletteFile in
    if Str.empty paletteFile then Throws (invalidCommand "LOADRAW")
    else Returns (Some (SetPalette paletteFile))
  else if String.eqb command "WAIT" then Returns (Some WaitForUserInput)
  else if String.eqb command "SHIFTWIN" then Returns (Some EnableTextOffset)
  else if String.eqb command "EXITTODEMO" then Returns (Some EnableTimeOutToDemo)
  else if String.eqb command "TOGGS" then
    let '(xPos, l1) := extract_int lineTextStream 0 in
    let '(count, l2) := extract_int l1 0 in
    Returns (Some (SetupCheckBoxes xPos (readCheckBoxes (Z.to_nat count) l2 [])))
  else
    if negb NDEBUG && String.eqb command "END" then AssertionFailed
    else if (notAllowedHere_count command =? 1)%nat then Throws (notAllowed command)
    else Returns None.

(** [pages.back().emplace_back(action)] *)
Fixpoint emplace_back_on_back (pages : list Script) (action : Action)
  : outcome (list Script) :=
  match pages with
  | [] => Undefined
  | [currentPage] => Returns [currentPage ++ [action]]
  | page :: pages' =>
      pages'' ← emplace_back_on_back pages' action; Returns (page :: pages'')
  end.

(** The callback of [parsePagesDefinition]; it captures [pages]. *)
Definition parsePagesDefinition_consumeLine
    (command : string) (lineTextStream sourceTextStream : istream)
    (pages : list Script) : outcome (istream * list Script) :=
  if String.eqb command "APAGE" then Returns (sourceTextStream, pages ++ [[]])
  else
    maybeAction ← parseOneLineAction command lineTextStream;
    match maybeAction with
    | Some action =>
        pages' ← emplace_back_on_back pages action;
        Returns (sourceTextStream, pages')
    | None => Returns (sourceTextStream, pages)
    end.

Definition parsePagesDefinition (sourceTextStream : istream)
  : outcome (istream * Action) :=
  '(s, pages) ← parseScriptLines "PAGESEND" parsePagesDefinition_consumeLine
                  sourceTextStream [[]];
  Returns (s, PagesDefinition pages).

Definition parseAction (command : string)
    (sourceTextStream currentLineStream : istream)
  : outcome (istream * option Action) :=
  if String.eqb command "CENTERWINDOW" then
    let '(y, l1) := extract_int currentLineStream 0 in
    let '(height, l2) := extract_int l1 0 in
    let '(width, _) := extract_int l2 0 in
    '(s, messageLines) ←
      parseMessageBoxTextDefinition (skipWhiteSpace sourceTextStream);
    Returns (s, Some (ShowMessageBox y width height messageLines))
  else
    maybeAction ← parseOneLineAction command currentLineStream;
    Returns (sourceTextStream, maybeAction).

(** The callback of [parseScript]; it captures [script] and the source
    stream. *)
Definition parseScript_consumeLine
    (command : string) (lineTextStream sourceTextStream : istream)
    (script : Script) : outcome (istream * Script) :=
  if String.eqb command "PAGESSTART" then
    '(s, pagesDefinition) ← parsePagesDefinition (skipWhiteSpace sourceTextStream);
    Returns (s, script ++ [pagesDefinition])
  else if String.eqb command "MENU" then
    let '(slot, _) := extract_int lineTextStream 0 in
    Returns (sourceTextStream,
             script ++ [ConfigurePersistentMenuSelection slot;
                        ScheduleFadeInBeforeNextWaitState])
  else
    '(s, maybeAction) ← parseAction command sourceTextStream lineTextStream;
    match maybeAction with
    | Some action => Returns (s, script ++ [action])
    | None => Returns (s, script)
    end.

Definition parseScript (sourceTextStream : istream) : outcome (istream * Script) :=
  parseScriptLines "END" parseScript_consumeLine sourceTextStream [].

Fixpoint loadScripts_loop (fuel : nat) (sourceStream : istream)
    (bundle : ScriptBundle) : outcome ScriptBundle :=
  match fuel with
  | O => OutOfFuel
  | S fuel' =>
      if eof sourceStream then Returns bundle
      else
        let s1 := skipWhiteSpace sourceStream in
        let '(scriptName, s2) := extract_string s1 in
        let scriptName := Str.trim scriptName in
        if Str.empty scriptName then loadScripts_loop fuel' s2 bundle
        else
          '(s3, script) ← parseScript s2;
          loadScripts_loop fuel' s3 (emplace scriptName script bundle)
  end.

Definition loadScripts (scriptSource : string) : outcome ScriptBundle :=
  loadScripts_loop (String.length scriptSource + 2) (istringstream scriptSource) ∅.

End Build.

End Loader.

Import Loader.

(** * Vocabulary of the statements *)

(** The keyword of a command line whose prefix is stripped. *)
Definition keyword (line : string) : string :=
  Str.trim (extract_string (istringstream line)).1.

(** What a [CWTEXT] line contributes: the text after the keyword and one
    more character, up to a carriage return. *)
Definition cwtext (line : string) : string :=
  (getline (get (extract_string (istringstream line)).2).2 CR).1.

(** [Skips s s']: reading lines from [s] gets to [s'] over lines that are
    not command lines only, the lines every parser of the loader ignores. *)
Inductive Skips : istream → istream → Prop :=
| skips_here s : Skips s s
| skips_line s line s1 s' :
    getline s LF = (line, s1) → ok s1 = true →
    isCommand (Str.trim line) = false →
    Skips s1 s' → Skips s s'.

(** What the loop of [parseMessageBoxTextDefinition] keeps of the saved
    position: only ignored lines lie between it and the stream; when
    [tellg] had failed, the stream is failed too. *)
Definition rewindable (startOfLine : streampos) (s : istream) : Prop :=
  match startOfLine with
  | pos_at suffix => Skips (mkStream suffix false false) s
  | pos_invalid => failbit s = true
  end.

Definition pos_within (startOfLine : streampos) (n : nat) : Prop :=
  match startOfLine with
  | pos_at suffix => (String.length suffix ≤ n)%nat
  | pos_invalid => True
  end.

(** The scripts a source defines, in the order of their definitions: what
    the loop of [loadScripts] passes to [emplace], call by call. *)
Fixpoint definedScripts_loop (NDEBUG : bool) (fuel : nat) (sourceStream : istream)
  : outcome (list (string * Script)) :=
  match fuel with
  | O => OutOfFuel
  | S fuel' =>
      if eof sourceStream then Returns []
      else
        let s1 := skipWhiteSpace sourceStream in
        let '(scriptName, s2) := extract_string s1 in
        let scriptName := Str.trim scriptName in
        if Str.empty scriptName then definedScripts_loop NDEBUG fuel' s2
        else
          '(s3, script) ← parseScript NDEBUG s2;
          later ← definedScripts_loop NDEBUG fuel' s3;
          Returns ((scriptName, script) :: later)
  end.

Definition definedScripts (NDEBUG : bool) (scriptSource : string)
  : outcome (list (string * Script)) :=
  definedScripts_loop NDEBUG (String.length scriptSource + 2)
    (istringstream scriptSource).

(** The calls of [emplace], one after the other. *)
Definition emplace_all (definitions : list (string * Script))
    (bundle : ScriptBundle) : ScriptBundle :=
  foldl (fun b d => emplace d.1 d.2 b) bundle definitions.

(** The state of the stream at the head of the loop of [loadScripts],
    and fuel that is enough from there. *)
Definition at_loop_head (fuel : nat) (s : istream) : Prop :=
  if eofbit s then (1 ≤ fuel)%nat
  else failbit s = false ∧ (unread s + 2 ≤ fuel)%nat.

(** [Reaches endMarker consumeLine s c s' c']: the line loop of
    [parseScriptLines] gets from the stream [s] and captured state [c] to
    [s'] and [c'], over ignored lines and over command lines that are not
    the end marker and that the callback returns from. *)
Inductive Reaches {Captured : Type} (endMarker : string)
    (consumeLine : string → istream → istream → Captured → outcome (istream * Captured))
  : istream → Captured → istream → Captured → Prop :=
| reaches_here s c : Reaches endMarker consumeLine s c s c
| reaches_ignored s c line s1 s' c' :
    getline s LF = (line, s1) → ok s1 = true →
    isCommand (Str.trim line) = false →
    Reaches endMarker consumeLine s1 c s' c' →
    Reaches endMarker consumeLine s c s' c'
| reaches_command s c line s1 s2 c2 s' c' :
    getline s LF = (line, s1) → ok s1 = true →
    isCommand (Str.trim line) = true →
    stripCommandPrefix (Str.trim line) ≠ endMarker →
    dispatch consumeLine (stripCommandPrefix (Str.trim line)) s1 c = Returns (s2, c2) →
    Reaches endMarker consumeLine s2 c2 s' c' →
    Reaches endMarker consumeLine s c s' c'.

(** The line source is exhausted: the next [getline] fails. *)
Definition exhausted (s : istream) : Prop := ok (getline s LF).2 = false.

(** [Completed NDEBUG s s']: the loop of [loadScripts] gets from the stream
    [s] at its head to [s'] at its head, every script in between parsed
    to its end. *)
Inductive Completed (NDEBUG : bool) : istream → istream → Prop :=
| completed_none s : Completed NDEBUG s s
| completed_script s s3 script s' :
    eof s = false →
    Str.empty (Str.trim (extract_string (skipWhiteSpace s)).1) = false →
    parseScript NDEBUG (extract_string (skipWhiteSpace s)).2 = Returns (s3, script) →
    Completed NDEBUG s3 s' →
    Completed NDEBUG s s'.

(** A script body, read from [s], runs out of input before its ["END"],
    or before the ["PAGESEND"] of a block it opens. *)
Inductive MissesEndMarker (NDEBUG : bool) (s : istream) : string → Prop :=
| misses_END s' script :
    Reaches "END" (parseScript_consumeLine NDEBUG) (skipWhiteSpace s) [] s' script →
    exhausted s' →
    MissesEndMarker NDEBUG s "END"
| misses_PAGESEND s' script line s1 sp pages :
    Reaches "END" (parseScript_consumeLine NDEBUG) (skipWhiteSpace s) [] s' script →
    getline s' LF = (line, s1) → ok s1 = true →
    isCommand (Str.trim line) = true →
    stripCommandPrefix (Str.trim line) ≠ "END" →
    keyword (stripCommandPrefix (Str.trim line)) = "PAGESSTART" →
    Reaches "PAGESEND" (parsePagesDefinition_consumeLine NDEBUG)
      (skipWhiteSpace (skipWhiteSpace s1)) [[]] sp pages →
    exhausted sp →
    MissesEndMarker NDEBUG s "PAGESEND".

(** A source text from its lines, each ended by a line feed. *)
Definition text (lines : list string) : string :=
  foldr (fun l r => l +:+ String LF r) EmptyString lines.

(** A callback for [parseScriptLines] that only writes down the keywords
    it is called with: the command lines of a block, as the line loop
    itself finds them. *)
Definition logCommands (command : string) (lineTextStream s : istream)
    (log : list string) : outcome (istream * list string) :=
  Returns (s, log ++ [command]).

Definition count_APAGE (commands : list string) : nat :=
  length (filter (fun c => c = "APAGE") commands).

(** No integer can be extracted from the stream: the sentry fails, or
    the field in front has no digit. *)
Definition no_integer (s : istream) : Prop :=
  good (sentry s) = false ∨
  Str.empty (scan_integer (rest (sentry s))).1.2 = true.

(** The keywords [parseOneLineAction] compiles. *)
Definition dispatchTable : list string :=
  ["FADEIN"; "FADEOUT"; "DELAY"; "BABBLEON"; "BABBLEOFF"; "NOSOUNDS"; "KEYS";
   "GETNAMES"; "PAK"; "LOADRAW"; "Z"; "XYTEXT"; "GETPAL"; "WAIT"; "SHIFTWIN";
   "EXITTODEMO"; "TOGGS"].

(** ** Vocabulary of the further properties *)

(** [c] is a character of [s] *)
Fixpoint occurs (c : ascii) (s : string) : bool :=
  match s with
  | EmptyString => false
  | String a s' => Ascii.eqb a c || occurs c s'
  end.

(** A token as [operator>>] extracts it: not empty, without white space. *)
Definition is_token (s : string) : Prop :=
  s ≠ EmptyString ∧ Str.all (fun c => negb (isspace c)) s = true.

(** A line of a message box as the loader leaves it: nothing to trim at
    its end, and neither a carriage return nor a line feed in it. *)
Definition message_line_ok (line : string) : Prop :=
  Str.trim_right line = line ∧ occurs CR line = false ∧ occurs LF line = false.

(** What holds of an action [parseOneLineAction] returns; it returns none
    of the actions of the blocks and of [MENU]. *)
Definition one_line_valid (a : Action) : Prop :=
  match a with
  | Delay amount => 0 < amount
  | AnimateNewsReporter duration => 0 < duration
  | ShowSaveSlots slot => 0 ≤ slot < 8
  | DrawSprite _ _ actorId frame => -100 < actorId < 1000 ∧ -10 < frame < 100
  | ShowFullScreenImage imageName => is_token imageName
  | SetPalette paletteFile => is_token paletteFile
  | DrawText _ _ text =>
      text ≠ EmptyString ∧ uint8 (front text) ≠ 239 ∧
      Str.find_if (fun ch => 240 <=? uint8 ch) text = None
  | DrawBigText _ _ colorIndex _ => 0 ≤ colorIndex ≤ 15
  | PagesDefinition _ | ShowMessageBox _ _ _ _
  | ConfigurePersistentMenuSelection _ | ScheduleFadeInBeforeNextWaitState => False
  | _ => True
  end.

(** What [parsePagesDefinition] keeps of its pages. *)
Definition pages_ok (pages : list Script) : Prop :=
  pages ≠ [] ∧ Forall (Forall one_line_valid) pages.

(** What holds of an action of a loaded script. *)
Definition valid (a : Action) : Prop :=
  match a with
  | PagesDefinition pages => pages ≠ [] ∧ Forall (Forall one_line_valid) pages
  | ShowMessageBox _ _ _ messageLines => Forall message_line_ok messageLines
  | ConfigurePersistentMenuSelection _ | ScheduleFadeInBeforeNextWaitState => True
  | _ => one_line_valid a
  end.




(** The payload of an [XYTEXT] command, from the line stream behind the
    keyword. *)
Definition payload (lineTextStream : istream) : string :=
  (getline (get (extract_int (extract_int lineTextStream 0).2 0).2).2 CR).1.

(** A sprite payload of exactly 5 bytes: it passes the length check, and
    the range of its frame number ends one past its end. *)
Definition overruns (parameters : string) : Prop :=
  String.length parameters = 5%nat ∧ uint8 (front parameters) = 239 ∧
  Str.find_if (fun ch => 240 <=? uint8 ch) parameters = None.

(** The numbers of an [XYTEXT] command, from the line stream behind the
    keyword. *)
Definition xytext_x (lineTextStream : istream) : Z :=
  (extract_int lineTextStream 0).1.
Definition xytext_y (lineTextStream : istream) : Z :=
  (extract_int (extract_int lineTextStream 0).2 0).1.

(** The [int] additions of the [XYTEXT] branch stay within [int]:
    [x + numPrecedingCharacters] of a big text, [x + 2] and [y + 1] of a
    sprite.  Where one of them does not, the source overflows a signed
    [int], which is undefined in C++, and [Int.add] wraps around. *)
Definition sums_fit (x y : Z) (parameters : string) : Prop :=
  match Str.find_if (fun ch => 240 <=? uint8 ch) parameters with
  | Some numPrecedingCharacters =>
      Int.in_range (x + Int.wrap (Z.of_nat numPrecedingCharacters)) = true
  | None =>
      uint8 (front parameters) = 239 → (5 ≤ String.length parameters)%nat →
      Int.in_range (x + 2) = true ∧ Int.in_range (y + 1) = true
  end.

(** The position of an action of [XYTEXT] is the sum the source writes,
    taken in the integers. *)
Definition exact_position (x y : Z) (parameters : string) (a : Action) : Prop :=
  match a with
  | DrawBigText x' y' _ _ =>
      ∃ numPrecedingCharacters,
        Str.find_if (fun ch => 240 <=? uint8 ch) parameters
        = Some numPrecedingCharacters ∧
        x' = x + Int.wrap (Z.of_nat numPrecedingCharacters) ∧ y' = y
  | DrawSprite x' y' _ _ => x' = x + 2 ∧ y' = y + 1
  | DrawText x' y' _ => x' = x ∧ y' = y
  | _ => False
  end.

(** A decimal numeral as a script has it: a run of digits, with a minus
    sign or without; and what may follow it, the end of the line or a
    character that is no digit. *)
Definition is_digits (ds : string) : Prop :=
  ds ≠ EmptyString ∧ Str.all isdigit ds = true.

Definition numeral (neg : bool) (ds : string) : string :=
  if neg then String "-" ds else ds.

Definition ends_numeral (r : string) : Prop := isdigit (front r) = false.

(** The rest of a [TOGGS] line: pairs of numerals, a blank before each. *)
Definition pairs_line (pairs : list (string * string)) : string :=
  foldr (fun p r => String " " (p.1 +:+ String " " (p.2 +:+ r))) EmptyString pairs.

Definition checkBox_of (p : string * string) : CheckBoxDefinition :=
  mkCheckBox (digits_value 0 p.1) (digits_value 0 p.2).

(** A numeral without sign whose value is an [int]. *)
Definition is_int_numeral (ds : string) : Prop :=
  is_digits ds ∧ Int.in_range (digits_value 0 ds) = true.

(** The line loop with the fuel [parseScriptLines] gives it. *)
(** What may follow a word on a line: nothing, or white space first. *)
Definition ends_token (r : string) : Prop :=
  match r with EmptyString => True | String a _ => isspace a = true end.

Definition run {Captured : Type} (endMarker : string)
    (consumeLine : string → istream → istream → Captured → outcome (istream * Captured))
    (s : istream) (c : Captured) : outcome (istream * Captured) :=
  parseScriptLines_loop endMarker consumeLine (S (unread s)) s c.

(** * Properties *)

(** ** How much of the buffer a stream operation leaves *)

Module StreamFacts.

Lemma split_at_length delim s l r e :
  split_at delim s = (l, r, e) →
  (String.length r ≤ String.length s)%nat ∧
  (s ≠ EmptyString → String.length r < String.length s)%nat.
Proof.
  revert l r e. induction s as [|c s IH]; intros l r e; simpl.
  - intros [= <- <- <-]. simpl. split; [lia | congruence].
  - destruct (Ascii.eqb c delim).
    + intros [= <- <- <-]. split; intros; lia.
    + destruct (split_at delim s) as [[l' r'] e'] eqn:E.
      intros [= <- <- <-]. destruct (IH _ _ _ eq_refl) as [H _].
      split; intros; lia.
Qed.

(** A [getline] that succeeds was run on a good stream and has taken at
    least one character out of it. *)
Lemma getline_ok s delim line s1 :
  getline s delim = (line, s1) → ok s1 = true →
  good s = true ∧ failbit s1 = false ∧ (unread s1 < unread s)%nat.
Proof.
  unfold getline, ok, unread. destruct (good s) eqn:G.
  - destruct (rest s) as [|c r] eqn:R.
    + intros [= <- <-]. discriminate.
    + destruct (split_at delim (String c r)) as [[l r'] e] eqn:E.
      intros [= <- <-] _. simpl.
      destruct (split_at_length _ _ _ _ _ E) as [_ H].
      split; [done|]. split; [done|]. apply H. congruence.
  - intros [= <- <-]. discriminate.
Qed.

Lemma getline_not_ok s delim :
  good s = false ∨ rest s = EmptyString → ok (getline s delim).2 = false.
Proof.
  unfold getline, ok. intros [G|R].
  - rewrite G. reflexivity.
  - destruct (good s); [|reflexivity]. rewrite R. reflexivity.
Qed.

Lemma trim_left_if_length p s :
  (String.length (Str.trim_left_if p s) ≤ String.length s)%nat.
Proof.
  induction s as [|c s IH]; simpl; [lia|].
  destruct (p c); simpl; lia.
Qed.

Lemma get_unread s : (unread (get s).2 ≤ unread s)%nat.
Proof.
  unfold get, unread. destruct (good s); [|simpl; lia].
  destruct (rest s); simpl; lia.
Qed.

Lemma peek_rest s : rest (peek s).2 = rest s.
Proof.
  unfold peek. destruct (good s); [|reflexivity].
  destruct (rest s) eqn:R; simpl; congruence.
Qed.

Lemma skipWhiteSpace_loop_unread fuel s :
  (unread (skipWhiteSpace_loop fuel s) ≤ unread s)%nat.
Proof.
  revert s. induction fuel as [|fuel IH]; intros s; simpl; [lia|].
  destruct (eof s); [lia|].
  destruct (peek s) as [c s1] eqn:P.
  assert (R : rest s1 = rest s) by (rewrite <- (peek_rest s), P; reflexivity).
  assert (U : unread s1 = unread s) by (unfold unread; congruence).
  destruct c as [c|]; [|lia].
  destruct (isspace c); [|lia].
  etrans; [apply IH|]. etrans; [apply get_unread|]. lia.
Qed.

Lemma skipWhiteSpace_unread s : (unread (skipWhiteSpace s) ≤ unread s)%nat.
Proof. apply skipWhiteSpace_loop_unread. Qed.

Lemma tellg_rest s : rest (tellg s).2 = rest s.
Proof. unfold tellg. destruct (good s); reflexivity. Qed.

(** The position [tellg] hands out is where the stream stands. *)
Lemma tellg_pos s :
  (tellg s).1 = pos_invalid ∨ (tellg s).1 = pos_at (rest s).
Proof. unfold tellg. destruct (good s); auto. Qed.

Lemma span_length p s tok r :
  span p s = (tok, r) →
  (String.length r ≤ String.length s)%nat ∧
  (tok ≠ EmptyString → String.length r < String.length s)%nat.
Proof.
  revert tok r. induction s as [|c s IH]; intros tok r; simpl.
  - intros [= <- <-]. simpl. split; [lia|congruence].
  - destruct (p c).
    + destruct (span p s) as [l r'] eqn:E. intros [= <- <-].
      destruct (IH _ _ eq_refl) as [H _]. split; intros; lia.
    + intros [= <- <-]. split; [simpl; lia|congruence].
Qed.

End StreamFacts.

(** ** The line loop of [parseScriptLines], for any callback *)

Section ParseScriptLinesFacts.

Import StreamFacts.

Context {Captured : Type}.
Variable endMarker : string.
Variable consumeLine :
  string → istream → istream → Captured → outcome (istream * Captured).

Abbreviation loop := (parseScriptLines_loop endMarker consumeLine).

Lemma loop_unfold fuel s captured :
  loop (S fuel) s captured =
  let '(line, s1) := getline s LF in
  if ok s1 then
    if isCommand (Str.trim line) then
      if String.eqb (stripCommandPrefix (Str.trim line)) endMarker
      then Returns (s1, captured)
      else
        '(s2, captured') ← dispatch consumeLine (stripCommandPrefix (Str.trim line)) s1 captured;
        loop fuel s2 captured'
    else loop fuel s1 captured
  else Throws (missingEndMarker endMarker).
Proof.
  simpl. unfold dispatch. destruct (getline s LF) as [line s1].
  destruct (ok s1); [|reflexivity].
  destruct (isCommand _); [|reflexivity].
  destruct (String.eqb _ _); [reflexivity|].
  destruct (extract_string _). reflexivity.
Qed.

(** With the input used up, the loop throws. *)
Lemma loop_exhausted fuel s captured :
  ok (getline s LF).2 = false →
  loop (S fuel) s captured = Throws (missingEndMarker endMarker).
Proof.
  intros H. rewrite loop_unfold. destruct (getline s LF) as [line s1].
  simpl in H. rewrite H. reflexivity.
Qed.

(** More fuel does not change an outcome that did not need it. *)
Lemma loop_fuel_mono fuel fuel' s captured :
  (fuel ≤ fuel')%nat → loop fuel s captured ≠ OutOfFuel →
  loop fuel' s captured = loop fuel s captured.
Proof.
  revert fuel' s captured.
  induction fuel as [|fuel IH]; intros fuel' s captured Hle Hne.
  - simpl in Hne. congruence.
  - destruct fuel' as [|fuel']; [lia|].
    rewrite !loop_unfold in *. destruct (getline s LF) as [line s1].
    destruct (ok s1); [|reflexivity].
    destruct (isCommand _).
    + destruct (String.eqb _ _); [reflexivity|].
      destruct (dispatch consumeLine _ s1 captured) as [[s2 c2]| | | |]; simpl in *;
        try reflexivity.
      apply IH; [lia|done].
    + apply IH; [lia|done].
Qed.

(** The loop returns only from a stream whose last [getline] succeeded. *)
Lemma loop_returns_ok fuel s captured s' captured' :
  loop fuel s captured = Returns (s', captured') → failbit s' = false.
Proof.
  revert s captured. induction fuel as [|fuel IH]; intros s captured.
  - discriminate.
  - rewrite loop_unfold. destruct (getline s LF) as [line s1].
    destruct (ok s1) eqn:O; [|discriminate].
    destruct (isCommand _); [|apply IH].
    destruct (String.eqb _ _).
    + intros [= <- <-]. unfold ok in O. by destruct (failbit s1).
    + destruct (dispatch consumeLine _ s1 captured) as [[s2 c2]| | | |]; simpl;
        try discriminate.
      apply IH.
Qed.

(** An invariant of the captured state that every call of the callback
    keeps holds of what the loop returns. *)
Lemma loop_invariant (P : Captured → Prop) :
  (∀ command l s c s' c',
     consumeLine command l s c = Returns (s', c') → P c → P c') →
  ∀ fuel s captured s' captured',
    loop fuel s captured = Returns (s', captured') → P captured → P captured'.
Proof.
  intros Hstep. induction fuel as [|fuel IH]; intros s captured s' captured'.
  - discriminate.
  - rewrite loop_unfold. destruct (getline s LF) as [line s1].
    destruct (ok s1); [|discriminate].
    destruct (isCommand _); [|apply IH].
    destruct (String.eqb _ _).
    + by intros [= <- <-].
    + unfold dispatch. destruct (extract_string _) as [command l].
      destruct (consumeLine _ l s1 captured) as [[s2 c2]| | | |] eqn:E;
        simpl; try discriminate.
      intros Hloop HP. eapply IH; [exact Hloop|]. eapply Hstep; eauto.
Qed.

Section Monotone.

(** The callback does not move the source stream backwards, and does not
    run out of fuel itself. *)
Hypothesis consumeLine_unread : ∀ command l s c s' c',
  consumeLine command l s c = Returns (s', c') → (unread s' ≤ unread s)%nat.
Hypothesis consumeLine_fuel : ∀ command l s c,
  consumeLine command l s c ≠ OutOfFuel.

Lemma loop_terminates fuel s captured :
  (unread s < fuel)%nat → loop fuel s captured ≠ OutOfFuel.
Proof.
  revert s captured. induction fuel as [|fuel IH]; intros s captured Hlt; [lia|].
  rewrite loop_unfold. destruct (getline s LF) as [line s1] eqn:G.
  destruct (ok s1) eqn:O; [|discriminate].
  destruct (getline_ok _ _ _ _ G O) as (_ & _ & Hs1).
  destruct (isCommand _); [|apply IH; lia].
  destruct (String.eqb _ _); [discriminate|].
  unfold dispatch. destruct (extract_string _) as [command l].
  destruct (consumeLine _ l s1 captured) as [[s2 c2]| | | |] eqn:E;
    simpl; try discriminate.
  - apply IH. apply consumeLine_unread in E. lia.
  - by apply consumeLine_fuel in E.
Qed.

Lemma loop_unread fuel s captured s' captured' :
  loop fuel s captured = Returns (s', captured') → (unread s' < unread s)%nat.
Proof.
  revert s captured. induction fuel as [|fuel IH]; intros s captured.
  - discriminate.
  - rewrite loop_unfold. destruct (getline s LF) as [line s1] eqn:G.
    destruct (ok s1) eqn:O; [|discriminate].
    destruct (getline_ok _ _ _ _ G O) as (_ & _ & Hs1).
    destruct (isCommand _); [|intros H%IH; lia].
    destruct (String.eqb _ _); [intros [= <- <-]; lia|].
    unfold dispatch. destruct (extract_string _) as [command l].
    destruct (consumeLine _ l s1 captured) as [[s2 c2]| | | |] eqn:E;
      simpl; try discriminate.
    intros H%IH. apply consumeLine_unread in E. lia.
Qed.

Lemma parseScriptLines_terminates s captured :
  parseScriptLines endMarker consumeLine s captured ≠ OutOfFuel.
Proof. unfold parseScriptLines. apply loop_terminates. unfold unread. lia. Qed.

Lemma parseScriptLines_unread s captured s' captured' :
  parseScriptLines endMarker consumeLine s captured = Returns (s', captured') →
  (unread s' < unread s)%nat ∧ failbit s' = false.
Proof.
  unfold parseScriptLines. intros H. split.
  - apply loop_unread in H. pose proof (skipWhiteSpace_unread s). lia.
  - eapply loop_returns_ok, H.
Qed.

(** Whatever fuel is enough gives the outcome of [parseScriptLines]. *)
Lemma parseScriptLines_fuel fuel s captured :
  loop fuel (skipWhiteSpace s) captured ≠ OutOfFuel →
  parseScriptLines endMarker consumeLine s captured
  = loop fuel (skipWhiteSpace s) captured.
Proof.
  intros Hne. unfold parseScriptLines.
  set (s0 := skipWhiteSpace s) in *. set (n := S (String.length (rest s0))).
  assert (Hn : loop n s0 captured ≠ OutOfFuel)
    by (apply loop_terminates; unfold unread, n; lia).
  destruct (Nat.le_ge_cases fuel n).
  - by apply loop_fuel_mono.
  - symmetry. by apply loop_fuel_mono.
Qed.

End Monotone.

End ParseScriptLinesFacts.

(** ** The loop of [parseMessageBoxTextDefinition] *)

Section MessageBoxFacts.

Import StreamFacts.

Abbreviation mbloop := parseMessageBoxTextDefinition_loop.

Lemma mbloop_unfold fuel s startOfLine messageLines :
  mbloop (S fuel) s startOfLine messageLines =
  let '(line, s1) := getline s LF in
  if ok s1 then
    if isCommand (Str.trim line) then
      let line' := stripCommandPrefix (Str.trim line) in
      if String.eqb (keyword line') "CWTEXT" then
        if Str.empty (cwtext line') then Throws corrupt
        else mbloop fuel (tellg s1).2 (tellg s1).1
               (messageLines ++ [Str.trim_right (cwtext line')])
      else if String.eqb (keyword line') "SKLINE" then
        mbloop fuel (tellg s1).2 (tellg s1).1 (messageLines ++ [EmptyString])
      else Returns (seekg s1 startOfLine, messageLines)
    else mbloop fuel s1 startOfLine messageLines
  else Returns (s1, messageLines).
Proof.
  simpl. unfold keyword, cwtext. destruct (getline s LF) as [line s1].
  destruct (ok s1); [|reflexivity].
  destruct (isCommand _); [|reflexivity].
  destruct (extract_string _) as [command l]. simpl.
  destruct (String.eqb _ "CWTEXT").
  - destruct (get l) as [c l1]. simpl. destruct (getline l1 CR) as [m l2].
    simpl. destruct (Str.empty m); [reflexivity|].
    destruct (tellg s1). reflexivity.
  - destruct (String.eqb _ "SKLINE"); [|reflexivity].
    destruct (tellg s1). reflexivity.
Qed.

Lemma getline_unread s delim : (unread (getline s delim).2 ≤ unread s)%nat.
Proof.
  unfold getline, unread. destruct (good s); [|simpl; lia].
  destruct (rest s) as [|c r] eqn:R; [simpl; lia|].
  destruct (split_at delim (String c r)) as [[l r'] e] eqn:E. simpl.
  by destruct (split_at_length _ _ _ _ _ E).
Qed.

Lemma seekg_unread s pos n :
  (unread s ≤ n)%nat → pos_within pos n → (unread (seekg s pos) ≤ n)%nat.
Proof.
  unfold seekg, unread, pos_within. intros Hs Hp.
  destruct (failbit s); [done|]. by destruct pos.
Qed.

Lemma tellg_within s n :
  (unread s ≤ n)%nat → pos_within (tellg s).1 n.
Proof. unfold tellg, unread. by destruct (good s). Qed.

(** The loop has fuel enough in the length of the unread input, and
    leaves the stream no further back than where it started. *)
Lemma mbloop_terminates fuel s startOfLine messageLines n :
  (unread s ≤ n)%nat → pos_within startOfLine n → (unread s < fuel)%nat →
  mbloop fuel s startOfLine messageLines ≠ OutOfFuel ∧
  ∀ s' lines', mbloop fuel s startOfLine messageLines = Returns (s', lines') →
               (unread s' ≤ n)%nat.
Proof.
  revert s startOfLine messageLines.
  induction fuel as [|fuel IH]; intros s pos ls Hn Hpos Hlt; [lia|].
  rewrite mbloop_unfold.
  pose proof (getline_unread s LF) as Hg.
  destruct (getline s LF) as [line s1] eqn:G. simpl in Hg.
  destruct (ok s1) eqn:O.
  - destruct (getline_ok _ _ _ _ G O) as (_ & _ & Hs1).
    assert (Ht : (unread (tellg s1).2 = unread s1)%nat)
      by (unfold unread; by rewrite tellg_rest).
    destruct (isCommand _); [|apply IH; [lia|done|lia]].
    cbv zeta. destruct (String.eqb _ "CWTEXT").
    + destruct (Str.empty _); [split; [done|discriminate]|].
      apply IH; [lia| |lia]. apply tellg_within. lia.
    + destruct (String.eqb _ "SKLINE").
      * apply IH; [lia| |lia]. apply tellg_within. lia.
      * split; [done|]. intros s' l' [= <- <-]. apply seekg_unread; [lia|done].
  - split; [done|]. intros s' l' [= <- <-]. lia.
Qed.

Lemma parseMessageBoxTextDefinition_terminates s :
  parseMessageBoxTextDefinition s ≠ OutOfFuel ∧
  ∀ s' lines, parseMessageBoxTextDefinition s = Returns (s', lines) →
              (unread s' ≤ unread s)%nat.
Proof.
  unfold parseMessageBoxTextDefinition.
  destruct (tellg s) as [pos s0] eqn:T.
  assert (R : rest s0 = rest s) by (by rewrite <- (tellg_rest s), T).
  assert (W : pos_within pos (unread s)).
  { pose proof (tellg_within s (unread s)) as W. rewrite T in W. apply W. lia. }
  apply mbloop_terminates; unfold unread; rewrite ?R; [lia|done|lia].
Qed.

Lemma Skips_snoc a s line s1 :
  Skips a s → getline s LF = (line, s1) → ok s1 = true →
  isCommand (Str.trim line) = false → Skips a s1.
Proof.
  induction 1 as [s|a l a1 s Ha Hok Hc Hs IH]; intros G O C.
  - eapply skips_line; eauto. constructor.
  - eapply skips_line; eauto.
Qed.

Lemma tellg_rewindable s : rewindable (tellg s).1 (tellg s).2.
Proof.
  unfold tellg, rewindable. destruct (good s) eqn:G; simpl; [|done].
  destruct s as [r e f]. unfold good in G. simpl in *.
  destruct e, f; try discriminate. constructor.
Qed.

Lemma rewindable_next startOfLine s line s1 :
  rewindable startOfLine s →
  getline s LF = (line, s1) → ok s1 = true →
  ∃ suffix, startOfLine = pos_at suffix ∧
            Skips (mkStream suffix false false) s ∧
            seekg s1 startOfLine = mkStream suffix false false.
Proof.
  intros Hinv G O. destruct (getline_ok _ _ _ _ G O) as (Hg & Hf & _).
  destruct startOfLine as [suffix|]; simpl in Hinv.
  - exists suffix. repeat split; [done|]. unfold seekg. by rewrite Hf.
  - unfold good in Hg. rewrite Hinv in Hg. by destruct (eofbit s).
Qed.

Lemma rewindable_ignored startOfLine s line s1 :
  rewindable startOfLine s →
  getline s LF = (line, s1) → ok s1 = true →
  isCommand (Str.trim line) = false →
  rewindable startOfLine s1.
Proof.
  intros Hinv G O C.
  destruct (rewindable_next _ _ _ _ Hinv G O) as (suffix & -> & Hs & _).
  simpl. eapply Skips_snoc; eauto.
Qed.

(** When the loop returns a stream that is not failed, it has stopped at
    a command line that is neither [CWTEXT] nor [SKLINE], and only ignored
    lines lie between the stream it returns and that line. *)
Lemma mbloop_stops fuel s startOfLine messageLines s' lines' :
  rewindable startOfLine s →
  mbloop fuel s startOfLine messageLines = Returns (s', lines') →
  ok s' = true →
  ∃ before line after,
    Skips s' before ∧ getline before LF = (line, after) ∧ ok after = true ∧
    isCommand (Str.trim line) = true ∧
    keyword (stripCommandPrefix (Str.trim line)) ≠ "CWTEXT" ∧
    keyword (stripCommandPrefix (Str.trim line)) ≠ "SKLINE".
Proof.
  revert s startOfLine messageLines.
  induction fuel as [|fuel IH]; intros s pos ls Hinv; [discriminate|].
  rewrite mbloop_unfold. destruct (getline s LF) as [line s1] eqn:G.
  destruct (ok s1) eqn:O.
  - destruct (isCommand _) eqn:C.
    + cbv zeta. destruct (String.eqb _ "CWTEXT") eqn:E1.
      * destruct (Str.empty _); [discriminate|].
        apply IH, tellg_rewindable.
      * destruct (String.eqb _ "SKLINE") eqn:E2; [apply IH, tellg_rewindable|].
        intros [= <- <-] O'. exists s, line, s1.
        apply String.eqb_neq in E1, E2. repeat split; try done.
        destruct (rewindable_next _ _ _ _ Hinv G O) as (suffix & -> & Hs & ->).
        done.
    + apply IH. eapply rewindable_ignored; eauto.
  - intros [= <- <-]. congruence.
Qed.

End MessageBoxFacts.

(** ** The parsers never run out of fuel *)

Section Termination.

Import StreamFacts.

Variable NDEBUG : bool.

Lemma stoi_fuel str : stoi str ≠ OutOfFuel.
Proof. unfold stoi. repeat case_match; discriminate. Qed.

Lemma parseXYText_fuel x y parameters : parseXYText x y parameters ≠ OutOfFuel.
Proof.
  unfold parseXYText, iterator_range.
  repeat case_match; try discriminate; simpl.
  pose proof (stoi_fuel (substring 1 (4 - 1) parameters)).
  pose proof (stoi_fuel (substring 4 (6 - 4) parameters)).
  destruct (stoi (substring 1 _ _)); simpl; try done.
  destruct (stoi (substring 4 _ _)); simpl; done.
Qed.

Lemma parseOneLineAction_fuel command l :
  parseOneLineAction NDEBUG command l ≠ OutOfFuel.
Proof.
  unfold parseOneLineAction.
  repeat case_match; try discriminate. apply parseXYText_fuel.
Qed.

Lemma parsePagesDefinition_consumeLine_unread command l s pages s' pages' :
  parsePagesDefinition_consumeLine NDEBUG command l s pages = Returns (s', pages') →
  (unread s' ≤ unread s)%nat.
Proof.
  unfold parsePagesDefinition_consumeLine.
  destruct (String.eqb _ _); [by intros [= <- <-]|].
  destruct (parseOneLineAction _ _ _) as [[a|]| | | |]; simpl; try discriminate.
  - destruct (emplace_back_on_back _ _); simpl; try discriminate.
    by intros [= <- <-].
  - by intros [= <- <-].
Qed.

Lemma emplace_back_on_back_fuel pages action :
  emplace_back_on_back pages action ≠ OutOfFuel.
Proof.
  induction pages as [|p ps IH]; simpl; [done|].
  destruct ps; [done|]. by destruct (emplace_back_on_back _ _).
Qed.

Lemma parsePagesDefinition_consumeLine_fuel command l s pages :
  parsePagesDefinition_consumeLine NDEBUG command l s pages ≠ OutOfFuel.
Proof.
  unfold parsePagesDefinition_consumeLine.
  destruct (String.eqb _ _); [done|].
  pose proof (parseOneLineAction_fuel command l).
  destruct (parseOneLineAction _ _ _) as [[a|]| | | |]; simpl; try done.
  pose proof (emplace_back_on_back_fuel pages a).
  by destruct (emplace_back_on_back _ _).
Qed.

Lemma parsePagesDefinition_terminates s :
  parsePagesDefinition NDEBUG s ≠ OutOfFuel.
Proof.
  unfold parsePagesDefinition.
  pose proof (parseScriptLines_terminates "PAGESEND" _
    (parsePagesDefinition_consumeLine_unread)
    (parsePagesDefinition_consumeLine_fuel) s [[]]) as H.
  by destruct (parseScriptLines _ _ _ _) as [[? ?]| | | |].
Qed.

Lemma parsePagesDefinition_unread s s' action :
  parsePagesDefinition NDEBUG s = Returns (s', action) →
  (unread s' < unread s)%nat.
Proof.
  unfold parsePagesDefinition.
  destruct (parseScriptLines _ _ _ _) as [[s1 pages]| | | |] eqn:E;
    simpl; try discriminate.
  intros [= <- <-].
  by destruct (parseScriptLines_unread "PAGESEND" _
    parsePagesDefinition_consumeLine_unread _ _ _ _ E).
Qed.

Lemma parseAction_fuel command s l : parseAction NDEBUG command s l ≠ OutOfFuel.
Proof.
  unfold parseAction. destruct (String.eqb _ _).
  - repeat case_match.
    destruct (parseMessageBoxTextDefinition_terminates (skipWhiteSpace s)) as [Hmb _].
    by destruct (parseMessageBoxTextDefinition _) as [[? ?]| | | |].
  - pose proof (parseOneLineAction_fuel command l).
    by destruct (parseOneLineAction _ _ _).
Qed.

Lemma parseAction_unread command s l s' a :
  parseAction NDEBUG command s l = Returns (s', a) → (unread s' ≤ unread s)%nat.
Proof.
  unfold parseAction. destruct (String.eqb _ _).
  - repeat case_match.
    destruct (parseMessageBoxTextDefinition_terminates (skipWhiteSpace s)) as [_ Hmb].
    destruct (parseMessageBoxTextDefinition _) as [[s1 ls]| | | |];
      simpl; try discriminate.
    intros [= <- <-]. specialize (Hmb _ _ eq_refl).
    pose proof (skipWhiteSpace_unread s). lia.
  - destruct (parseOneLineAction _ _ _); simpl; try discriminate.
    by intros [= <- <-].
Qed.

Lemma parseScript_consumeLine_fuel command l s script :
  parseScript_consumeLine NDEBUG command l s script ≠ OutOfFuel.
Proof.
  unfold parseScript_consumeLine. destruct (String.eqb _ "PAGESSTART").
  - pose proof (parsePagesDefinition_terminates (skipWhiteSpace s)).
    by destruct (parsePagesDefinition _ _) as [[? ?]| | | |].
  - destruct (String.eqb _ "MENU"); [by case_match|].
    pose proof (parseAction_fuel command s l).
    destruct (parseAction _ _ _ _) as [[? [?|]]| | | |]; done.
Qed.

Lemma parseScript_consumeLine_unread command l s script s' script' :
  parseScript_consumeLine NDEBUG command l s script = Returns (s', script') →
  (unread s' ≤ unread s)%nat.
Proof.
  unfold parseScript_consumeLine. destruct (String.eqb _ "PAGESSTART").
  - destruct (parsePagesDefinition _ _) as [[s1 pd]| | | |] eqn:E;
      simpl; try discriminate.
    intros [= <- <-]. apply parsePagesDefinition_unread in E.
    pose proof (skipWhiteSpace_unread s). lia.
  - destruct (String.eqb _ "MENU"); [case_match; by intros [= <- <-]|].
    destruct (parseAction _ _ _ _) as [[s1 [a|]]| | | |] eqn:E;
      simpl; try discriminate; intros [= <- <-];
      by apply parseAction_unread in E.
Qed.

(** [parseScript] comes to an end on every stream, and a script it
    returns has cost at least one character of input. *)
Lemma parseScript_terminates s : parseScript NDEBUG s ≠ OutOfFuel.
Proof.
  apply parseScriptLines_terminates.
  - apply parseScript_consumeLine_unread.
  - apply parseScript_consumeLine_fuel.
Qed.

Lemma parseScript_unread s s' script :
  parseScript NDEBUG s = Returns (s', script) →
  (unread s' < unread s)%nat ∧ failbit s' = false.
Proof.
  apply parseScriptLines_unread, parseScript_consumeLine_unread.
Qed.

End Termination.

(** ** The loop of [loadScripts] *)

Section LoadScriptsFacts.

Import StreamFacts.

Variable NDEBUG : bool.

Lemma emplace_lookup_same name script (bundle : ScriptBundle) :
  emplace name script bundle !! name
  = Some (default script (bundle !! name)).
Proof.
  unfold emplace. destruct (bundle !! name) eqn:E; simpl; [done|].
  apply lookup_insert_eq.
Qed.

Lemma emplace_lookup_other name name' script (bundle : ScriptBundle) :
  name ≠ name' → emplace name script bundle !! name' = bundle !! name'.
Proof.
  intros Hne. unfold emplace. destruct (bundle !! name); [done|].
  by apply lookup_insert_ne.
Qed.

(** An entry of the bundle is never replaced. *)
Lemma emplace_all_keeps definitions (bundle : ScriptBundle) name script :
  bundle !! name = Some script →
  emplace_all definitions bundle !! name = Some script.
Proof.
  revert bundle. induction definitions as [|[n sc] ds IH]; intros bundle H.
  - done.
  - apply IH. simpl. destruct (decide (n = name)) as [->|Hne].
    + by rewrite emplace_lookup_same, H.
    + by rewrite emplace_lookup_other.
Qed.

Lemma emplace_all_other definitions (bundle : ScriptBundle) name :
  name ∉ definitions.*1 →
  emplace_all definitions bundle !! name = bundle !! name.
Proof.
  revert bundle. induction definitions as [|[n sc] ds IH]; intros bundle H.
  - done.
  - simpl in H. apply not_elem_of_cons in H as [Hne Hds].
    unfold emplace_all in *. simpl. rewrite IH by done.
    by apply emplace_lookup_other.
Qed.

Lemma emplace_all_app ds1 ds2 (bundle : ScriptBundle) :
  emplace_all (ds1 ++ ds2) bundle = emplace_all ds2 (emplace_all ds1 bundle).
Proof. apply foldl_app. Qed.

(** [loadScripts] is the calls of [emplace] on the defined scripts. *)
Lemma loadScripts_loop_definedScripts fuel s (bundle : ScriptBundle) :
  loadScripts_loop NDEBUG fuel s bundle =
  definitions ← definedScripts_loop NDEBUG fuel s;
  Returns (emplace_all definitions bundle).
Proof.
  revert s bundle. induction fuel as [|fuel IH]; intros s bundle; [done|].
  simpl. destruct (eof s); [done|].
  destruct (extract_string _) as [name s2].
  destruct (Str.empty _); [apply IH|].
  destruct (parseScript _ _) as [[s3 script]| | | |]; simpl; try done.
  rewrite IH. by destruct (definedScripts_loop _ _ _).
Qed.

Lemma trim_left_if_head p s c r :
  Str.trim_left_if p s = String c r → p c = false.
Proof.
  induction s as [|c' s IH]; simpl; [discriminate|].
  destruct (p c') eqn:E; [done|]. by intros [= <- <-].
Qed.

Lemma skipWhiteSpace_loop_good r fuel :
  (String.length r < fuel)%nat →
  skipWhiteSpace_loop fuel (mkStream r false false) =
  match Str.trim_left_if isspace r with
  | EmptyString => mkStream EmptyString true false
  | r' => mkStream r' false false
  end.
Proof.
  revert fuel. induction r as [|c r IH]; intros fuel Hlt.
  - destruct fuel; [simpl in Hlt; lia|]. reflexivity.
  - destruct fuel; [lia|]. simpl in Hlt. simpl.
    destruct (isspace c); [|reflexivity].
    apply IH. lia.
Qed.

(** On a good stream, [skipWhiteSpace] stops in front of a character that
    is not white space, or at the end of the input with [eofbit] set. *)
Lemma skipWhiteSpace_good s :
  good s = true →
  skipWhiteSpace s =
  match Str.trim_left_if isspace (rest s) with
  | EmptyString => mkStream EmptyString true false
  | r' => mkStream r' false false
  end.
Proof.
  destruct s as [r e f]. unfold good. simpl. intros G.
  destruct e, f; try discriminate.
  unfold skipWhiteSpace. simpl rest. apply skipWhiteSpace_loop_good. lia.
Qed.

Lemma extract_string_token c r :
  isspace c = false →
  extract_string (mkStream (String c r) false false) =
  let '(tok, r2) := span (fun c => negb (isspace c)) r in
  (String c tok, mkStream r2 (Str.empty r2) false).
Proof.
  intros Hc. unfold extract_string, sentry, good. simpl. rewrite Hc. simpl.
  rewrite Hc. simpl. by destruct (span _ r).
Qed.

Lemma definedScripts_loop_unfold fuel s :
  definedScripts_loop NDEBUG (S fuel) s =
  if eof s then Returns []
  else
    let r := extract_string (skipWhiteSpace s) in
    if Str.empty (Str.trim r.1) then definedScripts_loop NDEBUG fuel r.2
    else
      '(s3, script) ← parseScript NDEBUG r.2;
      later ← definedScripts_loop NDEBUG fuel s3;
      Returns ((Str.trim r.1, script) :: later).
Proof. simpl. destruct (eof s); [done|]. by destruct (extract_string _). Qed.

Lemma definedScripts_loop_terminates fuel s :
  at_loop_head fuel s → definedScripts_loop NDEBUG fuel s ≠ OutOfFuel.
Proof.
  revert s. induction fuel as [|fuel IH]; intros s H.
  - unfold at_loop_head in H. destruct (eofbit s); lia.
  - rewrite definedScripts_loop_unfold. unfold eof. unfold at_loop_head in H.
    destruct (eofbit s) eqn:E; [done|]. destruct H as [F Hlen].
    rewrite skipWhiteSpace_good by (unfold good; by rewrite E, F).
    pose proof (trim_left_if_length isspace (rest s)) as Hskip.
    destruct (Str.trim_left_if isspace (rest s)) as [|c r] eqn:T.
    + apply IH. unfold at_loop_head. simpl. unfold unread in Hlen. lia.
    + apply trim_left_if_head in T as Hc.
      rewrite (extract_string_token _ _ Hc).
      destruct (span _ r) as [tok r2] eqn:Sp.
      apply span_length in Sp as [Hr2 _]. simpl in Hskip. unfold unread in Hlen.
      set (s2 := mkStream r2 (Str.empty r2) false).
      assert (Hs2 : unread s2 = String.length r2) by done.
      assert (Hhead : at_loop_head fuel s2).
      { unfold at_loop_head, unread, s2; simpl. destruct (Str.empty r2); [lia|].
        split; [done|lia]. }
      clearbody s2. cbv zeta. cbn [fst snd].
      destruct (Str.empty (Str.trim _)); [by apply IH|].
      pose proof (parseScript_terminates NDEBUG s2) as Hp.
      destruct (parseScript NDEBUG s2) as [[s3 script]| | | |] eqn:P;
        [|discriminate|discriminate|discriminate|congruence].
      apply parseScript_unread in P as [Hs3 Fs3].
      assert (Hd : definedScripts_loop NDEBUG fuel s3 ≠ OutOfFuel).
      { apply IH. unfold at_loop_head. destruct (eofbit s3); [lia|].
        split; [done|lia]. }
      cbn [mbind outcome_bind].
      destruct (definedScripts_loop NDEBUG fuel s3);
        [discriminate|discriminate|discriminate|discriminate|congruence].
Qed.

(** [loadScripts] comes to an end on every source. *)
Lemma definedScripts_terminates src : definedScripts NDEBUG src ≠ OutOfFuel.
Proof.
  apply definedScripts_loop_terminates. unfold at_loop_head, unread. simpl.
  split; [done|lia].
Qed.

Lemma loadScripts_definedScripts src :
  loadScripts NDEBUG src =
  definitions ← definedScripts NDEBUG src; Returns (emplace_all definitions ∅).
Proof.
  unfold loadScripts, definedScripts.
  exact (loadScripts_loop_definedScripts _ (istringstream src) ∅).
Qed.

Lemma loadScripts_terminates src : loadScripts NDEBUG src ≠ OutOfFuel.
Proof.
  rewrite loadScripts_definedScripts.
  pose proof (definedScripts_terminates src).
  by destruct (definedScripts _ _).
Qed.

End LoadScriptsFacts.

(** ** Runs of the line loop *)

Section ReachesFacts.

Context {Captured : Type}.
Variable endMarker : string.
Variable consumeLine :
  string → istream → istream → Captured → outcome (istream * Captured).

Abbreviation lineloop := (parseScriptLines_loop endMarker consumeLine).

(** A run of the loop costs fuel and nothing else. *)
Lemma reaches_loop s c s' c' :
  Reaches endMarker consumeLine s c s' c' →
  ∃ k, ∀ fuel, lineloop (k + fuel) s c = lineloop fuel s' c'.
Proof.
  induction 1 as [s c|s c line s1 s' c' G O C _ [k IH]
                 |s c line s1 s2 c2 s' c' G O C E D _ [k IH]].
  - by exists 0%nat.
  - exists (S k). intros fuel. cbn [Nat.add]. rewrite loop_unfold, G, O, C.
    apply IH.
  - exists (S k). intros fuel. cbn [Nat.add]. rewrite loop_unfold, G, O, C.
    apply String.eqb_neq in E. rewrite E, D. apply IH.
Qed.

Lemma reaches_exhausted s c s' c' :
  Reaches endMarker consumeLine s c s' c' → exhausted s' →
  ∃ k, ∀ fuel, (k ≤ fuel)%nat →
    lineloop fuel s c = Throws (missingEndMarker endMarker).
Proof.
  intros [k Hk]%reaches_loop Hex. exists (k + 1)%nat. intros fuel Hle.
  replace fuel with (k + S (fuel - k - 1))%nat by lia.
  rewrite Hk. by apply loop_exhausted.
Qed.

Lemma reaches_throws s c s' c' line s1 e :
  Reaches endMarker consumeLine s c s' c' →
  getline s' LF = (line, s1) → ok s1 = true →
  isCommand (Str.trim line) = true →
  stripCommandPrefix (Str.trim line) ≠ endMarker →
  dispatch consumeLine (stripCommandPrefix (Str.trim line)) s1 c' = Throws e →
  ∃ k, ∀ fuel, (k ≤ fuel)%nat → lineloop fuel s c = Throws e.
Proof.
  intros [k Hk]%reaches_loop G O C E D. exists (k + 1)%nat. intros fuel Hle.
  replace fuel with (k + S (fuel - k - 1))%nat by lia.
  rewrite Hk, loop_unfold, G, O, C. apply String.eqb_neq in E.
  by rewrite E, D.
Qed.

(** With a callback that does not rewind, [parseScriptLines] itself has
    the fuel for such a run. *)
Lemma parseScriptLines_throws s c e :
  (∀ command l s c s' c', consumeLine command l s c = Returns (s', c') →
     (unread s' ≤ unread s)%nat) →
  (∀ command l s c, consumeLine command l s c ≠ OutOfFuel) →
  (∃ k, ∀ fuel, (k ≤ fuel)%nat →
     lineloop fuel (skipWhiteSpace s) c = Throws e) →
  parseScriptLines endMarker consumeLine s c = Throws e.
Proof.
  intros Hu Hf [k Hk].
  rewrite (parseScriptLines_fuel _ _ Hu Hf k); rewrite Hk; done.
Qed.

End ReachesFacts.

(** [missingEndMarker] names the marker. *)
Lemma contains_here s t : Str.starts_with (s +:+ t) s = true.
Proof.
  induction s as [|c s IH]; simpl; [by destruct t|].
  by rewrite Ascii.eqb_refl.
Qed.

Lemma contains_app prefix s needle :
  Str.contains s needle = true → Str.contains (prefix +:+ s) needle = true.
Proof.
  intros H. induction prefix as [|c prefix IH]; simpl; [done|].
  rewrite IH. apply orb_true_r.
Qed.

Lemma contains_middle prefix needle suffix :
  Str.contains (prefix +:+ needle +:+ suffix) needle = true.
Proof.
  apply contains_app. destruct needle; simpl.
  - by destruct suffix.
  - by rewrite Ascii.eqb_refl, contains_here.
Qed.

Lemma missingEndMarker_names endMarker :
  Str.contains (what (missingEndMarker endMarker)) endMarker = true.
Proof. apply contains_middle. Qed.

Section LoadRuns.

Import StreamFacts.

Variable NDEBUG : bool.

Lemma loadScripts_loop_unfold fuel s (bundle : ScriptBundle) :
  loadScripts_loop NDEBUG (S fuel) s bundle =
  if eof s then Returns bundle
  else
    let r := extract_string (skipWhiteSpace s) in
    if Str.empty (Str.trim r.1) then loadScripts_loop NDEBUG fuel r.2 bundle
    else
      '(s3, script) ← parseScript NDEBUG r.2;
      loadScripts_loop NDEBUG fuel s3 (emplace (Str.trim r.1) script bundle).
Proof. simpl. destruct (eof s); [done|]. by destruct (extract_string _). Qed.

Lemma loadScripts_loop_fuel_mono fuel fuel' s (bundle : ScriptBundle) :
  (fuel ≤ fuel')%nat → loadScripts_loop NDEBUG fuel s bundle ≠ OutOfFuel →
  loadScripts_loop NDEBUG fuel' s bundle = loadScripts_loop NDEBUG fuel s bundle.
Proof.
  revert fuel' s bundle.
  induction fuel as [|fuel IH]; intros fuel' s bundle Hle Hne; [done|].
  destruct fuel' as [|fuel']; [lia|].
  rewrite !loadScripts_loop_unfold in *. destruct (eof s); [done|].
  cbv zeta in *. destruct (Str.empty _).
  - apply IH; [lia|done].
  - destruct (parseScript _ _) as [[s3 script]| | | |]; try done.
    cbn [mbind outcome_bind] in *. apply IH; [lia|done].
Qed.

(** Scripts completed before cost fuel, and leave some bundle. *)
Lemma completed_loop s s' :
  Completed NDEBUG s s' →
  ∃ k, ∀ fuel (bundle : ScriptBundle), ∃ bundle' : ScriptBundle,
    loadScripts_loop NDEBUG (k + fuel) s bundle
    = loadScripts_loop NDEBUG fuel s' bundle'.
Proof.
  induction 1 as [s|s s3 script s' E N P _ [k IH]].
  - exists 0%nat. intros fuel bundle. by exists bundle.
  - exists (S k). intros fuel bundle. cbn [Nat.add].
    rewrite loadScripts_loop_unfold, E. cbv zeta. rewrite N, P.
    cbn [mbind outcome_bind]. apply IH.
Qed.

(** A script that throws makes the whole load throw, whatever was
    completed before it. *)
Lemma completed_throws src s e :
  Completed NDEBUG (istringstream src) s →
  eof s = false →
  Str.empty (Str.trim (extract_string (skipWhiteSpace s)).1) = false →
  parseScript NDEBUG (extract_string (skipWhiteSpace s)).2 = Throws e →
  loadScripts NDEBUG src = Throws e.
Proof.
  intros [k Hk]%completed_loop E N P.
  pose proof (loadScripts_terminates NDEBUG src) as Hterm.
  unfold loadScripts in *.
  set (n := (String.length src + 2)%nat) in *.
  destruct (Hk (S n) ∅) as [bundle' Hrun].
  rewrite loadScripts_loop_unfold, E in Hrun. cbv zeta in Hrun.
  rewrite N, P in Hrun. cbn [mbind outcome_bind] in Hrun.
  rewrite <- Hrun. symmetry. apply loadScripts_loop_fuel_mono; [lia|done].
Qed.

(** A script body that misses an end marker makes [parseScript] throw. *)
Lemma misses_parseScript s marker :
  MissesEndMarker NDEBUG s marker →
  parseScript NDEBUG s = Throws (missingEndMarker marker).
Proof.
  intros H. unfold parseScript.
  apply parseScriptLines_throws;
    [apply parseScript_consumeLine_unread|apply parseScript_consumeLine_fuel|].
  destruct H as [s' script R X|s' script line s1 sp pages R G O C E K Rp Xp].
  - eapply reaches_exhausted; eauto.
  - eapply reaches_throws; eauto.
    unfold dispatch, keyword in *.
    destruct (extract_string (istringstream _)) as [command l]. simpl in K.
    unfold parseScript_consumeLine. rewrite K. simpl.
    assert (Hp : parsePagesDefinition NDEBUG (skipWhiteSpace s1)
                 = Throws (missingEndMarker "PAGESEND")).
    { unfold parsePagesDefinition.
      rewrite (parseScriptLines_throws "PAGESEND" _ _ _
                 (missingEndMarker "PAGESEND")); [done| | |].
      - apply parsePagesDefinition_consumeLine_unread.
      - apply parsePagesDefinition_consumeLine_fuel.
      - eapply reaches_exhausted; eauto. }
    by rewrite Hp.
Qed.

End LoadRuns.

Section SkipsFacts.

Context {Captured : Type}.
Variable endMarker : string.
Variable consumeLine :
  string → istream → istream → Captured → outcome (istream * Captured).

(** The line loop reads over ignored lines at the cost of fuel only. *)
Lemma skips_loop s s' :
  Skips s s' →
  ∃ k, ∀ fuel c,
    parseScriptLines_loop endMarker consumeLine (k + fuel) s c
    = parseScriptLines_loop endMarker consumeLine fuel s' c.
Proof.
  induction 1 as [s|s line s1 s' G O C _ [k IH]].
  - by exists 0%nat.
  - exists (S k). intros fuel c. cbn [Nat.add].
    rewrite loop_unfold, G, O, C. apply IH.
Qed.

End SkipsFacts.

(** * The claims *)

(** ** C3: a missing end marker *)

(** C3.  When, after any number of completed scripts, the body of a script
    runs out of lines before its [END] -- or a block it opens runs out
    of lines before its [PAGESEND] -- [loadScripts] throws the
    missing-end-marker error, whose text names that marker; it returns no
    bundle, whatever scripts were completed before. *)
Theorem missing_end_marker_aborts_load NDEBUG src s marker :
  Completed NDEBUG (istringstream src) s →
  eof s = false →
  Str.empty (Str.trim (extract_string (skipWhiteSpace s)).1) = false →
  MissesEndMarker NDEBUG (extract_string (skipWhiteSpace s)).2 marker →
  loadScripts NDEBUG src = Throws (missingEndMarker marker) ∧
  (∀ bundle, loadScripts NDEBUG src ≠ Returns bundle) ∧
  (marker = "END" ∨ marker = "PAGESEND") ∧
  Str.contains (what (missingEndMarker marker)) marker = true.
Proof.
  intros Hdone E N Hmiss.
  assert (Hload : loadScripts NDEBUG src = Throws (missingEndMarker marker)).
  { eapply completed_throws; eauto. by apply misses_parseScript. }
  split; [exact Hload|]. split; [|split].
  - intros bundle. rewrite Hload. discriminate.
  - destruct Hmiss; auto.
  - apply missingEndMarker_names.
Qed.

(** The script [a] is complete, the script [b] has no [END]. *)
Lemma missing_end_marker_aborts_load_witness :
  loadScripts false (text ["a"; "//FADEIN"; "//END"; "b"; "//FADEOUT"])
  = Throws (invalid_argument "Missing end marker 'END' in Duke Script file").
Proof.
  refine (proj1 (missing_end_marker_aborts_load false
    (text ["a"; "//FADEIN"; "//END"; "b"; "//FADEOUT"])
    (mkStream (text ["b"; "//FADEOUT"]) false false) "END" _ _ _ _)).
  - eapply completed_script; [reflexivity|reflexivity|vm_compute; reflexivity|].
    apply completed_none.
  - reflexivity.
  - reflexivity.
  - eapply misses_END.
    + eapply reaches_command;
        [vm_compute; reflexivity|reflexivity|reflexivity|discriminate
        |vm_compute; reflexivity|apply reaches_here].
    + reflexivity.
Defined.

(** A block left open: without another line the load throws for
    [PAGESEND]; an [END] line inside the block is a line of the block, which
    fails the assertion of [parseOneLineAction] before the input is used
    up, unless assertions are compiled out. *)
Example missing_PAGESEND :
  (∀ NDEBUG,
     loadScripts NDEBUG (text ["s"; "//PAGESSTART"; "//DELAY 1"])
     = Throws (invalid_argument "Missing end marker 'PAGESEND' in Duke Script file")) ∧
  loadScripts true (text ["s"; "//PAGESSTART"; "//DELAY 1"; "//END"])
  = Throws (invalid_argument "Missing end marker 'PAGESEND' in Duke Script file") ∧
  loadScripts false (text ["s"; "//PAGESSTART"; "//DELAY 1"; "//END"])
  = AssertionFailed.
Proof.
  split; [intros []; vm_compute; reflexivity|].
  split; vm_compute; reflexivity.
Qed.

(** ** C4: the message box parser hands back the line it stops at *)

(** C4.  When the loop of [parseMessageBoxTextDefinition] reads a command
    line whose keyword is neither [CWTEXT] nor [SKLINE], it returns the
    lines accumulated so far and the stream put back to the saved
    position; from there the line loop of the enclosing parser, whatever
    its callback, comes to that very line and processes it.  In the
    scenario of the specification the [FADEOUT] line so becomes the action
    right after the message box. *)
Theorem message_box_rewinds fuel s startOfLine messageLines line s1 :
  rewindable startOfLine s →
  getline s LF = (line, s1) → ok s1 = true →
  isCommand (Str.trim line) = true →
  keyword (stripCommandPrefix (Str.trim line)) ≠ "CWTEXT" →
  keyword (stripCommandPrefix (Str.trim line)) ≠ "SKLINE" →
  parseMessageBoxTextDefinition_loop (S fuel) s startOfLine messageLines
  = Returns (seekg s1 startOfLine, messageLines) ∧
  (∃ suffix, startOfLine = pos_at suffix ∧
             seekg s1 startOfLine = mkStream suffix false false) ∧
  (∀ (Captured : Type) endMarker consumeLine (c : Captured),
     ∃ k, ∀ fuel',
       parseScriptLines_loop endMarker consumeLine (k + S fuel')
         (seekg s1 startOfLine) c
       = if String.eqb (stripCommandPrefix (Str.trim line)) endMarker
         then Returns (s1, c)
         else '(s2, c2) ← dispatch consumeLine
                            (stripCommandPrefix (Str.trim line)) s1 c;
              parseScriptLines_loop endMarker consumeLine fuel' s2 c2) ∧
  (∀ NDEBUG,
     parseScript NDEBUG (istringstream (text
       ["//CENTERWINDOW 5 3 10"; "//CWTEXT Hi" +:+ String CR EmptyString;
        "//SKLINE"; "//FADEOUT"; "//END"]))
     = Returns (mkStream EmptyString false false,
                [ShowMessageBox 5 10 3 ["Hi"; EmptyString]; FadeOut])).
Proof.
  intros Hinv G O C K1 K2.
  destruct (rewindable_next _ _ _ _ Hinv G O) as (suffix & Hpos & Hskip & Hseek).
  split; [|split; [|split]].
  - rewrite mbloop_unfold, G, O, C. cbv zeta.
    apply String.eqb_neq in K1, K2. by rewrite K1, K2.
  - by exists suffix.
  - intros Captured endMarker consumeLine c. rewrite Hseek.
    destruct (skips_loop endMarker consumeLine _ _ Hskip) as [k Hk].
    exists k. intros fuel'. by rewrite Hk, loop_unfold, G, O, C.
  - intros []; vm_compute; reflexivity.
Qed.

(** The loop at the [FADEOUT] line of the scenario, the position saved
    after the [SKLINE] line. *)
Lemma message_box_rewinds_witness :
  parseMessageBoxTextDefinition_loop 1
    (mkStream (text ["//FADEOUT"; "//END"]) false false)
    (pos_at (text ["//FADEOUT"; "//END"])) ["Hi"; EmptyString]
  = Returns (mkStream (text ["//FADEOUT"; "//END"]) false false,
             ["Hi"; EmptyString]).
Proof.
  refine (proj1 (message_box_rewinds 0
    (mkStream (text ["//FADEOUT"; "//END"]) false false)
    (pos_at (text ["//FADEOUT"; "//END"])) ["Hi"; EmptyString]
    "//FADEOUT" (mkStream (text ["//END"]) false false) _ _ _ _ _ _)).
  - apply skips_here.
  - reflexivity.
  - reflexivity.
  - reflexivity.
  - vm_compute. discriminate.
  - vm_compute. discriminate.
Defined.

(** The invariant [rewindable] holds all through a call of
    [parseMessageBoxTextDefinition]: a call that returns a stream that is
    not failed has stopped in front of such a line. *)
Lemma parseMessageBoxTextDefinition_stops s s' messageLines :
  parseMessageBoxTextDefinition s = Returns (s', messageLines) →
  ok s' = true →
  ∃ before line after,
    Skips s' before ∧ getline before LF = (line, after) ∧ ok after = true ∧
    isCommand (Str.trim line) = true ∧
    keyword (stripCommandPrefix (Str.trim line)) ≠ "CWTEXT" ∧
    keyword (stripCommandPrefix (Str.trim line)) ≠ "SKLINE".
Proof.
  unfold parseMessageBoxTextDefinition.
  pose proof (tellg_rewindable s) as Hinv.
  destruct (tellg s) as [pos s0]. apply mbloop_stops, Hinv.
Qed.

(** ** C5: the pages of a paged definition *)

Section Simulation.

Context {A B : Type}.
Variable endMarker : string.
Variable f : string → istream → istream → A → outcome (istream * A).
Variable g : string → istream → istream → B → outcome (istream * B).
Variable R : A → B → Prop.

Hypothesis simulates : ∀ command l s a b s' a',
  f command l s a = Returns (s', a') → R a b →
  ∃ b', g command l s b = Returns (s', b') ∧ R a' b'.

(** Two callbacks that go in step make the line loop go in step. *)
Lemma loop_simulation fuel s a b s' a' :
  parseScriptLines_loop endMarker f fuel s a = Returns (s', a') → R a b →
  ∃ b', parseScriptLines_loop endMarker g fuel s b = Returns (s', b') ∧ R a' b'.
Proof.
  revert s a b. induction fuel as [|fuel IH]; intros s a b; [discriminate|].
  rewrite !loop_unfold. destruct (getline s LF) as [line s1].
  destruct (ok s1); [|discriminate].
  destruct (isCommand _); [|apply IH].
  destruct (String.eqb _ _).
  - intros [= <- <-] HR. by exists b.
  - unfold dispatch. destruct (extract_string _) as [command l].
    destruct (f _ l s1 a) as [[s2 a2]| | | |] eqn:E; try discriminate.
    cbn [mbind outcome_bind]. intros Hloop HR.
    destruct (simulates _ _ _ _ _ _ _ E HR) as (b2 & -> & HR2).
    cbn [mbind outcome_bind]. eapply IH; eauto.
Qed.

End Simulation.

Lemma emplace_back_on_back_last pages page action :
  emplace_back_on_back (pages ++ [page]) action
  = Returns (pages ++ [page ++ [action]]).
Proof.
  induction pages as [|p ps IH]; [done|].
  cbn [app emplace_back_on_back]. rewrite IH.
  by destruct (ps ++ [page]) eqn:E; [destruct ps|].
Qed.

Lemma emplace_back_on_back_length pages action pages' :
  emplace_back_on_back pages action = Returns pages' →
  length pages' = length pages.
Proof.
  destruct (decide (pages = [])) as [->|Hne]; [discriminate|].
  destruct (exists_last Hne) as (ps & p & ->).
  rewrite emplace_back_on_back_last. intros [= <-].
  by rewrite !length_app.
Qed.

Lemma count_APAGE_snoc commands command :
  count_APAGE (commands ++ [command])
  = (count_APAGE commands + if String.eqb command "APAGE" then 1 else 0)%nat.
Proof.
  unfold count_APAGE. rewrite filter_app, length_app. f_equal.
  destruct (String.eqb_spec command "APAGE") as [->|Hne].
  - done.
  - rewrite filter_cons_False by done. done.
Qed.

(** The callback of [parsePagesDefinition] keeps the number of pages one
    above the number of [APAGE] lines, and leaves the source stream
    alone. *)
Lemma parsePagesDefinition_consumeLine_counts NDEBUG command l s pages log s' pages' :
  parsePagesDefinition_consumeLine NDEBUG command l s pages = Returns (s', pages') →
  length pages = S (count_APAGE log) →
  ∃ log', logCommands command l s log = Returns (s', log') ∧
          length pages' = S (count_APAGE log').
Proof.
  unfold parsePagesDefinition_consumeLine, logCommands. intros H Hlen.
  exists (log ++ [command]). rewrite count_APAGE_snoc.
  destruct (String.eqb command "APAGE").
  - injection H as <- <-. rewrite length_app. simpl. split; [done|lia].
  - destruct (parseOneLineAction _ _ _) as [[a|]| | | |]; try discriminate.
    + cbn [mbind outcome_bind] in H.
      destruct (emplace_back_on_back pages a) as [ps| | | |] eqn:E;
        try discriminate.
      injection H as <- <-. apply emplace_back_on_back_length in E.
      split; [done|lia].
    + injection H as <- <-. split; [done|lia].
Qed.

(** C5.  Every [PagesDefinition] that [parsePagesDefinition] returns has
    one page more than the block has [APAGE] lines, so at least one, and
    exactly one for a block without [APAGE]; the parser starts from one
    empty page, [APAGE] appends an empty page, and an action goes to the
    end of the last page.  The block [DELAY 1 / APAGE / DELAY 2] gives the
    pages [[Delay 1]] and [[Delay 2]]. *)
Theorem pages_definition_pages NDEBUG s s' action :
  parsePagesDefinition NDEBUG s = Returns (s', action) →
  (∃ pages commands,
     action = PagesDefinition pages ∧
     parseScriptLines "PAGESEND" logCommands s [] = Returns (s', commands) ∧
     length pages = S (count_APAGE commands) ∧
     (1 ≤ length pages)%nat ∧
     (count_APAGE commands = 0%nat → ∃ page, pages = [page])) ∧
  parsePagesDefinition NDEBUG s
  = ('(s, pages) ← parseScriptLines "PAGESEND"
                     (parsePagesDefinition_consumeLine NDEBUG) s [[]];
     Returns (s, PagesDefinition pages)) ∧
  (∀ l src pages,
     parsePagesDefinition_consumeLine NDEBUG "APAGE" l src pages
     = Returns (src, pages ++ [[]])) ∧
  (∀ command l src pages page a,
     command ≠ "APAGE" →
     parseOneLineAction NDEBUG command l = Returns (Some a) →
     parsePagesDefinition_consumeLine NDEBUG command l src (pages ++ [page])
     = Returns (src, pages ++ [page ++ [a]])) ∧
  (∀ command l src pages,
     command ≠ "APAGE" →
     parseOneLineAction NDEBUG command l = Returns None →
     parsePagesDefinition_consumeLine NDEBUG command l src pages
     = Returns (src, pages)) ∧
  loadScripts NDEBUG (text ["s"; "//PAGESSTART"; "//DELAY 1"; "//APAGE";
                            "//DELAY 2"; "//PAGESEND"; "//END"])
  = Returns {[ "s" := [PagesDefinition [[Delay 1]; [Delay 2]]] ]} ∧
  loadScripts NDEBUG (text ["s"; "//PAGESSTART"; "//DELAY 1"; "//PAGESEND"; "//END"])
  = Returns {[ "s" := [PagesDefinition [[Delay 1]]] ]}.
Proof.
  intros H. split; [|split; [|split; [|split; [|split; [|split]]]]].
  - unfold parsePagesDefinition, parseScriptLines in *.
    destruct (parseScriptLines_loop _ _ _ _ _) as [[s1 pages]| | | |] eqn:E;
      try discriminate.
    injection H as <- <-.
    destruct (loop_simulation "PAGESEND" _ logCommands
                (fun pages log => length pages = S (count_APAGE log))
                (parsePagesDefinition_consumeLine_counts NDEBUG)
                _ _ _ [] _ _ E eq_refl) as (commands & Hlog & Hlen).
    exists pages, commands. repeat split; [done|done|lia|].
    intros Hzero. rewrite Hzero in Hlen.
    destruct pages as [|page [|? ?]]; try discriminate. by exists page.
  - reflexivity.
  - reflexivity.
  - intros command l src pages page a Hne Ha.
    unfold parsePagesDefinition_consumeLine.
    apply String.eqb_neq in Hne. rewrite Hne, Ha. cbn [mbind outcome_bind].
    by rewrite emplace_back_on_back_last.
  - intros command l src pages Hne Ha.
    unfold parsePagesDefinition_consumeLine.
    apply String.eqb_neq in Hne. by rewrite Hne, Ha.
  - destruct NDEBUG; vm_compute; reflexivity.
  - destruct NDEBUG; vm_compute; reflexivity.
Qed.

(** The block of the scenario, read after its [PAGESSTART] line. *)
Lemma pages_definition_pages_witness :
  ∃ pages commands,
    PagesDefinition [[Delay 1]; [Delay 2]] = PagesDefinition pages ∧
    parseScriptLines "PAGESEND" logCommands
      (istringstream (text ["//DELAY 1"; "//APAGE"; "//DELAY 2"; "//PAGESEND"; "//END"]))
      []
    = Returns (istringstream (text ["//END"]), commands) ∧
    length pages = S (count_APAGE commands) ∧
    (1 ≤ length pages)%nat ∧
    (count_APAGE commands = 0%nat → ∃ page, pages = [page]).
Proof.
  refine (proj1 (pages_definition_pages false
    (istringstream (text ["//DELAY 1"; "//APAGE"; "//DELAY 2"; "//PAGESEND"; "//END"]))
    (istringstream (text ["//END"]))
    (PagesDefinition [[Delay 1]; [Delay 2]]) _)).
  vm_compute. reflexivity.
Defined.

(** ** C9: [MENU] *)

(** C9.  When the line loop of [parseScript] reads a command line with the
    keyword [MENU], it goes on with two more actions at the end of the
    script: [ConfigurePersistentMenuSelection] with the integer extracted
    from the rest of the line, and right after it
    [ScheduleFadeInBeforeNextWaitState]. *)
Theorem menu_appends_two_actions NDEBUG fuel s script line s1 :
  getline s LF = (line, s1) → ok s1 = true →
  isCommand (Str.trim line) = true →
  keyword (stripCommandPrefix (Str.trim line)) = "MENU" →
  let lineTextStream :=
    (extract_string (istringstream (stripCommandPrefix (Str.trim line)))).2 in
  let slot := (extract_int lineTextStream 0).1 in
  parseScriptLines_loop "END" (parseScript_consumeLine NDEBUG) (S fuel) s script
  = parseScriptLines_loop "END" (parseScript_consumeLine NDEBUG) fuel s1
      (script ++ [ConfigurePersistentMenuSelection slot;
                  ScheduleFadeInBeforeNextWaitState]) ∧
  parseScript_consumeLine NDEBUG "MENU" lineTextStream s1 script
  = Returns (s1, script ++ [ConfigurePersistentMenuSelection slot;
                            ScheduleFadeInBeforeNextWaitState]).
Proof.
  intros G O C K lineTextStream slot.
  assert (Hcb : parseScript_consumeLine NDEBUG "MENU" lineTextStream s1 script
    = Returns (s1, script ++ [ConfigurePersistentMenuSelection slot;
                              ScheduleFadeInBeforeNextWaitState])).
  { unfold parseScript_consumeLine, slot. simpl.
    by destruct (extract_int lineTextStream 0). }
  split; [|exact Hcb].
  rewrite loop_unfold, G, O, C.
  destruct (String.eqb_spec (stripCommandPrefix (Str.trim line)) "END") as [E|_].
  - rewrite E in K. vm_compute in K. discriminate.
  - unfold dispatch, keyword, lineTextStream in *.
    destruct (extract_string (istringstream _)) as [command l].
    simpl in K, Hcb. rewrite K, Hcb. reflexivity.
Qed.

Lemma menu_appends_two_actions_witness :
  parseScriptLines_loop "END" (parseScript_consumeLine false) 2
    (istringstream (text ["//MENU 3"; "//END"])) [FadeIn]
  = parseScriptLines_loop "END" (parseScript_consumeLine false) 1
      (istringstream (text ["//END"]))
      ([FadeIn] ++ [ConfigurePersistentMenuSelection 3;
                    ScheduleFadeInBeforeNextWaitState]).
Proof.
  refine (proj1 (menu_appends_two_actions false 1
    (istringstream (text ["//MENU 3"; "//END"])) [FadeIn]
    "//MENU 3" (istringstream (text ["//END"])) _ _ _ _)).
  - reflexivity.
  - reflexivity.
  - reflexivity.
  - vm_compute. reflexivity.
Defined.

(** ** C10: [TOGGS] *)

Lemma readCheckBoxes_length count l definitions :
  length (readCheckBoxes count l definitions) = (length definitions + count)%nat.
Proof.
  revert l definitions. induction count as [|count IH]; intros l definitions.
  - simpl. lia.
  - simpl. destruct (extract_int l 0) as [y l1].
    destruct (extract_int l1 0) as [i l2]. rewrite IH, length_app. simpl. lia.
Qed.

Lemma extract_int_no_integer s : no_integer s → (extract_int s 0).1 = 0.
Proof.
  unfold no_integer, extract_int. intros [H|H].
  - by rewrite H.
  - destruct (good (sentry s)); [|done].
    destruct (scan_integer _) as [[neg ds] r]. simpl in H. by rewrite H.
Qed.

(** C10.  [parseOneLineAction] returns from every [TOGGS] command, with
    [SetupCheckBoxes] of the [xPos] extracted and as many definitions as
    the count extracted says; for a count of zero or less the list is
    empty, and a count that cannot be extracted is zero. *)
Theorem toggs_never_fails NDEBUG l :
  let xPos := (extract_int l 0).1 in
  let count := (extract_int (extract_int l 0).2 0).1 in
  (∃ definitions,
     parseOneLineAction NDEBUG "TOGGS" l
     = Returns (Some (SetupCheckBoxes xPos definitions)) ∧
     length definitions = Z.to_nat count) ∧
  (count ≤ 0 →
   parseOneLineAction NDEBUG "TOGGS" l = Returns (Some (SetupCheckBoxes xPos []))) ∧
  (no_integer (extract_int l 0).2 → count = 0).
Proof.
  intros xPos count. unfold parseOneLineAction. simpl.
  subst xPos count. destruct (extract_int l 0) as [xPos l1].
  simpl. split; [|split].
  - destruct (extract_int l1 0) as [count l2]. simpl.
    eexists. split; [reflexivity|]. by rewrite readCheckBoxes_length.
  - destruct (extract_int l1 0) as [count l2]. simpl. intros Hle.
    by replace (Z.to_nat count) with 0%nat by lia.
  - apply extract_int_no_integer.
Qed.

Lemma toggs_never_fails_witness :
  parseOneLineAction false "TOGGS" (istringstream " 3 -2 10 1")
  = Returns (Some (SetupCheckBoxes 3 [])).
Proof.
  refine (proj1 (proj2 (toggs_never_fails false (istringstream " 3 -2 10 1"))) _).
  vm_compute. discriminate.
Defined.

(** ** C7: the error of an empty [GETPAL] *)

(** C7.  A [GETPAL] command without a palette file throws
    [invalid_argument], but with the text of the [LOADRAW] error: the text
    names [LOADRAW] and does not name [GETPAL]. *)
Theorem getpal_error_names_loadraw NDEBUG l :
  Str.empty (Str.trim (extract_string l).1) = true →
  parseOneLineAction NDEBUG "GETPAL" l
  = Throws (invalid_argument "Invalid LOADRAW command in Duke Script file") ∧
  parseOneLineAction NDEBUG "GETPAL" l = parseOneLineAction NDEBUG "LOADRAW" l ∧
  (∀ e, parseOneLineAction NDEBUG "GETPAL" l = Throws e →
        Str.contains (what e) "GETPAL" = false ∧
        Str.contains (what e) "LOADRAW" = true).
Proof.
  intros H.
  assert (Hget : parseOneLineAction NDEBUG "GETPAL" l
    = Throws (invalid_argument "Invalid LOADRAW command in Duke Script file")).
  { unfold parseOneLineAction. simpl. destruct (extract_string l) as [tok l1].
    simpl in H. by rewrite H. }
  split; [exact Hget|]. split.
  - rewrite Hget. unfold parseOneLineAction. simpl.
    destruct (extract_string l) as [tok l1]. simpl in H. by rewrite H.
  - intros e. rewrite Hget. intros [= <-]. by vm_compute.
Qed.

Lemma getpal_error_names_loadraw_witness :
  parseOneLineAction false "GETPAL" (istringstream EmptyString)
  = Throws (invalid_argument "Invalid LOADRAW command in Duke Script file").
Proof.
  refine (proj1 (getpal_error_names_loadraw false (istringstream EmptyString) _)).
  reflexivity.
Defined.

(** ** C8: keywords [parseOneLineAction] does not compile *)

Lemma existsb_eqb command (l : list string) :
  existsb (String.eqb command) l = true ↔ command ∈ l.
Proof.
  rewrite existsb_exists, list_elem_of_In. split.
  - intros (k & Hk & E). apply String.eqb_eq in E. by subst.
  - intros H. exists command. split; [done|apply String.eqb_refl].
Qed.

Lemma notAllowedHere_count_spec command :
  notAllowedHere_count command = 1%nat ↔ command ∈ notAllowedHere.
Proof.
  unfold notAllowedHere_count. rewrite <- existsb_eqb.
  destruct (existsb _ _); split; done.
Qed.

Lemma notAllowed_names command :
  Str.contains (what (notAllowed command)) command = true.
Proof. apply contains_middle. Qed.

(** Outside its table, [parseOneLineAction] is its last branch. *)
Lemma parseOneLineAction_other NDEBUG command l :
  command ∉ dispatchTable →
  parseOneLineAction NDEBUG command l =
  if negb NDEBUG && String.eqb command "END" then AssertionFailed
  else if (notAllowedHere_count command =? 1)%nat then Throws (notAllowed command)
  else Returns None.
Proof.
  intros Hout.
  assert (H : ∀ k, In k dispatchTable → String.eqb command k = false).
  { intros k Hk. apply String.eqb_neq. intros ->.
    by apply Hout, list_elem_of_In. }
  unfold parseOneLineAction. by rewrite !H by (simpl; tauto).
Qed.

Lemma notAllowedHere_not_compiled command :
  command ∈ notAllowedHere → (command ∉ dispatchTable) ∧ command ≠ "END".
Proof.
  unfold notAllowedHere. intros H.
  repeat (apply elem_of_cons in H as [->|H]);
    [..|by apply elem_of_nil in H]; split; try discriminate;
    intros Hin%list_elem_of_In; simpl in Hin;
    repeat (destruct Hin as [Hin|Hin]; [discriminate|]); done.
Qed.

(** C8, and where the code falls short of it.  A keyword of
    [notAllowedHere] makes [parseOneLineAction] throw an error whose text
    names the keyword.  A keyword outside that set and outside the dispatch
    table, other than [END], compiles to nothing, and the script stays as
    it is.  A bare [APAGE] in a script body makes the load throw.  [END] is
    outside the set and outside the table as well, yet it compiles to
    nothing under [NDEBUG] only: the branch asserts [command != "END"],
    that is, that [END] never gets there, and the line [//END x] of a
    script body brings it there, so that a build with assertions aborts
    the load that a build without them completes. *)
Theorem keywords_outside_the_table NDEBUG command l :
  (command ∈ notAllowedHere →
   parseOneLineAction NDEBUG command l = Throws (notAllowed command) ∧
   Str.contains (what (notAllowed command)) command = true) ∧
  (command ∉ notAllowedHere → command ∉ dispatchTable → command ≠ "END" →
   parseOneLineAction NDEBUG command l = Returns None ∧
   ∀ src script,
     parseScript_consumeLine NDEBUG command l src script = Returns (src, script)) ∧
  parseOneLineAction NDEBUG "END" l
  = (if NDEBUG then Returns None else AssertionFailed) ∧
  loadScripts NDEBUG (text ["s"; "//APAGE"; "//END"])
  = Throws (invalid_argument "The command APAGE is not allowed in this context") ∧
  ("END" ∉ notAllowedHere) ∧ ("END" ∉ dispatchTable) ∧
  loadScripts NDEBUG (text ["s"; "//END x"; "//END"])
  = (if NDEBUG then Returns (emplace "s" [] ∅) else AssertionFailed).
Proof.
  split; [|split; [|split; [|split; [|split; [|split]]]]].
  - intros Hin. destruct (notAllowedHere_not_compiled _ Hin) as [Hout Hend].
    split; [|apply notAllowed_names].
    rewrite parseOneLineAction_other by done.
    apply String.eqb_neq in Hend. rewrite Hend, andb_false_r.
    apply notAllowedHere_count_spec in Hin. by rewrite Hin.
  - intros Hnot Hout Hend.
    assert (Hnone : parseOneLineAction NDEBUG command l = Returns None).
    { rewrite parseOneLineAction_other by done.
      apply String.eqb_neq in Hend. rewrite Hend, andb_false_r.
      destruct (Nat.eqb_spec (notAllowedHere_count command) 1) as [E|_]; [|done].
      by apply notAllowedHere_count_spec in E. }
    split; [exact Hnone|]. intros src script.
    unfold parseScript_consumeLine, parseAction.
    assert (H : ∀ k, In k notAllowedHere → String.eqb command k = false).
    { intros k Hk. apply String.eqb_neq. intros ->.
      by apply Hnot, list_elem_of_In. }
    rewrite !H by (simpl; tauto). by rewrite Hnone.
  - by destruct NDEBUG.
  - destruct NDEBUG; vm_compute; reflexivity.
  - apply (bool_decide_unpack _). vm_compute. exact I.
  - apply (bool_decide_unpack _). vm_compute. exact I.
  - destruct NDEBUG; vm_compute; reflexivity.
Qed.

Lemma keywords_outside_the_table_witness :
  parseOneLineAction false "CWTEXT" (istringstream " Hi")
  = Throws (invalid_argument "The command CWTEXT is not allowed in this context") ∧
  parseOneLineAction false "SETKEYS" (istringstream " 1 2") = Returns None.
Proof.
  split.
  - refine (proj1 (proj1 (keywords_outside_the_table false "CWTEXT"
                            (istringstream " Hi")) _)).
    apply (bool_decide_unpack _). vm_compute. exact I.
  - refine (proj1 (proj1 (proj2 (keywords_outside_the_table false "SETKEYS"
                                   (istringstream " 1 2"))) _ _ _)).
    + apply (bool_decide_unpack _). vm_compute. exact I.
    + apply (bool_decide_unpack _). vm_compute. exact I.
    + discriminate.
Defined.

(** The input that shows it: [END] is a keyword outside the set and
    outside the table, the line [//END x] brings it to
    [parseOneLineAction], and with assertions compiled in the load is
    aborted there. *)
Lemma end_is_not_a_no_op :
  ("END" ∉ notAllowedHere) ∧ ("END" ∉ dispatchTable) ∧
  parseOneLineAction false "END" (istringstream " x") = AssertionFailed ∧
  parseOneLineAction false "END" (istringstream " x") ≠ Returns None ∧
  loadScripts false (text ["s"; "//END x"; "//END"]) = AssertionFailed.
Proof.
  split; [|split; [|split; [|split]]].
  - apply (bool_decide_unpack _). vm_compute. exact I.
  - apply (bool_decide_unpack _). vm_compute. exact I.
  - reflexivity.
  - discriminate.
  - vm_compute. reflexivity.
Qed.

(** ** C1: two scripts of one name *)

(** C1 as the code has it.  When a source defines two scripts under one
    name -- both bodies parsed, each to its own script -- [loadScripts]
    returns a bundle, and its entry for that name is the script of the
    first definition: [emplace] leaves an entry that is there alone. *)
Theorem loadScripts_first_definition_wins
    NDEBUG src before name first between later after :
  definedScripts NDEBUG src
  = Returns (before ++ (name, first) :: between ++ (name, later) :: after) →
  name ∉ before.*1 →
  ∃ bundle : ScriptBundle,
    loadScripts NDEBUG src = Returns bundle ∧ bundle !! name = Some first.
Proof.
  intros Hdef Hfirst. rewrite loadScripts_definedScripts, Hdef.
  eexists. split; [reflexivity|].
  rewrite emplace_all_app. cbn [emplace_all foldl fst snd].
  apply emplace_all_keeps. rewrite emplace_lookup_same.
  rewrite emplace_all_other by done. by rewrite lookup_empty.
Qed.

Lemma loadScripts_first_definition_wins_witness :
  ∃ bundle : ScriptBundle,
    loadScripts false
      (text ["a"; "//FADEIN"; "//END"; "a"; "//FADEOUT"; "//END"])
    = Returns bundle ∧
    bundle !! "a" = Some [FadeIn].
Proof.
  refine (loadScripts_first_definition_wins false
    (text ["a"; "//FADEIN"; "//END"; "a"; "//FADEOUT"; "//END"])
    [] "a" [FadeIn] [] [FadeOut] [] _ _).
  - vm_compute. reflexivity.
  - apply (bool_decide_unpack _). vm_compute. exact I.
Defined.

(** C1 as the specification has it fails: of two definitions of [a], the
    script of the later one is not what the bundle holds. *)
Lemma loadScripts_last_definition_loses :
  definedScripts false
    (text ["a"; "//FADEIN"; "//END"; "a"; "//FADEOUT"; "//END"])
  = Returns [("a", [FadeIn]); ("a", [FadeOut])] ∧
  ∃ bundle : ScriptBundle,
    loadScripts false
      (text ["a"; "//FADEIN"; "//END"; "a"; "//FADEOUT"; "//END"])
    = Returns bundle ∧
    bundle !! "a" = Some [FadeIn] ∧
    bundle !! "a" ≠ Some [FadeOut].
Proof.
  split; [vm_compute; reflexivity|].
  exists {[ "a" := [FadeIn] ]}. split; [vm_compute; reflexivity|].
  split; [reflexivity|discriminate].
Qed.

(** ** C6 and C2: the variants of [XYTEXT] *)

Section XYTextFacts.

Lemma uint8_range c : 0 ≤ uint8 c < 256.
Proof. unfold uint8. pose proof (N_ascii_bounded c). lia. Qed.

Lemma find_if_first p s k c :
  String.get k s = Some c → p c = true →
  (∀ i c', (i < k)%nat → String.get i s = Some c' → p c' = false) →
  Str.find_if p s = Some k ∧ front (Str.drop k s) = c.
Proof.
  revert k. induction s as [|a r IH]; intros k Hget Hp Hbefore.
  - by destruct k.
  - destruct k as [|k]; simpl in *.
    + injection Hget as ->. by rewrite Hp.
    + rewrite (Hbefore 0%nat a) by (done || lia).
      destruct (IH k Hget Hp) as [-> Hfront]; [|done].
      intros i c' Hi. apply (Hbefore (S i)). lia.
Qed.

Lemma find_if_none p s :
  (∀ i c, String.get i s = Some c → p c = false) → Str.find_if p s = None.
Proof.
  induction s as [|a r IH]; intros H; [done|]. simpl.
  rewrite (H 0%nat a) by done. rewrite IH; [done|].
  intros i c. apply (H (S i)).
Qed.

Lemma substring_length n m s :
  (n + m ≤ String.length s)%nat → String.length (substring n m s) = m.
Proof.
  revert n m. induction s as [|a r IH]; intros n m H; simpl in *.
  - by destruct n, m; simpl in *; try lia.
  - destruct n as [|n].
    + destruct m as [|m]; [done|]. simpl. f_equal. apply IH. simpl. lia.
    + apply IH. lia.
Qed.

Lemma span_all p ds : Str.all p ds = true → span p ds = (ds, EmptyString).
Proof.
  induction ds as [|c r IH]; [done|]. simpl.
  intros [Hc Hr]%andb_true_iff. by rewrite Hc, IH.
Qed.

Lemma isdigit_value c : isdigit c = true → 0 ≤ digit_value c ≤ 9.
Proof. unfold isdigit, digit_value. lia. Qed.

Lemma digits_value_bound ds acc :
  Str.all isdigit ds = true → 0 ≤ acc →
  acc * 10 ^ Z.of_nat (String.length ds) ≤ digits_value acc ds
  < (acc + 1) * 10 ^ Z.of_nat (String.length ds).
Proof.
  revert acc. induction ds as [|c r IH]; intros acc Hall Hacc.
  - simpl. lia.
  - simpl in Hall. apply andb_true_iff in Hall as [Hc Hr].
    apply isdigit_value in Hc.
    cbn [String.length digits_value]. rewrite Nat2Z.inj_succ, Z.pow_succ_r by lia.
    specialize (IH (10 * acc + digit_value c) Hr ltac:(lia)).
    assert (0 < 10 ^ Z.of_nat (String.length r)) by (apply Z.pow_pos_nonneg; lia).
    nia.
Qed.

(** [stoi] of up to nine decimal digits is their value. *)
Lemma stoi_decimal ds :
  Str.all isdigit ds = true → ds ≠ EmptyString → (String.length ds ≤ 9)%nat →
  stoi ds = Returns (digits_value 0 ds).
Proof.
  intros Hall Hne Hlen. destruct ds as [|c r]; [done|].
  pose proof (digits_value_bound _ 0 Hall ltac:(lia)) as Hb.
  assert (10 ^ Z.of_nat (String.length (String c r)) ≤ 10 ^ 9)
    by (apply Z.pow_le_mono_r; lia).
  pose proof Hall as Hall'. simpl in Hall'.
  apply andb_true_iff in Hall' as [Hc _].
  assert (Hs : isspace c = false) by (unfold isspace, isdigit in *; lia).
  unfold stoi, scan_integer. cbn [Str.trim_left_if]. rewrite Hs.
  destruct (Ascii.eqb_spec c "-") as [->|_]; [by vm_compute in Hc|].
  destruct (Ascii.eqb_spec c "+") as [->|_]; [by vm_compute in Hc|].
  rewrite span_all by done. cbn [Str.empty signed_value].
  unfold Int.in_range, Int.INT_MIN, Int.INT_MAX.
  destruct (_ && _) eqn:E; [done|]. lia.
Qed.

End XYTextFacts.

(** The payload of an [XYTEXT] command is what [getline] up to a
    carriage return gives, after the two coordinates and one more
    character. *)
Lemma parseOneLineAction_XYTEXT NDEBUG l :
  parseOneLineAction NDEBUG "XYTEXT" l =
  let rx := extract_int l 0 in
  let ry := extract_int rx.2 0 in
  parseXYText rx.1 ry.1 (getline (get ry.2).2 CR).1.
Proof.
  unfold parseOneLineAction. simpl.
  destruct (extract_int l 0) as [x l1]. simpl.
  destruct (extract_int l1 0) as [y l2]. simpl.
  destruct (get l2) as [c l3]. simpl. by destruct (getline l3 CR).
Qed.

(** C6.  A payload whose first byte of value [0xF0] or more stands at
    offset [k] decodes to [DrawBigText]: [x] moved by [k], [y], the low
    nibble of that byte as the colour index, and the text after it.
    Nothing is asked of the first byte of the payload, so [0xEF] there
    changes nothing.  The sum is the machine's; it is the sum of the
    integers unless that leaves [int]. *)
Theorem xytext_big_text x y parameters k marker :
  String.get k parameters = Some marker →
  240 ≤ uint8 marker →
  (∀ i c, (i < k)%nat → String.get i parameters = Some c → uint8 c < 240) →
  parseXYText x y parameters
  = Returns (Some (DrawBigText (Int.add x (Int.wrap (Z.of_nat k))) y
                     (uint8 marker - 240) (Str.drop (S k) parameters))) ∧
  0 ≤ uint8 marker - 240 ≤ 15 ∧
  (Int.INT_MIN ≤ x → x + Z.of_nat k ≤ Int.INT_MAX →
   Int.add x (Int.wrap (Z.of_nat k)) = x + Z.of_nat k) ∧
  (∀ NDEBUG,
     parseOneLineAction NDEBUG "XYTEXT"
       (istringstream (" 0 3   " +:+ String "247" "Hello"))
     = Returns (Some (DrawBigText 2 3 7 "Hello"))) ∧
  (∀ NDEBUG,
     parseOneLineAction NDEBUG "XYTEXT"
       (istringstream (" 5 1 " +:+ String "239" (String "247" "12307")))
     = Returns (Some (DrawBigText 6 1 7 "12307"))).
Proof.
  intros Hget Hmarker Hbefore.
  destruct (find_if_first (fun ch => 240 <=? uint8 ch) parameters k marker)
    as [Hfind Hfront]; [done|lia|intros i c Hi Hc; specialize (Hbefore i c Hi Hc); lia|].
  split; [|split; [|split; [|split]]].
  - unfold parseXYText. destruct parameters as [|a r]; [by destruct k|].
    cbn [Str.empty]. by rewrite Hfind, Hfront.
  - pose proof (uint8_range marker). lia.
  - intros Hx Hsum. unfold Int.add, Int.wrap, Int.INT_MIN, Int.INT_MAX in *.
    replace (x + ((Z.of_nat k + 2147483648) mod 4294967296 - 2147483648)
             + 2147483648)
      with (x + (Z.of_nat k + 2147483648) mod 4294967296) by lia.
    rewrite Z.add_mod_idemp_r by lia. rewrite Z.mod_small by lia. lia.
  - intros NDEBUG. vm_compute. reflexivity.
  - intros NDEBUG. vm_compute. reflexivity.
Qed.

Lemma xytext_big_text_witness :
  parseXYText 0 3 ("  " +:+ String "247" "Hello")
  = Returns (Some (DrawBigText 2 3 7 "Hello")).
Proof.
  refine (proj1 (xytext_big_text 0 3 ("  " +:+ String "247" "Hello") 2 "247" _ _ _)).
  - reflexivity.
  - vm_compute. discriminate.
  - intros [|[|i]] c Hi Hc; [injection Hc as <-; by vm_compute..|lia].
Defined.

(** C2 as the code has it.  Of a payload that starts with the byte [0xEF]
    and has no byte of value [0xF0] or more: one shorter than 5 bytes is
    corrupt; one of 6 bytes or more has its bytes 1 to 3 and 4 to 5 read
    within its bounds and handed to [stoi], and decodes to [DrawSprite]
    when [stoi] returns from both -- as it does from decimal digits, with
    their value -- and to the exception of [stoi] otherwise. *)
Theorem xytext_sprite x y parameters :
  uint8 (front parameters) = 239 →
  (∀ i c, String.get i parameters = Some c → uint8 c < 240) →
  ((String.length parameters < 5)%nat →
   parseXYText x y parameters = Throws corrupt) ∧
  ((6 ≤ String.length parameters)%nat →
   iterator_range parameters 1 4 = Returns (substring 1 3 parameters) ∧
   iterator_range parameters 4 6 = Returns (substring 4 2 parameters) ∧
   parseXYText x y parameters
   = (actorId ← stoi (substring 1 3 parameters);
      frame ← stoi (substring 4 2 parameters);
      Returns (Some (DrawSprite (Int.add x 2) (Int.add y 1) actorId frame))) ∧
   (Str.all isdigit (substring 1 3 parameters) = true →
    Str.all isdigit (substring 4 2 parameters) = true →
    parseXYText x y parameters
    = Returns (Some (DrawSprite (Int.add x 2) (Int.add y 1)
                       (digits_value 0 (substring 1 3 parameters))
                       (digits_value 0 (substring 4 2 parameters)))))) ∧
  (∀ NDEBUG,
     parseOneLineAction NDEBUG "XYTEXT"
       (istringstream (" 5 1 " +:+ String "239" "12307"))
     = Returns (Some (DrawSprite 7 2 123 7))).
Proof.
  intros Hfront Hsmall.
  assert (Hfind : Str.find_if (fun ch => 240 <=? uint8 ch) parameters = None).
  { apply find_if_none. intros i c Hc. specialize (Hsmall i c Hc). lia. }
  assert (Hne : Str.empty parameters = false).
  { destruct parameters; [by vm_compute in Hfront|done]. }
  assert (Hhead : parseXYText x y parameters =
    if (String.length parameters <? 5)%nat then Throws corrupt
    else
      actorNumberString ← iterator_range parameters 1 4;
      frameNumberString ← iterator_range parameters 4 6;
      actorId ← stoi actorNumberString;
      frame ← stoi frameNumberString;
      Returns (Some (DrawSprite (Int.add x 2) (Int.add y 1) actorId frame))).
  { unfold parseXYText. rewrite Hne, Hfind, Hfront. reflexivity. }
  split; [|split].
  - intros Hlen. rewrite Hhead.
    by destruct (Nat.ltb_spec (String.length parameters) 5); [|lia].
  - intros Hlen.
    assert (R1 : iterator_range parameters 1 4 = Returns (substring 1 3 parameters)).
    { unfold iterator_range.
      by destruct (Nat.leb_spec 4 (String.length parameters)); [|lia]. }
    assert (R2 : iterator_range parameters 4 6 = Returns (substring 4 2 parameters)).
    { unfold iterator_range.
      by destruct (Nat.leb_spec 6 (String.length parameters)); [|lia]. }
    assert (Hbody : parseXYText x y parameters
      = (actorId ← stoi (substring 1 3 parameters);
         frame ← stoi (substring 4 2 parameters);
         Returns (Some (DrawSprite (Int.add x 2) (Int.add y 1) actorId frame)))).
    { rewrite Hhead, R1, R2.
      by destruct (Nat.ltb_spec (String.length parameters) 5); [lia|]. }
    repeat split; [done|done|done|].
    intros Ha Hf. rewrite Hbody.
    assert (La : String.length (substring 1 3 parameters) = 3%nat)
      by (apply substring_length; lia).
    assert (Lf : String.length (substring 4 2 parameters) = 2%nat)
      by (apply substring_length; lia).
    rewrite (stoi_decimal (substring 1 3 parameters));
      [|done|intros E; by rewrite E in La|lia].
    cbn [mbind outcome_bind].
    rewrite (stoi_decimal (substring 4 2 parameters));
      [done|done|intros E; by rewrite E in Lf|lia].
  - intros NDEBUG. vm_compute. reflexivity.
Qed.

Lemma xytext_sprite_witness :
  parseXYText 5 1 (String "239" "12307") = Returns (Some (DrawSprite 7 2 123 7)) ∧
  parseXYText 5 1 (String "239" "123") = Throws corrupt.
Proof.
  split.
  - refine (proj2 (proj2 (proj2 (proj1 (proj2
      (xytext_sprite 5 1 (String "239" "12307") _ _)) _))) _ _).
    + reflexivity.
    + intros [|[|[|[|[|[|i]]]]]] c Hc; try (injection Hc as <-; by vm_compute).
      discriminate.
    + vm_compute. lia.
    + reflexivity.
    + reflexivity.
  - refine (proj1 (xytext_sprite 5 1 (String "239" "123") _ _) _).
    + reflexivity.
    + intros [|[|[|[|i]]]] c Hc; try (injection Hc as <-; by vm_compute).
      discriminate.
    + vm_compute. lia.
Defined.

(** C2 as the specification has it fails twice.  A payload of exactly 5
    bytes is not shorter than 5 bytes, and the range of the frame number
    ends one past its end.  A payload of 6 bytes whose actor id is no
    number is not shorter than 5 bytes either, and decoding it fails. *)
Lemma xytext_sprite_fails :
  String.length (String "239" "1230") = 5%nat ∧
  iterator_range (String "239" "1230") 4 6 = Undefined ∧
  parseXYText 5 1 (String "239" "1230") = Undefined ∧
  (∀ NDEBUG,
     parseOneLineAction NDEBUG "XYTEXT"
       (istringstream (" 5 1 " +:+ String "239" "1230")) = Undefined) ∧
  String.length (String "239" "abc07") = 6%nat ∧
  parseXYText 5 1 (String "239" "abc07") = Throws (invalid_argument "stoi") ∧
  (∀ NDEBUG,
     parseOneLineAction NDEBUG "XYTEXT"
       (istringstream (" 5 1 " +:+ String "239" "abc07"))
     = Throws (invalid_argument "stoi")).
Proof.
  repeat split; try (intros NDEBUG); vm_compute; reflexivity.
Qed.

(** * Further properties of the loader *)

(** ** The loops come to an end *)

(** X1.  Every loop of the loader ends on every input: none of
    [loadScripts], [parseScript], [parsePagesDefinition] and
    [parseMessageBoxTextDefinition] uses up the fuel of its loops, which is
    the length of the unread input; and a script or a block that is
    returned has cost at least one character and left the stream
    unfailed. *)
Theorem loader_terminates NDEBUG :
  (∀ src, loadScripts NDEBUG src ≠ OutOfFuel) ∧
  (∀ s, parseScript NDEBUG s ≠ OutOfFuel) ∧
  (∀ s, parsePagesDefinition NDEBUG s ≠ OutOfFuel) ∧
  (∀ s, parseMessageBoxTextDefinition s ≠ OutOfFuel) ∧
  (∀ s s' script, parseScript NDEBUG s = Returns (s', script) →
     (unread s' < unread s)%nat ∧ failbit s' = false) ∧
  (∀ s s' action, parsePagesDefinition NDEBUG s = Returns (s', action) →
     (unread s' < unread s)%nat) ∧
  (∀ s s' messageLines,
     parseMessageBoxTextDefinition s = Returns (s', messageLines) →
     (unread s' ≤ unread s)%nat).
Proof.
  split; [apply loadScripts_terminates|].
  split; [apply parseScript_terminates|].
  split; [apply parsePagesDefinition_terminates|].
  split; [apply parseMessageBoxTextDefinition_terminates|].
  split; [apply parseScript_unread|].
  split; [apply parsePagesDefinition_unread|].
  intros s. apply parseMessageBoxTextDefinition_terminates.
Qed.

Lemma loader_terminates_witness :
  (unread (istringstream (text ["b"])) <
   unread (istringstream (text ["//FADEIN"; "//END"; "b"])))%nat ∧
  failbit (istringstream (text ["b"])) = false.
Proof.
  refine (proj1 (proj2 (proj2 (proj2 (proj2 (loader_terminates false)))))
    (istringstream (text ["//FADEIN"; "//END"; "b"]))
    (istringstream (text ["b"])) [FadeIn] _).
  vm_compute. reflexivity.
Defined.

(** ** Sources without a script *)

Lemma trim_left_if_all p s :
  Str.all p s = true → Str.trim_left_if p s = EmptyString.
Proof.
  induction s as [|c r IH]; [done|]. simpl.
  intros [Hc Hr]%andb_true_iff. rewrite Hc. by apply IH.
Qed.

(** X2.  A source of white space only, the empty source among them,
    loads to the empty bundle. *)
Theorem loadScripts_blank NDEBUG src :
  Str.all isspace src = true → loadScripts NDEBUG src = Returns ∅.
Proof.
  intros Hall. unfold loadScripts.
  replace (String.length src + 2)%nat with (S (S (String.length src))) by lia.
  rewrite loadScripts_loop_unfold. cbn [eof istringstream eofbit].
  rewrite skipWhiteSpace_good by done. cbn [rest istringstream].
  rewrite trim_left_if_all by done. cbv zeta.
  replace (extract_string (mkStream EmptyString true false))
    with (EmptyString, mkStream EmptyString true true) by reflexivity.
  cbn [fst snd]. replace (Str.empty (Str.trim EmptyString)) with true by done.
  by rewrite loadScripts_loop_unfold.
Qed.

Lemma loadScripts_blank_witness :
  loadScripts false (String " " (String LF (String CR EmptyString))) = Returns ∅.
Proof.
  refine (loadScripts_blank false (String " " (String LF (String CR EmptyString))) _).
  reflexivity.
Defined.

(** ** The names of the bundle *)

Lemma all_trim_left_if q p s :
  Str.all q s = true → Str.all q (Str.trim_left_if p s) = true.
Proof.
  induction s as [|c r IH]; [done|]. simpl.
  intros H. destruct (p c); [|done].
  apply andb_true_iff in H as [_ Hr]. by apply IH.
Qed.

Lemma all_trim_right_if q p s :
  Str.all q s = true → Str.all q (Str.trim_right_if p s) = true.
Proof.
  induction s as [|c r IH]; [done|]. simpl.
  intros [Hc Hr]%andb_true_iff. destruct (_ && _); [done|].
  simpl. by rewrite Hc, IH.
Qed.

Lemma all_trim q s : Str.all q s = true → Str.all q (Str.trim s) = true.
Proof. intros H. by apply all_trim_left_if, all_trim_right_if. Qed.

Lemma span_all_token p s tok r :
  span p s = (tok, r) → Str.all p tok = true.
Proof.
  revert tok r. induction s as [|c s IH]; intros tok r; simpl.
  - by intros [= <- <-].
  - destruct (p c) eqn:Hc; [|by intros [= <- <-]].
    destruct (span p s) as [l r'] eqn:E. intros [= <- <-]. simpl.
    rewrite Hc. by eapply IH.
Qed.

(** What [operator>>] extracts has no white space in it. *)
Lemma extract_string_no_space s :
  Str.all (fun c => negb (isspace c)) (extract_string s).1 = true.
Proof.
  unfold extract_string. destruct (good (sentry s)); [|done].
  destruct (span _ _) as [tok r] eqn:E. simpl. by eapply span_all_token.
Qed.

Lemma definedScripts_loop_names NDEBUG fuel s definitions :
  definedScripts_loop NDEBUG fuel s = Returns definitions →
  Forall (fun d => is_token d.1) definitions.
Proof.
  revert s definitions. induction fuel as [|fuel IH]; intros s ds; [done|].
  rewrite definedScripts_loop_unfold. destruct (eof s); [by intros [= <-]|].
  cbv zeta. destruct (Str.empty _) eqn:E; [apply IH|].
  destruct (parseScript _ _) as [[s3 script]| | | |]; try done.
  cbn [mbind outcome_bind].
  destruct (definedScripts_loop NDEBUG fuel s3) as [later| | | |] eqn:L; try done.
  cbn [mbind outcome_bind]. intros [= <-]. constructor; [|by eapply IH].
  split; simpl.
  - intros Hname. by rewrite Hname in E.
  - apply all_trim, extract_string_no_space.
Qed.

(** [emplace] one after the other, on the empty bundle, is [list_to_map],
    in which the first of two entries of one key stays. *)
Lemma emplace_all_union definitions (bundle : ScriptBundle) :
  emplace_all definitions bundle = bundle ∪ list_to_map definitions.
Proof.
  revert bundle. induction definitions as [|[n sc] ds IH]; intros bundle.
  - simpl. by rewrite (right_id_L ∅ (∪)).
  - cbn [emplace_all foldl fst snd list_to_map foldr] in *.
    change (foldl _ ?b ds) with (emplace_all ds b). rewrite IH.
    apply map_eq. intros k. rewrite !lookup_union.
    destruct (decide (n = k)) as [->|Hne].
    + rewrite emplace_lookup_same, lookup_insert_eq.
      by destruct (bundle !! k), (list_to_map ds !! k).
    + by rewrite emplace_lookup_other, lookup_insert_ne.
Qed.

Lemma loadScripts_list_to_map NDEBUG src :
  loadScripts NDEBUG src =
  definitions ← definedScripts NDEBUG src;
  Returns (list_to_map definitions : ScriptBundle).
Proof.
  rewrite loadScripts_definedScripts.
  destruct (definedScripts NDEBUG src) as [ds| | | |]; try done.
  cbn [mbind outcome_bind]. by rewrite emplace_all_union, (left_id_L ∅ (∪)).
Qed.

(** X3.  The bundle [loadScripts] returns is the defined scripts as a map,
    [list_to_map] of them: a name has an entry exactly when the source
    defines a script of that name, and every name with an entry is a token,
    not empty and without white space. *)
Theorem loadScripts_bundle NDEBUG src (bundle : ScriptBundle) :
  loadScripts NDEBUG src = Returns bundle →
  ∃ definitions,
    definedScripts NDEBUG src = Returns definitions ∧
    bundle = list_to_map definitions ∧
    (∀ name, is_Some (bundle !! name) ↔ name ∈ definitions.*1) ∧
    (∀ name, name ∉ definitions.*1 → bundle !! name = None) ∧
    (∀ name, is_Some (bundle !! name) → is_token name).
Proof.
  rewrite loadScripts_list_to_map.
  destruct (definedScripts NDEBUG src) as [ds| | | |] eqn:E; try done.
  cbn [mbind outcome_bind]. intros [= <-]. exists ds.
  assert (Hdom : ∀ name,
    is_Some ((list_to_map ds : ScriptBundle) !! name) ↔ name ∈ ds.*1).
  { intros name. rewrite <- not_eq_None_Some, <- not_elem_of_list_to_map.
    split; [|tauto]. intros H. by destruct (decide (name ∈ ds.*1)). }
  split; [done|]. split; [done|]. split; [exact Hdom|]. split.
  - intros name. apply not_elem_of_list_to_map.
  - intros name Hsome%Hdom.
    apply list_elem_of_fmap in Hsome as ([n sc] & -> & Hin).
    apply definedScripts_loop_names in E.
    by apply (proj1 (Forall_forall _ _) E) in Hin.
Qed.

Lemma loadScripts_bundle_witness :
  ∃ definitions,
    definedScripts false (text ["a"; "//FADEIN"; "//END"]) = Returns definitions ∧
    ({[ "a" := [FadeIn] ]} : ScriptBundle) = list_to_map definitions ∧
    (∀ name, is_Some (({[ "a" := [FadeIn] ]} : ScriptBundle) !! name)
             ↔ name ∈ definitions.*1) ∧
    (∀ name, name ∉ definitions.*1 →
             ({[ "a" := [FadeIn] ]} : ScriptBundle) !! name = None) ∧
    (∀ name, is_Some (({[ "a" := [FadeIn] ]} : ScriptBundle) !! name) →
             is_token name).
Proof.
  refine (loadScripts_bundle false (text ["a"; "//FADEIN"; "//END"])
            {[ "a" := [FadeIn] ]} _).
  vm_compute. reflexivity.
Defined.

(** ** What the actions of a loaded script satisfy *)

Section Validity.

Lemma span_lengths p s tok r :
  span p s = (tok, r) →
  (String.length tok + String.length r = String.length s)%nat.
Proof.
  revert tok r. induction s as [|c s IH]; intros tok r; simpl.
  - by intros [= <- <-].
  - destruct (p c); [|by intros [= <- <-]].
    destruct (span p s) as [l r'] eqn:E. intros [= <- <-]. simpl.
    specialize (IH _ _ eq_refl). lia.
Qed.

(** The digits [stoi] and [operator>>] take from a string are no more
    than the string is long. *)
Lemma scan_integer_digits s neg ds r :
  scan_integer s = (neg, ds, r) →
  Str.all isdigit ds = true ∧
  (String.length ds + (if neg then 1 else 0) ≤ String.length s)%nat.
Proof.
  unfold scan_integer.
  set (p := match s with
            | String c r0 =>
                if Ascii.eqb c "-" then (true, r0)
                else if Ascii.eqb c "+" then (false, r0) else (false, s)
            | EmptyString => (false, s)
            end).
  assert (Hp : (String.length p.2 + (if p.1 then 1 else 0) ≤ String.length s)%nat).
  { subst p. destruct s as [|c r0]; [done|].
    destruct (Ascii.eqb c "-"); [simpl; lia|].
    destruct (Ascii.eqb c "+"); simpl; lia. }
  destruct p as [n s1]. simpl in Hp.
  destruct (span isdigit s1) as [ds' r'] eqn:E. intros [= <- <- <-].
  split; [by eapply span_all_token|].
  apply span_lengths in E. lia.
Qed.

Lemma substring_length_le n m s : (String.length (substring n m s) ≤ m)%nat.
Proof.
  revert n m. induction s as [|a r IH]; intros n m; simpl.
  - destruct n, m; simpl; lia.
  - destruct n as [|n]; [|apply IH].
    destruct m as [|m]; simpl; [lia|]. specialize (IH 0%nat m). lia.
Qed.

(** What [stoi] returns has no more digits than the string has
    characters, the sign counted in. *)
Lemma stoi_bound str z n :
  stoi str = Returns z → (String.length str ≤ S n)%nat →
  - 10 ^ Z.of_nat n < z < 10 ^ Z.of_nat (S n).
Proof.
  unfold stoi. intros H Hn.
  destruct (scan_integer _) as [[neg ds] r] eqn:E.
  apply scan_integer_digits in E as [Hall Hlen].
  pose proof (StreamFacts.trim_left_if_length isspace str) as Htrim.
  destruct (Str.empty ds); [done|].
  destruct (Int.in_range _); [|done]. injection H as <-.
  pose proof (digits_value_bound ds 0 Hall ltac:(lia)) as Hb.
  assert (0 < 10 ^ Z.of_nat n) by (apply Z.pow_pos_nonneg; lia).
  unfold signed_value. destruct neg.
  - assert (10 ^ Z.of_nat (String.length ds) ≤ 10 ^ Z.of_nat n)
      by (apply Z.pow_le_mono_r; lia).
    assert (0 < 10 ^ Z.of_nat (S n)) by (apply Z.pow_pos_nonneg; lia). lia.
  - assert (10 ^ Z.of_nat (String.length ds) ≤ 10 ^ Z.of_nat (S n))
      by (apply Z.pow_le_mono_r; lia).
    lia.
Qed.


Lemma find_if_Some p s k :
  Str.find_if p s = Some k → p (front (Str.drop k s)) = true.
Proof.
  revert k. induction s as [|a r IH]; intros k; [done|]. simpl.
  destruct (p a) eqn:Hp; [by intros [= <-]|].
  destruct (Str.find_if p r) as [k'|] eqn:E; [|done].
  intros [= <-]. by apply IH.
Qed.

Lemma parseXYText_valid x y parameters a :
  parseXYText x y parameters = Returns (Some a) → one_line_valid a.
Proof.
  unfold parseXYText. destruct (Str.empty parameters) eqn:Hne; [done|].
  destruct (Str.find_if _ parameters) as [k|] eqn:F.
  - intros [= <-]. simpl. apply find_if_Some in F. apply Z.leb_le in F.
    pose proof (uint8_range (front (Str.drop k parameters))). lia.
  - destruct (uint8 (front parameters) =? 239) eqn:E.
    + destruct (_ <? _)%nat; [done|]. unfold iterator_range.
      destruct (4 <=? _)%nat; [|done]. cbn [mbind outcome_bind].
      destruct (6 <=? _)%nat; [|done]. cbn [mbind outcome_bind].
      destruct (stoi (substring 1 _ _)) as [actorId| | | |] eqn:A; try done.
      cbn [mbind outcome_bind].
      destruct (stoi (substring 4 _ _)) as [frame| | | |] eqn:Fr; try done.
      cbn [mbind outcome_bind]. intros [= <-]. simpl.
      apply (stoi_bound _ _ 2) in A; [|apply substring_length_le].
      apply (stoi_bound _ _ 1) in Fr; [|apply substring_length_le].
      assert (P3 : 10 ^ Z.of_nat 3 = 1000) by reflexivity.
      assert (P2 : 10 ^ Z.of_nat 2 = 100) by reflexivity.
      assert (P1 : 10 ^ Z.of_nat 1 = 10) by reflexivity.
      rewrite P3, P2 in A. rewrite P2, P1 in Fr. lia.
    + intros [= <-]. simpl. repeat split; [|lia|done].
      by destruct parameters.
Qed.

Lemma extract_token s :
  Str.empty (Str.trim (extract_string s).1) = false →
  is_token (Str.trim (extract_string s).1).
Proof.
  intros H. split.
  - intros E. by rewrite E in H.
  - apply all_trim, extract_string_no_space.
Qed.

End Validity.

Lemma parseOneLineAction_keeps NDEBUG command l a :
  parseOneLineAction NDEBUG command l = Returns (Some a) → one_line_valid a.
Proof.
  unfold parseOneLineAction.
  repeat (match goal with
          | |- context [String.eqb command ?k] => destruct (String.eqb command k)
          end);
    try (by intros [= <-]).
  - destruct (extract_int l 0) as [amount l1].
    destruct (amount <=? 0) eqn:E; [done|]. intros [= <-]. simpl. lia.
  - destruct (extract_int l 0) as [duration l1].
    destruct (duration <=? 0) eqn:E; [done|]. intros [= <-]. simpl. lia.
  - destruct (extract_int l 0) as [slot l1].
    destruct (_ || _) eqn:E; [done|]. intros [= <-]. simpl. lia.
  - pose proof (extract_token l) as Htok.
    destruct (extract_string l) as [imageName l1]. simpl in Htok.
    destruct (Str.empty _); [done|]. intros [= <-]. by apply Htok.
  - destruct (extract_int l 0) as [yPos l1]. by intros [= <-].
  - destruct (extract_int l 0) as [x l1]. destruct (extract_int l1 0) as [y l2].
    destruct (get l2) as [c l3]. destruct (getline l3 CR) as [parameters l4].
    apply parseXYText_valid.
  - pose proof (extract_token l) as Htok.
    destruct (extract_string l) as [paletteFile l1]. simpl in Htok.
    destruct (Str.empty _); [done|]. intros [= <-]. by apply Htok.
  - destruct (extract_int l 0) as [xPos l1].
    destruct (extract_int l1 0) as [count l2]. by intros [= <-].
  - destruct (_ && _); [done|]. by destruct (_ =? _)%nat.
  - destruct (_ && _); [done|]. by destruct (_ =? _)%nat.
Qed.


(** X4.  An action [parseOneLineAction] returns keeps the ranges the
    function checks or builds: a positive [Delay] and [AnimateNewsReporter],
    a save slot from 0 to 7, file names that are tokens, a colour index from
    0 to 15, an actor id of at most 3 and a frame of at most 2 characters,
    a plain text without markup bytes; and it is never an action of a
    block or of [MENU]. *)
Theorem parseOneLineAction_valid NDEBUG command l a :
  parseOneLineAction NDEBUG command l = Returns (Some a) →
  one_line_valid a ∧ valid a.
Proof.
  intros H%parseOneLineAction_keeps. split; [done|by destruct a].
Qed.

Lemma parseOneLineAction_valid_witness :
  one_line_valid (ShowSaveSlots 7) ∧ valid (ShowSaveSlots 7).
Proof.
  refine (parseOneLineAction_valid false "GETNAMES" (istringstream " 7")
            (ShowSaveSlots 7) _).
  reflexivity.
Defined.

(** ** The lines of a message box *)

Section MessageLines.

(** every character of [a] is one of [b] *)
Abbreviation within a b := (∀ c, occurs c a = true → occurs c b = true).

Lemma within_trim_left_if p s : within (Str.trim_left_if p s) s.
Proof.
  induction s as [|a r IH]; intros c; [done|]. simpl.
  destruct (p a); [|done]. intros H%IH. rewrite H. apply orb_true_r.
Qed.

Lemma within_trim_right_if p s : within (Str.trim_right_if p s) s.
Proof.
  induction s as [|a r IH]; intros c; [done|]. simpl.
  destruct (_ && _); [done|]. simpl.
  intros [H|H%IH]%orb_true_iff; rewrite H; [done|apply orb_true_r].
Qed.

Lemma within_trim s : within (Str.trim s) s.
Proof.
  unfold Str.trim. intros c H. apply within_trim_left_if in H.
  by apply within_trim_right_if in H.
Qed.

Lemma within_span_rest p s : within (span p s).2 s.
Proof.
  induction s as [|a r IH]; intros c; [done|]. simpl.
  destruct (p a); [|done]. specialize (IH c).
  destruct (span p r) as [tok r']. simpl in *.
  intros H%IH. rewrite H. apply orb_true_r.
Qed.

Lemma within_split_at delim s : within (split_at delim s).1.1 s.
Proof.
  induction s as [|a r IH]; intros c; [done|]. simpl.
  destruct (Ascii.eqb a delim); [done|]. specialize (IH c).
  destruct (split_at delim r) as [[l r'] e]. simpl in *.
  intros [H|H%IH]%orb_true_iff; rewrite H; [done|apply orb_true_r].
Qed.

Lemma split_at_no_delim delim s : occurs delim (split_at delim s).1.1 = false.
Proof.
  induction s as [|a r IH]; [done|]. simpl.
  destruct (Ascii.eqb a delim) eqn:E; [done|].
  destruct (split_at delim r) as [[l r'] e]. simpl in *. by rewrite E, IH.
Qed.

(** A line [getline] gives is of the unread characters and has no
    delimiter in it. *)
Lemma getline_within s delim : within (getline s delim).1 (rest s).
Proof.
  unfold getline. destruct (good s); [|done].
  destruct (rest s) as [|a r] eqn:R; [done|].
  pose proof (within_split_at delim (String a r)) as H.
  by destruct (split_at delim (String a r)) as [[l r'] e].
Qed.

Lemma getline_no_delim s delim : occurs delim (getline s delim).1 = false.
Proof.
  unfold getline. destruct (good s); [|done].
  destruct (rest s) as [|a r] eqn:R; [done|].
  pose proof (split_at_no_delim delim (String a r)) as H.
  by destruct (split_at delim (String a r)) as [[l r'] e].
Qed.

Lemma within_get s : within (rest (get s).2) (rest s).
Proof.
  unfold get. destruct (good s); [|done].
  destruct (rest s) as [|a r]; [done|]. simpl. intros c ->. apply orb_true_r.
Qed.

Lemma within_extract_string s : within (rest (extract_string s).2) (rest s).
Proof.
  unfold extract_string, sentry. destruct (good s) eqn:G.
  - pose proof (within_trim_left_if isspace (rest s)) as Ht.
    destruct (Str.trim_left_if isspace (rest s)) as [|a r] eqn:T; [done|].
    cbn [good eofbit failbit negb andb rest].
    pose proof (within_span_rest (fun c => negb (isspace c)) (String a r)) as Hs.
    destruct (span _ (String a r)) as [tok r']. simpl in *.
    intros c H. by apply Ht, Hs.
  - unfold setfail, good. simpl. by rewrite andb_false_r.
Qed.

Lemma trim_right_if_idem p s :
  Str.trim_right_if p (Str.trim_right_if p s) = Str.trim_right_if p s.
Proof.
  induction s as [|a r IH]; [done|]. simpl.
  destruct (p a && Str.empty (Str.trim_right_if p r)) eqn:E; [done|].
  simpl. by rewrite IH, E.
Qed.

(** The text of a [CWTEXT] line, read from a line that [getline] gave. *)
Lemma cwtext_ok line :
  occurs LF line = false →
  message_line_ok (Str.trim_right (cwtext (stripCommandPrefix (Str.trim line)))).
Proof.
  intros Hlf. unfold message_line_ok, Str.trim_right.
  split; [apply trim_right_if_idem|]. unfold cwtext.
  set (l1 := (get (extract_string (istringstream _)).2).2).
  split.
  - destruct (occurs CR _) eqn:E; [|done].
    apply within_trim_right_if in E.
    pose proof (getline_no_delim l1 CR). congruence.
  - destruct (occurs LF (Str.trim_right_if _ _)) eqn:E; [|done].
    apply within_trim_right_if, getline_within in E.
    subst l1. apply within_get, within_extract_string in E. simpl in E.
    apply within_trim_left_if, within_trim in E. congruence.
Qed.

Lemma mbloop_lines_ok fuel s startOfLine messageLines s' lines' :
  parseMessageBoxTextDefinition_loop fuel s startOfLine messageLines
  = Returns (s', lines') →
  Forall message_line_ok messageLines → Forall message_line_ok lines'.
Proof.
  revert s startOfLine messageLines.
  induction fuel as [|fuel IH]; intros s pos ls; [done|].
  rewrite mbloop_unfold.
  pose proof (getline_no_delim s LF) as Hlf.
  destruct (getline s LF) as [line s1]. simpl in Hlf.
  destruct (ok s1); [|by intros [= <- <-]].
  destruct (isCommand _); [|apply IH]. cbv zeta.
  destruct (String.eqb _ "CWTEXT").
  - destruct (Str.empty _); [done|]. intros H Hok. eapply IH; [exact H|].
    apply Forall_app. split; [done|]. constructor; [|done]. by apply cwtext_ok.
  - destruct (String.eqb _ "SKLINE"); [|by intros [= <- <-]].
    intros H Hok. eapply IH; [exact H|].
    apply Forall_app. split; [done|]. by repeat constructor.
Qed.

Lemma parseMessageBoxTextDefinition_lines_ok s s' messageLines :
  parseMessageBoxTextDefinition s = Returns (s', messageLines) →
  Forall message_line_ok messageLines.
Proof.
  unfold parseMessageBoxTextDefinition. destruct (tellg s) as [pos s0].
  intros H. eapply mbloop_lines_ok; [exact H|constructor].
Qed.

End MessageLines.

(** X5.  No line of a message box that
    [parseMessageBoxTextDefinition] returns ends in white space, and none
    has a carriage return or a line feed in it. *)
Theorem message_lines_ok s s' messageLines :
  parseMessageBoxTextDefinition s = Returns (s', messageLines) →
  Forall message_line_ok messageLines.
Proof. apply parseMessageBoxTextDefinition_lines_ok. Qed.

Lemma message_lines_ok_witness :
  Forall message_line_ok ["Hi"; EmptyString].
Proof.
  refine (message_lines_ok
    (istringstream (text ["//CWTEXT Hi  " +:+ String CR "ignored"; "//SKLINE"; "//END"]))
    (istringstream (text ["//END"])) ["Hi"; EmptyString] _).
  vm_compute. reflexivity.
Defined.

(** ** The scripts of a bundle *)

Section BundleValidity.

Variable NDEBUG : bool.

Lemma one_line_valid_valid a : one_line_valid a → valid a.
Proof. by destruct a. Qed.

Lemma parsePagesDefinition_consumeLine_ok command l s pages s' pages' :
  parsePagesDefinition_consumeLine NDEBUG command l s pages = Returns (s', pages') →
  pages_ok pages → pages_ok pages'.
Proof.
  unfold parsePagesDefinition_consumeLine, pages_ok. intros H [Hne Hall].
  destruct (String.eqb command "APAGE").
  - injection H as <- <-. split; [by destruct pages|].
    apply Forall_app. split; [done|]. by repeat constructor.
  - destruct (parseOneLineAction _ _ _) as [[a|]| | | |] eqn:A; try done.
    + apply parseOneLineAction_keeps in A.
      destruct (exists_last Hne) as (ps & p & ->).
      cbn [mbind outcome_bind] in H. rewrite emplace_back_on_back_last in H.
      injection H as <- <-. split; [by destruct ps|].
      apply Forall_app in Hall as [Hps Hp]. apply Forall_app. split; [done|].
      constructor; [|done]. apply Forall_app. split; [|by repeat constructor].
      by inversion Hp.
    + by injection H as <- <-.
Qed.

Lemma parsePagesDefinition_valid s s' action :
  parsePagesDefinition NDEBUG s = Returns (s', action) → valid action.
Proof.
  unfold parsePagesDefinition, parseScriptLines.
  destruct (parseScriptLines_loop _ _ _ _ _) as [[s1 pages]| | | |] eqn:E;
    try done.
  intros [= <- <-].
  apply (loop_invariant "PAGESEND" _ pages_ok) in E.
  - exact E.
  - intros command l s0 c s0' c' Hc. by eapply parsePagesDefinition_consumeLine_ok.
  - split; [done|]. by repeat constructor.
Qed.

Lemma parseAction_valid command s l s' a :
  parseAction NDEBUG command s l = Returns (s', Some a) → valid a.
Proof.
  unfold parseAction. destruct (String.eqb _ _).
  - repeat case_match.
    destruct (parseMessageBoxTextDefinition _) as [[s1 ls]| | | |] eqn:E;
      try done.
    intros [= <- <-]. simpl. by eapply parseMessageBoxTextDefinition_lines_ok.
  - destruct (parseOneLineAction _ _ _) as [[a'|]| | | |] eqn:E; try done.
    intros [= <- <-]. by eapply one_line_valid_valid, parseOneLineAction_keeps.
Qed.

Lemma parseScript_consumeLine_valid command l s script s' script' :
  parseScript_consumeLine NDEBUG command l s script = Returns (s', script') →
  Forall valid script → Forall valid script'.
Proof.
  unfold parseScript_consumeLine. intros H Hall.
  destruct (String.eqb _ "PAGESSTART").
  - destruct (parsePagesDefinition _ _) as [[s1 pd]| | | |] eqn:E; try done.
    injection H as <- <-. apply Forall_app. split; [done|].
    constructor; [|done]. by eapply parsePagesDefinition_valid.
  - destruct (String.eqb _ "MENU").
    + destruct (extract_int l 0). injection H as <- <-.
      apply Forall_app. split; [done|]. by repeat constructor.
    + destruct (parseAction _ _ _ _) as [[s1 [a|]]| | | |] eqn:E; try done.
      * injection H as <- <-. apply Forall_app. split; [done|].
        constructor; [|done]. by eapply parseAction_valid.
      * by injection H as <- <-.
Qed.

Lemma parseScript_valid s s' script :
  parseScript NDEBUG s = Returns (s', script) → Forall valid script.
Proof.
  unfold parseScript, parseScriptLines. intros H.
  apply (loop_invariant "END" _ (Forall valid)) in H; [done| |done].
  intros command l s0 c s0' c' Hc. by eapply parseScript_consumeLine_valid.
Qed.

Lemma definedScripts_loop_valid fuel s definitions :
  definedScripts_loop NDEBUG fuel s = Returns definitions →
  Forall (fun d => Forall valid d.2) definitions.
Proof.
  revert s definitions. induction fuel as [|fuel IH]; intros s ds; [done|].
  rewrite definedScripts_loop_unfold. destruct (eof s); [by intros [= <-]|].
  cbv zeta. destruct (Str.empty _); [apply IH|].
  destruct (parseScript _ _) as [[s3 script]| | | |] eqn:P; try done.
  cbn [mbind outcome_bind].
  destruct (definedScripts_loop NDEBUG fuel s3) as [later| | | |] eqn:L; try done.
  cbn [mbind outcome_bind]. intros [= <-].
  constructor; [by eapply parseScript_valid|by eapply IH].
Qed.

End BundleValidity.

(** X6.  Every action of every script of a bundle [loadScripts] returns
    keeps the ranges of its kind: what [parseOneLineAction] checks for the
    actions of one line; lines without trailing white space and line ends
    in a message box; at least one page in a [PagesDefinition], and on its
    pages actions of one line only, no block within a block. *)
Theorem loadScripts_valid NDEBUG src (bundle : ScriptBundle) name script :
  loadScripts NDEBUG src = Returns bundle →
  bundle !! name = Some script →
  Forall valid script.
Proof.
  rewrite loadScripts_list_to_map.
  destruct (definedScripts NDEBUG src) as [ds| | | |] eqn:Hds; try done.
  cbn [mbind outcome_bind]. intros [= <-] Hname.
  apply elem_of_list_to_map_2 in Hname.
  apply definedScripts_loop_valid in Hds.
  by apply (proj1 (Forall_forall _ _) Hds) in Hname.
Qed.

Lemma loadScripts_valid_witness :
  Forall valid [PagesDefinition [[Delay 1]; [Delay 2]]].
Proof.
  refine (loadScripts_valid false
    (text ["s"; "//PAGESSTART"; "//DELAY 1"; "//APAGE"; "//DELAY 2";
           "//PAGESEND"; "//END"])
    {[ "s" := [PagesDefinition [[Delay 1]; [Delay 2]]] ]} "s"
    [PagesDefinition [[Delay 1]; [Delay 2]]] _ _).
  - vm_compute. reflexivity.
  - reflexivity.
Defined.

(** ** The ways the loader fails *)

Section Failures.

Variable NDEBUG : bool.














End Failures.


(** ** Where the loader leaves defined behaviour *)

(** [Undefined] in the embedding is a read outside a buffer.  The
    overflow of a signed addition, undefined as well, is not: [Int.add]
    wraps, and [sums_fit] says where it does not come to that. *)
Lemma parseXYText_undefined x y parameters :
  parseXYText x y parameters = Undefined ↔ overruns parameters.
Proof.
  unfold parseXYText, overruns, iterator_range. split.
  - destruct (Str.empty _); [done|].
    destruct (Str.find_if _ _); [done|].
    destruct (Z.eqb_spec (uint8 (front parameters)) 239) as [E|_]; [|done].
    destruct (Nat.ltb_spec (String.length parameters) 5); [done|].
    destruct (Nat.leb_spec 4 (String.length parameters)); [|lia].
    cbn [mbind outcome_bind].
    destruct (Nat.leb_spec 6 (String.length parameters)).
    + cbn [mbind outcome_bind]. unfold stoi. by repeat case_match.
    + intros _. repeat split; [lia|done].
  - intros (Hlen & Hfront & ->).
    destruct parameters as [|c r]; [done|]. cbn [Str.empty].
    rewrite Hfront, Hlen. reflexivity.
Qed.

Lemma parseOneLineAction_undefined NDEBUG command l :
  parseOneLineAction NDEBUG command l = Undefined ↔
  command = "XYTEXT" ∧ overruns (payload l).
Proof.
  split.
  - unfold parseOneLineAction.
    repeat (match goal with
            | |- context [String.eqb command ?k] =>
                destruct (String.eqb_spec command k)
            end);
      try done; try (by repeat case_match).
    unfold payload. destruct (extract_int l 0) as [x l1]. simpl.
    destruct (extract_int l1 0) as [y l2]. simpl.
    destruct (get l2) as [c l3]. simpl. destruct (getline l3 CR) as [p l4].
    simpl. intros H%parseXYText_undefined. done.
  - intros [-> H]. rewrite parseOneLineAction_XYTEXT. cbv zeta.
    by apply parseXYText_undefined.
Qed.

Lemma reaches_invariant {Captured} endMarker
    (consumeLine : string → istream → istream → Captured → outcome (istream * Captured))
    (P : Captured → Prop) s c s' c' :
  (∀ command l s c s' c',
     consumeLine command l s c = Returns (s', c') → P c → P c') →
  Reaches endMarker consumeLine s c s' c' → P c → P c'.
Proof.
  intros Hstep. induction 1 as [|s c line s1 s' c' G O C _ IH
                                |s c line s1 s2 c2 s' c' G O C E D _ IH]; auto.
  intros Hc. apply IH. unfold dispatch in D.
  destruct (extract_string _) as [command l]. by eapply Hstep.
Qed.

Lemma wrap_in_range z : Int.in_range z = true → Int.wrap z = z.
Proof.
  unfold Int.in_range, Int.wrap, Int.INT_MIN, Int.INT_MAX.
  intros [Hlo Hhi]%andb_true_iff.
  apply Z.leb_le in Hlo. apply Z.leb_le in Hhi.
  rewrite Z.mod_small by lia. lia.
Qed.

Lemma parseXYText_exact x y parameters a :
  sums_fit x y parameters →
  parseXYText x y parameters = Returns (Some a) →
  exact_position x y parameters a.
Proof.
  unfold sums_fit, parseXYText, Int.add.
  destruct (Str.empty parameters); [done|].
  destruct (Str.find_if _ parameters) as [k|] eqn:Hk.
  - intros Hfit [= <-]. exists k. by rewrite Hk, (wrap_in_range _ Hfit).
  - intros Hfit.
    destruct (Z.eqb_spec (uint8 (front parameters)) 239) as [E|_];
      [|by intros [= <-]].
    destruct (Nat.ltb_spec (String.length parameters) 5) as [|Hlen]; [done|].
    destruct (Hfit E Hlen) as [Hx Hy].
    destruct (iterator_range parameters 1 4) as [actor|?| | |]; try done.
    cbn [mbind outcome_bind].
    destruct (iterator_range parameters 4 6) as [frame|?| | |]; try done.
    cbn [mbind outcome_bind].
    destruct (stoi actor) as [actorId|?| | |]; try done. cbn [mbind outcome_bind].
    destruct (stoi frame) as [frameId|?| | |]; try done. cbn [mbind outcome_bind].
    intros [= <-]. simpl.
    by rewrite (wrap_in_range _ Hx), (wrap_in_range _ Hy).
Qed.

(** X8.  Where the loader leaves defined behaviour.  No command other
    than [XYTEXT] makes [parseOneLineAction] do so.  [XYTEXT] does for a
    payload that starts with [0xEF], has no byte of [0xF0] or more and is 5
    bytes long: the length check is passed and the frame number is read up
    to the sixth byte.  For every other payload, when the sums the branch
    computes in [int] -- [x + numPrecedingCharacters], [x + 2], [y + 1] --
    stay within [int], it does not, and the position of the action is that
    sum.  Nothing is said of an [XYTEXT] whose sum is outside [int]: the
    overflow is undefined in C++.  [parseMessageBoxTextDefinition] never
    leaves defined behaviour, and [pages.back()] in [parsePagesDefinition]
    is never called on an empty vector: wherever the line loop has got to,
    the callback adds no undefined behaviour to that of
    [parseOneLineAction]. *)
Theorem undefined_only_in_sprite NDEBUG :
  (∀ command l,
     command ≠ "XYTEXT" → parseOneLineAction NDEBUG command l ≠ Undefined) ∧
  (∀ l, overruns (payload l) →
     parseOneLineAction NDEBUG "XYTEXT" l = Undefined) ∧
  (∀ l, ¬ overruns (payload l) →
     sums_fit (xytext_x l) (xytext_y l) (payload l) →
     parseOneLineAction NDEBUG "XYTEXT" l ≠ Undefined ∧
     ∀ a, parseOneLineAction NDEBUG "XYTEXT" l = Returns (Some a) →
          exact_position (xytext_x l) (xytext_y l) (payload l) a) ∧
  (∀ s, parseMessageBoxTextDefinition s ≠ Undefined) ∧
  (∀ s s' pages command l src,
     Reaches "PAGESEND" (parsePagesDefinition_consumeLine NDEBUG) s [[]] s' pages →
     pages ≠ [] ∧
     (parsePagesDefinition_consumeLine NDEBUG command l src pages = Undefined →
      parseOneLineAction NDEBUG command l = Undefined)).
Proof.
  split; [|split; [|split; [|split]]].
  - intros command l Hc H. apply parseOneLineAction_undefined in H as [-> _].
    done.
  - intros l H. by apply parseOneLineAction_undefined.
  - intros l Hover Hfit. split.
    + intros H. apply parseOneLineAction_undefined in H as [_ H]. done.
    + intros a. rewrite parseOneLineAction_XYTEXT. cbv zeta.
      by apply parseXYText_exact.
  - intros s. unfold parseMessageBoxTextDefinition. destruct (tellg s) as [pos s0].
    generalize (S (String.length (rest s0))) (@nil string). intros fuel.
    revert s0 pos. induction fuel as [|fuel IH]; intros s0 pos ls; [done|].
    rewrite mbloop_unfold. destruct (getline s0 LF) as [line s1].
    destruct (ok s1); [|done]. destruct (isCommand _); [|apply IH]. cbv zeta.
    destruct (String.eqb _ "CWTEXT"); [by destruct (Str.empty _)|].
    by destruct (String.eqb _ "SKLINE").
  - intros s s' pages command l src Hrun.
    assert (Hok : pages_ok pages).
    { eapply (reaches_invariant _ _ pages_ok); [|exact Hrun|].
      - intros c0 l0 s0 p0 s0' p0' Hc. by eapply parsePagesDefinition_consumeLine_ok.
      - split; [done|]. by repeat constructor. }
    destruct Hok as [Hne _]. split; [done|].
    unfold parsePagesDefinition_consumeLine.
    destruct (String.eqb _ _); [done|].
    destruct (parseOneLineAction _ _ _) as [[a|]| | | |]; try done.
    cbn [mbind outcome_bind].
    destruct (exists_last Hne) as (ps & p & ->).
    by rewrite emplace_back_on_back_last.
Qed.

Lemma undefined_only_in_sprite_witness :
  (parseOneLineAction false "XYTEXT"
     (istringstream (" 5 1 " +:+ String "239" "12307")) ≠ Undefined ∧
   ∀ a, parseOneLineAction false "XYTEXT"
          (istringstream (" 5 1 " +:+ String "239" "12307")) = Returns (Some a) →
        exact_position 5 1 (String "239" "12307") a) ∧
  ([[Delay 1]] ≠ [] ∧
   (parsePagesDefinition_consumeLine false "XYTEXT"
      (istringstream (" 5 1 " +:+ String "239" "1230"))
      (istringstream (text ["//PAGESEND"])) [[Delay 1]] = Undefined →
    parseOneLineAction false "XYTEXT"
      (istringstream (" 5 1 " +:+ String "239" "1230")) = Undefined)).
Proof.
  split.
  - refine (proj1 (proj2 (proj2 (undefined_only_in_sprite false)))
      (istringstream (" 5 1 " +:+ String "239" "12307")) _ _).
    + intros [H _]. vm_compute in H. discriminate.
    + vm_compute. intros _ _. split; reflexivity.
  - refine (proj2 (proj2 (proj2 (proj2 (undefined_only_in_sprite false))))
      (istringstream (text ["//DELAY 1"; "//PAGESEND"]))
      (istringstream (text ["//PAGESEND"])) [[Delay 1]] "XYTEXT"
      (istringstream (" 5 1 " +:+ String "239" "1230"))
      (istringstream (text ["//PAGESEND"])) _).
    eapply reaches_command;
      [vm_compute; reflexivity|reflexivity|reflexivity|discriminate
      |vm_compute; reflexivity|apply reaches_here].
Defined.

(** ** Numbers in a command line *)

Section Numerals.

Lemma trim_left_if_app p ws s :
  Str.all p ws = true → Str.trim_left_if p (ws +:+ s) = Str.trim_left_if p s.
Proof.
  induction ws as [|c r IH]; [done|]. simpl.
  intros [Hc Hr]%andb_true_iff. rewrite Hc. by apply IH.
Qed.

Lemma append_length a b :
  String.length (a +:+ b) = (String.length a + String.length b)%nat.
Proof.
  induction a as [|x a IH]; [done|].
  change (String x a +:+ b) with (String x (a +:+ b)).
  cbn [String.length]. by rewrite IH.
Qed.

Lemma span_app p ds r :
  Str.all p ds = true → p (front r) = false → span p (ds +:+ r) = (ds, r).
Proof.
  intros Hall Hr. induction ds as [|c ds IH]; simpl.
  - destruct r as [|a r]; [done|]. simpl in *. by rewrite Hr.
  - simpl in Hall. apply andb_true_iff in Hall as [Hc Hds].
    by rewrite Hc, IH.
Qed.

Lemma isdigit_char c :
  isdigit c = true →
  isspace c = false ∧ Ascii.eqb c "-" = false ∧ Ascii.eqb c "+" = false.
Proof.
  intros H. repeat split.
  - unfold isspace, isdigit in *. lia.
  - destruct (Ascii.eqb_spec c "-") as [->|]; [by vm_compute in H|done].
  - destruct (Ascii.eqb_spec c "+") as [->|]; [by vm_compute in H|done].
Qed.

Lemma sentry_skips ws c x :
  Str.all isspace ws = true → isspace c = false →
  sentry (mkStream (ws +:+ String c x) false false)
  = mkStream (String c x) false false.
Proof.
  intros Hws Hc. unfold sentry. cbn [good eofbit failbit negb andb rest].
  rewrite trim_left_if_app by done. cbn [Str.trim_left_if]. by rewrite Hc.
Qed.

Lemma scan_integer_numeral neg ds r :
  is_digits ds → ends_numeral r →
  scan_integer (numeral neg ds +:+ r) = (neg, ds, r).
Proof.
  intros [Hne Hds] Hr. unfold scan_integer. destruct neg; cbn [numeral].
  - change (String "-" ds +:+ r) with (String "-" (ds +:+ r)).
    cbv iota. rewrite Ascii.eqb_refl. by rewrite span_app.
  - destruct ds as [|d ds]; [done|].
    change (String d ds +:+ r) with (String d (ds +:+ r)). cbv iota.
    pose proof Hds as Hd. simpl in Hd. apply andb_true_iff in Hd as [Hd _].
    destruct (isdigit_char d Hd) as (_ & -> & ->).
    change (String d (ds +:+ r)) with (String d ds +:+ r). by rewrite span_app.
Qed.

(** [operator>>] for an [int], on a numeral after white space: the value
    of the numeral, brought into the range of [int] with [failbit] set when
    it is outside; the stream stands behind the numeral. *)
Lemma extract_int_numeral ws neg ds r v :
  Str.all isspace ws = true → is_digits ds → ends_numeral r →
  extract_int (mkStream (ws +:+ numeral neg ds +:+ r) false false) v
  = (Int.clamp (signed_value neg ds),
     mkStream r (Str.empty r) (negb (Int.in_range (signed_value neg ds)))).
Proof.
  intros Hws Hds Hr.
  assert (Hhead : ∃ c x, numeral neg ds +:+ r = String c x ∧ isspace c = false).
  { destruct Hds as [Hne Hall]. destruct neg; [by eexists _, _|].
    destruct ds as [|d ds]; [done|]. exists d, (ds +:+ r). split; [done|].
    simpl in Hall. apply andb_true_iff in Hall as [Hd _].
    by apply isdigit_char in Hd as (? & _). }
  destruct Hhead as (c & x & Hx & Hc).
  unfold extract_int. rewrite Hx, sentry_skips by done.
  cbn [good eofbit failbit negb andb rest]. rewrite <- Hx.
  rewrite scan_integer_numeral by done.
  destruct Hds as [Hne _]. by destruct ds.
Qed.

(** Without a numeral the variable keeps or gets the value 0. *)
Lemma extract_int_none s : no_integer s → (extract_int s 0).1 = 0.
Proof. apply extract_int_no_integer. Qed.

Lemma clamp_positive n : 0 < n → Int.clamp n = Z.min n Int.INT_MAX.
Proof. unfold Int.clamp, Int.INT_MIN, Int.INT_MAX. intros H. repeat case_match; lia. Qed.

End Numerals.

(** X9.  [DELAY] and [BABBLEON] with a numeral: a positive number gives
    the action with that number, and with [INT_MAX] when the number is
    larger than that, without an error; zero and negative numbers throw the
    error of the command, and so does a line without a number. *)
Theorem delay_numeral NDEBUG ws neg ds r :
  Str.all isspace ws = true → is_digits ds → ends_numeral r →
  let n := signed_value neg ds in
  let l := istringstream (ws +:+ numeral neg ds +:+ r) in
  parseOneLineAction NDEBUG "DELAY" l
  = (if 0 <? n then Returns (Some (Delay (Z.min n Int.INT_MAX)))
     else Throws (invalidCommand "DELAY")) ∧
  parseOneLineAction NDEBUG "BABBLEON" l
  = (if 0 <? n then Returns (Some (AnimateNewsReporter (Z.min n Int.INT_MAX)))
     else Throws (invalidCommand "BABBLEON")) ∧
  (∀ l', no_integer l' →
     parseOneLineAction NDEBUG "DELAY" l' = Throws (invalidCommand "DELAY") ∧
     parseOneLineAction NDEBUG "BABBLEON" l' = Throws (invalidCommand "BABBLEON")).
Proof.
  intros Hws Hds Hr n l.
  assert (Hx : extract_int l 0 = (Int.clamp n, mkStream r (Str.empty r)
                                    (negb (Int.in_range n))))
    by (by apply extract_int_numeral).
  assert (Hpos : (Int.clamp n <=? 0) = negb (0 <? n)).
  { unfold Int.clamp, Int.INT_MIN, Int.INT_MAX. repeat case_match; lia. }
  split; [|split].
  - unfold parseOneLineAction. simpl. rewrite Hx, Hpos.
    destruct (Z.ltb_spec 0 n); simpl; [|done]. by rewrite clamp_positive.
  - unfold parseOneLineAction. simpl. rewrite Hx, Hpos.
    destruct (Z.ltb_spec 0 n); simpl; [|done]. by rewrite clamp_positive.
  - intros l' Hno. apply extract_int_none in Hno.
    unfold parseOneLineAction. simpl.
    destruct (extract_int l' 0) as [amount l1]. simpl in Hno. by subst.
Qed.

Lemma delay_numeral_witness :
  parseOneLineAction false "DELAY" (istringstream " 99999999999")
  = Returns (Some (Delay 2147483647)).
Proof.
  refine (proj1 (delay_numeral false " " false "99999999999" EmptyString _ _ _)).
  - reflexivity.
  - split; [discriminate|reflexivity].
  - reflexivity.
Defined.

(** X10.  [GETNAMES] with a numeral gives [ShowSaveSlots] for the numbers
    0 to 7 and throws its error for every other number; without a number
    it does not throw: the slot is 0, the value the variable starts with.
    [Z] likewise takes 0 for a missing number. *)
Theorem getnames_numeral NDEBUG ws neg ds r :
  Str.all isspace ws = true → is_digits ds → ends_numeral r →
  let n := signed_value neg ds in
  let l := istringstream (ws +:+ numeral neg ds +:+ r) in
  parseOneLineAction NDEBUG "GETNAMES" l
  = (if (0 <=? n) && (n <? 8) then Returns (Some (ShowSaveSlots n))
     else Throws (invalidCommand "GETNAMES")) ∧
  (∀ l', no_integer l' →
     parseOneLineAction NDEBUG "GETNAMES" l' = Returns (Some (ShowSaveSlots 0)) ∧
     parseOneLineAction NDEBUG "Z" l'
     = Returns (Some (ShowMenuSelectionIndicator 0))).
Proof.
  intros Hws Hds Hr n l.
  assert (Hx : extract_int l 0 = (Int.clamp n, mkStream r (Str.empty r)
                                    (negb (Int.in_range n))))
    by (by apply extract_int_numeral).
  split.
  - unfold parseOneLineAction. simpl. rewrite Hx.
    unfold Int.clamp, Int.INT_MIN, Int.INT_MAX.
    destruct (Z.leb_spec 0 n), (Z.ltb_spec n 8); simpl;
      repeat case_match; try lia; done.
  - intros l' Hno. apply extract_int_none in Hno.
    unfold parseOneLineAction. simpl.
    destruct (extract_int l' 0) as [slot l1]. simpl in Hno. by subst.
Qed.

Lemma getnames_numeral_witness :
  parseOneLineAction false "GETNAMES" (istringstream " 8")
  = Throws (invalid_argument "Invalid GETNAMES command in Duke Script file").
Proof.
  refine (proj1 (getnames_numeral false " " false "8" EmptyString _ _ _)).
  - reflexivity.
  - split; [discriminate|reflexivity].
  - reflexivity.
Defined.

(** ** The check boxes of [TOGGS] *)

Section CheckBoxes.

Lemma no_integer_not_good s : good s = false → no_integer s.
Proof. intros H. left. unfold sentry. rewrite H. unfold good, setfail. simpl. apply andb_false_r. Qed.

(** An extraction that finds no number gives 0 and leaves the stream
    failed. *)
Lemma extract_int_fails s :
  no_integer s → (extract_int s 0).1 = 0 ∧ good (extract_int s 0).2 = false.
Proof.
  intros H. split; [by apply extract_int_no_integer|].
  unfold extract_int. destruct H as [H|H].
  - by rewrite H.
  - destruct (good (sentry s)) eqn:G; [|done].
    destruct (scan_integer _) as [[neg ds] r]. simpl in H. rewrite H.
    unfold good. simpl. apply andb_false_r.
Qed.

(** Once no number is found, all the definitions that are left are
    [{0, 0}]. *)
Lemma readCheckBoxes_zero count s definitions :
  no_integer s →
  readCheckBoxes count s definitions
  = definitions ++ replicate count (mkCheckBox 0 0).
Proof.
  revert s definitions. induction count as [|count IH]; intros s ds Hno.
  - simpl. by rewrite app_nil_r.
  - simpl. destruct (extract_int_fails s Hno) as [Hy Hs1].
    destruct (extract_int s 0) as [y s1]. simpl in Hy, Hs1. subst y.
    destruct (extract_int_fails s1 (no_integer_not_good _ Hs1)) as [Hi Hs2].
    destruct (extract_int s1 0) as [i s2]. simpl in Hi, Hs2. subst i.
    rewrite IH by (by apply no_integer_not_good).
    by rewrite <- app_assoc.
Qed.

Lemma extract_int_blank_numeral ds r :
  is_int_numeral ds → ends_numeral r →
  extract_int (mkStream (String " " (ds +:+ r)) false false) 0
  = (digits_value 0 ds, mkStream r (Str.empty r) false).
Proof.
  intros [Hds Hrange] Hr.
  pose proof (extract_int_numeral " " false ds r 0 eq_refl Hds Hr) as H.
  cbn [numeral signed_value] in H.
  change (" " +:+ ds +:+ r) with (String " " (ds +:+ r)) in H.
  rewrite H, Hrange. f_equal.
  unfold Int.in_range, Int.clamp in *. repeat case_match; lia.
Qed.

Lemma pairs_line_ends pairs : ends_numeral (pairs_line pairs).
Proof. by destruct pairs. Qed.

(** The definitions are the pairs of the line in their order, as many as
    the count says, and [{0, 0}] for what the line does not have. *)
Lemma readCheckBoxes_pairs pairs count definitions :
  Forall (fun p => is_int_numeral p.1 ∧ is_int_numeral p.2) pairs →
  readCheckBoxes count
    (mkStream (pairs_line pairs) (Str.empty (pairs_line pairs)) false) definitions
  = definitions ++ take count (checkBox_of <$> pairs)
    ++ replicate (count - length pairs) (mkCheckBox 0 0).
Proof.
  intros Hall. revert count definitions.
  induction Hall as [|[y i] ps [Hy Hi] _ IH]; intros count ds.
  - rewrite readCheckBoxes_zero by (by apply no_integer_not_good).
    simpl. by rewrite take_nil, Nat.sub_0_r.
  - destruct count as [|count]; [simpl; by rewrite app_nil_r|].
    cbn [pairs_line foldr fst snd Str.empty readCheckBoxes].
    change (foldr _ EmptyString ps) with (pairs_line ps).
    rewrite extract_int_blank_numeral; [|done|done].
    cbn [Str.empty]. rewrite extract_int_blank_numeral;
      [|done|apply pairs_line_ends].
    rewrite IH. simpl. by rewrite <- app_assoc.
Qed.

End CheckBoxes.

(** X11.  [TOGGS] builds its definitions by position: with the pairs of
    numerals of its line in their order, cut at the count, and with
    [{0, 0}] for every definition the count asks for beyond the pairs of
    the line; no error is raised for the pairs that are missing.  When no
    number follows the count at all, every definition is [{0, 0}]. *)
Theorem toggs_pairs NDEBUG x n pairs :
  is_int_numeral x → is_int_numeral n →
  Forall (fun p => is_int_numeral p.1 ∧ is_int_numeral p.2) pairs →
  let count := Z.to_nat (digits_value 0 n) in
  parseOneLineAction NDEBUG "TOGGS"
    (istringstream (String " " (x +:+ String " " (n +:+ pairs_line pairs))))
  = Returns (Some (SetupCheckBoxes (digits_value 0 x)
      (take count (checkBox_of <$> pairs)
       ++ replicate (count - length pairs) (mkCheckBox 0 0)))) ∧
  (∀ l, no_integer (extract_int (extract_int l 0).2 0).2 →
     parseOneLineAction NDEBUG "TOGGS" l
     = Returns (Some (SetupCheckBoxes (extract_int l 0).1
         (replicate (Z.to_nat (extract_int (extract_int l 0).2 0).1)
            (mkCheckBox 0 0))))).
Proof.
  intros Hx Hn Hpairs count. split.
  - unfold parseOneLineAction, istringstream. simpl String.eqb. cbv iota.
    rewrite extract_int_blank_numeral; [|done|done].
    cbn [Str.empty]. rewrite extract_int_blank_numeral;
      [|done|apply pairs_line_ends].
    by rewrite readCheckBoxes_pairs.
  - intros l Hno. unfold parseOneLineAction. simpl String.eqb. cbv iota.
    destruct (extract_int l 0) as [xPos l1]. simpl in *.
    destruct (extract_int l1 0) as [c l2]. simpl in *.
    by rewrite readCheckBoxes_zero.
Qed.

Lemma toggs_pairs_witness :
  parseOneLineAction false "TOGGS" (istringstream " 3 3 10 1 20 2")
  = Returns (Some (SetupCheckBoxes 3
      [mkCheckBox 10 1; mkCheckBox 20 2; mkCheckBox 0 0])).
Proof.
  refine (proj1 (toggs_pairs false "3" "3" [("10", "1"); ("20", "2")] _ _ _)).
  - repeat split; discriminate || reflexivity.
  - repeat split; discriminate || reflexivity.
  - repeat constructor; discriminate || reflexivity.
Defined.

(** ** Lines and white space the line loop ignores *)

Section RunFacts.

Import StreamFacts.

Context {Captured : Type}.
Variable endMarker : string.
Variable consumeLine :
  string → istream → istream → Captured → outcome (istream * Captured).

Hypothesis consumeLine_unread : ∀ command l s c s' c',
  consumeLine command l s c = Returns (s', c') → (unread s' ≤ unread s)%nat.
Hypothesis consumeLine_fuel : ∀ command l s c,
  consumeLine command l s c ≠ OutOfFuel.

Abbreviation run' := (run endMarker consumeLine).

(** Any fuel above the length of the unread input gives the same. *)
Lemma run_fuel fuel s c :
  (unread s < fuel)%nat →
  parseScriptLines_loop endMarker consumeLine fuel s c = run' s c.
Proof.
  intros Hlt. unfold run. apply loop_fuel_mono; [lia|].
  apply loop_terminates; [done|done|lia].
Qed.

Lemma run_step s c :
  run' s c =
  let '(line, s1) := getline s LF in
  if ok s1 then
    if isCommand (Str.trim line) then
      if String.eqb (stripCommandPrefix (Str.trim line)) endMarker
      then Returns (s1, c)
      else
        '(s2, c2) ← dispatch consumeLine (stripCommandPrefix (Str.trim line)) s1 c;
        run' s2 c2
    else run' s1 c
  else Throws (missingEndMarker endMarker).
Proof.
  unfold run at 1. rewrite loop_unfold.
  destruct (getline s LF) as [line s1] eqn:G.
  destruct (ok s1) eqn:O; [|done].
  destruct (getline_ok _ _ _ _ G O) as (_ & _ & Hs1).
  destruct (isCommand _); [|apply run_fuel; lia].
  destruct (String.eqb _ _); [done|].
  destruct (dispatch _ _ _ _) as [[s2 c2]| | | |] eqn:D; try done.
  cbn [mbind outcome_bind]. apply run_fuel.
  unfold dispatch in D. destruct (extract_string _) as [command l].
  apply consumeLine_unread in D. lia.
Qed.

Lemma run_exhausted s c :
  ok (getline s LF).2 = false → run' s c = Throws (missingEndMarker endMarker).
Proof. intros H. by apply loop_exhausted. Qed.

Lemma trim_space_cons a l : isspace a = true → Str.trim (String a l) = Str.trim l.
Proof.
  intros Ha. unfold Str.trim. cbn [Str.trim_right_if]. rewrite Ha.
  destruct (Str.empty (Str.trim_right_if isspace l)) eqn:E; simpl.
  - by destruct (Str.trim_right_if isspace l).
  - by rewrite Ha.
Qed.

(** White space in front of a line, a line feed too, changes nothing. *)
Lemma run_space a r c :
  isspace a = true →
  run' (mkStream (String a r) false false) c = run' (mkStream r false false) c.
Proof.
  intros Ha. rewrite run_step. unfold getline.
  cbn [good eofbit failbit negb andb rest split_at].
  destruct (Ascii.eqb_spec a LF) as [->|Hlf]; [done|].
  destruct r as [|b r].
  - cbn [split_at ok failbit negb]. rewrite trim_space_cons by done.
    cbn [Str.trim Str.trim_right_if Str.trim_left_if isCommand Str.starts_with].
    by rewrite !run_exhausted.
  - rewrite (run_step (mkStream (String b r) false false)). unfold getline.
    cbn [good eofbit failbit negb andb rest].
    destruct (split_at LF (String b r)) as [[l r'] e].
    cbn [ok failbit negb]. by rewrite trim_space_cons.
Qed.

Lemma run_spaces ws r c :
  Str.all isspace ws = true →
  run' (mkStream (ws +:+ r) false false) c = run' (mkStream r false false) c.
Proof.
  induction ws as [|a ws IH]; [done|]. cbn [Str.all].
  intros [Ha Hws]%andb_true_iff.
  change (String a ws +:+ r) with (String a (ws +:+ r)).
  rewrite run_space by done. by apply IH.
Qed.

(** [skipWhiteSpace] before the loop changes nothing either. *)
Lemma run_skipWhiteSpace r c :
  run' (skipWhiteSpace (mkStream r false false)) c = run' (mkStream r false false) c.
Proof.
  rewrite skipWhiteSpace_good by done. cbn [rest].
  induction r as [|a r IH]; cbn [Str.trim_left_if].
  - by rewrite !run_exhausted.
  - destruct (isspace a) eqn:Ha; [|done]. by rewrite IH, run_space.
Qed.

Lemma parseScriptLines_run r c :
  parseScriptLines endMarker consumeLine (mkStream r false false) c
  = run' (mkStream r false false) c.
Proof. unfold parseScriptLines. apply run_skipWhiteSpace. Qed.

Lemma split_at_line delim l r :
  occurs delim l = false → split_at delim (l +:+ String delim r) = (l, r, false).
Proof.
  induction l as [|a l IH]; simpl.
  - by rewrite Ascii.eqb_refl.
  - intros [Ha Hl]%orb_false_iff. rewrite Ha, IH by done. done.
Qed.

Lemma getline_line l r :
  occurs LF l = false →
  getline (mkStream (l +:+ String LF r) false false) LF
  = (l, mkStream r false false).
Proof.
  intros Hl. unfold getline. cbn [good eofbit failbit negb andb rest].
  rewrite split_at_line by done. by destruct l.
Qed.

(** A line that is no command changes nothing. *)
Lemma run_ignored l r c :
  occurs LF l = false → isCommand (Str.trim l) = false →
  run' (mkStream (l +:+ String LF r) false false) c
  = run' (mkStream r false false) c.
Proof.
  intros Hl Hc. rewrite run_step, getline_line by done.
  cbn [ok failbit negb]. by rewrite Hc.
Qed.

Lemma trim_slash l :
  Str.trim (String slash l) = String slash (Str.trim_right l).
Proof.
  unfold Str.trim, Str.trim_right. cbn [Str.trim_right_if].
  replace (isspace slash) with false by reflexivity. done.
Qed.

(** Two lines that are the same once trimmed and stripped give the
    same. *)
Lemma run_same_line s s' line line' s1 c :
  getline s LF = (line, s1) → getline s' LF = (line', s1) →
  isCommand (Str.trim line) = isCommand (Str.trim line') →
  stripCommandPrefix (Str.trim line) = stripCommandPrefix (Str.trim line') →
  run' s c = run' s' c.
Proof.
  intros G G' Hc Hs. rewrite (run_step s), (run_step s'), G, G'.
  by rewrite Hc, Hs.
Qed.

(** One more slash in front of a command line changes nothing. *)
Lemma run_slash l r c :
  occurs LF l = false →
  run' (mkStream (String slash (String slash (String slash l)) +:+ String LF r)
          false false) c
  = run' (mkStream (String slash (String slash l) +:+ String LF r) false false) c.
Proof.
  intros Hl.
  assert (Hno : ∀ x, occurs LF x = false → occurs LF (String slash x) = false)
    by (intros x Hx; cbn [occurs];
        replace (Ascii.eqb slash LF) with false by reflexivity; exact Hx).
  assert (Htr : ∀ x, Str.trim_right (String slash x)
                     = String slash (Str.trim_right x)) by done.
  eapply run_same_line.
  - apply getline_line. by apply Hno, Hno, Hno.
  - apply getline_line. by apply Hno, Hno.
  - rewrite !trim_slash, !Htr. unfold isCommand.
    cbn [Str.starts_with]. unfold slash. rewrite !Ascii.eqb_refl.
    by destruct (Str.trim_right l).
  - rewrite !trim_slash, !Htr. unfold stripCommandPrefix.
    cbn [Str.trim_left_if]. by rewrite !Ascii.eqb_refl.
Qed.

End RunFacts.

(** X12.  A line that does not start with two slashes, once trimmed, is
    ignored, and so is white space in front of a line, blank lines
    included: with such a line or such white space in front of the rest of
    the input, the line loop of [parseScript] gives what it gives on the
    rest alone -- at the start of a body, and wherever the loop stands at
    the start of a line. *)
Theorem ignored_lines NDEBUG l ws r :
  occurs LF l = false → isCommand (Str.trim l) = false →
  Str.all isspace ws = true →
  parseScript NDEBUG (mkStream (l +:+ String LF r) false false)
  = parseScript NDEBUG (mkStream r false false) ∧
  parseScript NDEBUG (mkStream (ws +:+ r) false false)
  = parseScript NDEBUG (mkStream r false false) ∧
  (∀ fuel script,
     (S (String.length (l +:+ String LF r)) ≤ fuel)%nat →
     parseScriptLines_loop "END" (parseScript_consumeLine NDEBUG) fuel
       (mkStream (l +:+ String LF r) false false) script
     = parseScriptLines_loop "END" (parseScript_consumeLine NDEBUG) fuel
         (mkStream r false false) script) ∧
  (∀ fuel script,
     (S (String.length (ws +:+ r)) ≤ fuel)%nat →
     parseScriptLines_loop "END" (parseScript_consumeLine NDEBUG) fuel
       (mkStream (ws +:+ r) false false) script
     = parseScriptLines_loop "END" (parseScript_consumeLine NDEBUG) fuel
         (mkStream r false false) script).
Proof.
  intros Hl Hc Hws.
  pose proof (parseScript_consumeLine_unread NDEBUG) as Hu.
  pose proof (parseScript_consumeLine_fuel NDEBUG) as Hf.
  assert (Hlen : (String.length r < String.length (l +:+ String LF r))%nat)
    by (rewrite append_length; simpl; lia).
  assert (Hlen' : (String.length r ≤ String.length (ws +:+ r))%nat)
    by (rewrite append_length; lia).
  split; [|split; [|split]].
  - unfold parseScript. rewrite !parseScriptLines_run by done.
    by apply run_ignored.
  - unfold parseScript. rewrite !parseScriptLines_run by done.
    by apply run_spaces.
  - intros fuel script Hfuel.
    rewrite !(run_fuel "END" _ Hu Hf) by (unfold unread; simpl; lia).
    by apply run_ignored.
  - intros fuel script Hfuel.
    rewrite !(run_fuel "END" _ Hu Hf) by (unfold unread; simpl; lia).
    by apply run_spaces.
Qed.

Lemma ignored_lines_witness :
  parseScript false
    (mkStream ("a remark" +:+ String LF (text ["//FADEIN"; "//END"])) false false)
  = parseScript false (mkStream (text ["//FADEIN"; "//END"]) false false).
Proof.
  refine (proj1 (ignored_lines false "a remark" EmptyString
                   (text ["//FADEIN"; "//END"]) _ _ _)); reflexivity.
Defined.

(** X13.  Slashes beyond two in front of a command change nothing: the
    line loop of [parseScript] gives the same for a line with three slashes
    as for the line with two, the end marker included. *)
Theorem extra_slash NDEBUG l r :
  occurs LF l = false →
  parseScript NDEBUG
    (mkStream (String slash (String slash (String slash l)) +:+ String LF r)
       false false)
  = parseScript NDEBUG
      (mkStream (String slash (String slash l) +:+ String LF r) false false) ∧
  (∀ fuel script,
     (String.length l + String.length r + 5 ≤ fuel)%nat →
     parseScriptLines_loop "END" (parseScript_consumeLine NDEBUG) fuel
       (mkStream (String slash (String slash (String slash l)) +:+ String LF r)
          false false) script
     = parseScriptLines_loop "END" (parseScript_consumeLine NDEBUG) fuel
         (mkStream (String slash (String slash l) +:+ String LF r) false false)
         script).
Proof.
  intros Hl.
  pose proof (parseScript_consumeLine_unread NDEBUG) as Hu.
  pose proof (parseScript_consumeLine_fuel NDEBUG) as Hf.
  assert (Hlen : ∀ x, String.length (x +:+ String LF r)
                      = (String.length x + String.length r + 1)%nat)
    by (intros x; rewrite append_length; simpl; lia).
  split.
  - unfold parseScript. rewrite !parseScriptLines_run by done.
    by apply run_slash.
  - intros fuel script Hfuel.
    rewrite !(run_fuel "END" _ Hu Hf)
      by (unfold unread; cbn [rest]; rewrite Hlen; simpl; lia).
    by apply run_slash.
Qed.

Lemma extra_slash_witness :
  parseScript false (mkStream (text ["///END"]) false false)
  = parseScript false (mkStream (text ["//END"]) false false).
Proof.
  refine (proj1 (extra_slash false "END" EmptyString _)). reflexivity.
Defined.

(** ** Plain text, and the numbers of a message box *)

Section PlainText.

Lemma append_nil_r s : s +:+ EmptyString = s.
Proof.
  induction s as [|a s IH]; [done|].
  change (String a s +:+ EmptyString) with (String a (s +:+ EmptyString)).
  by rewrite IH.
Qed.

Lemma find_if_small t :
  Str.all (fun ch => uint8 ch <? 240) t = true →
  Str.find_if (fun ch => 240 <=? uint8 ch) t = None.
Proof.
  induction t as [|a t IH]; [done|]. simpl.
  intros [Ha Ht]%andb_true_iff. rewrite Z.ltb_antisym in Ha.
  apply negb_true_iff in Ha. by rewrite Ha, IH.
Qed.

Lemma split_at_none delim t :
  occurs delim t = false → split_at delim t = (t, EmptyString, true).
Proof.
  induction t as [|a t IH]; [done|]. simpl.
  intros [Ha Ht]%orb_false_iff. by rewrite Ha, IH.
Qed.

Lemma getline_to_end t delim :
  occurs delim t = false → (getline (mkStream t false false) delim).1 = t.
Proof.
  intros Ht. unfold getline. cbn [good eofbit failbit negb andb rest].
  destruct t as [|a t]; [done|]. by rewrite split_at_none.
Qed.

Lemma getline_to_delim t delim junk :
  occurs delim t = false →
  (getline (mkStream (t +:+ String delim junk) false false) delim).1 = t.
Proof.
  intros Ht. unfold getline. cbn [good eofbit failbit negb andb rest].
  rewrite split_at_line by done. by destruct t.
Qed.

(** The payload of [XYTEXT x y], one character and a text: the text. *)
Lemma payload_text x y c t :
  is_int_numeral x → is_int_numeral y → isdigit c = false →
  payload (istringstream (String " " (x +:+ String " " (y +:+ String c t))))
  = (getline (mkStream t false false) CR).1.
Proof.
  intros Hx Hy Hc. unfold payload, istringstream.
  rewrite extract_int_blank_numeral; [|done|done]. cbn [snd Str.empty].
  rewrite extract_int_blank_numeral; [|done|done]. done.
Qed.

End PlainText.

(** X14.  The plain variant of [XYTEXT]: behind the two numbers one
    character is dropped, whatever it is, and the text behind it is drawn as
    it is, blanks at its start included, up to the first carriage return or
    to the end of the line -- when it is not empty, does not start with the
    byte [0xEF] and has no byte of [0xF0] or more.  Without a text the
    command is corrupt. *)
Theorem xytext_plain NDEBUG x y c t junk :
  is_int_numeral x → is_int_numeral y → isdigit c = false →
  t ≠ EmptyString → occurs CR t = false →
  uint8 (front t) ≠ 239 →
  Str.all (fun ch => uint8 ch <? 240) t = true →
  parseOneLineAction NDEBUG "XYTEXT"
    (istringstream (String " " (x +:+ String " " (y +:+ String c t))))
  = Returns (Some (DrawText (digits_value 0 x) (digits_value 0 y) t)) ∧
  parseOneLineAction NDEBUG "XYTEXT"
    (istringstream (String " " (x +:+ String " "
       (y +:+ String c (t +:+ String CR junk)))))
  = Returns (Some (DrawText (digits_value 0 x) (digits_value 0 y) t)) ∧
  parseOneLineAction NDEBUG "XYTEXT"
    (istringstream (String " " (x +:+ String " " (y +:+ String c EmptyString))))
  = Throws corrupt ∧
  parseOneLineAction NDEBUG "XYTEXT"
    (istringstream (String " " (x +:+ String " " y)))
  = Throws corrupt.
Proof.
  intros Hx Hy Hc Hne Hcr Hfront Hsmall.
  assert (Hplain : parseXYText (digits_value 0 x) (digits_value 0 y) t
                   = Returns (Some (DrawText (digits_value 0 x) (digits_value 0 y) t))).
  { unfold parseXYText. destruct t as [|a t']; [done|]. cbn [Str.empty].
    rewrite find_if_small by done.
    by destruct (Z.eqb_spec (uint8 (front (String a t'))) 239). }
  assert (Hxy : ∀ r, ends_numeral r →
    parseOneLineAction NDEBUG "XYTEXT"
      (istringstream (String " " (x +:+ String " " (y +:+ r))))
    = parseXYText (digits_value 0 x) (digits_value 0 y)
        (getline (get (mkStream r (Str.empty r) false)).2 CR).1).
  { intros r Hr. rewrite parseOneLineAction_XYTEXT. unfold istringstream.
    rewrite extract_int_blank_numeral; [|done|done]. cbn [fst snd Str.empty].
    rewrite extract_int_blank_numeral; [|done|done]. done. }
  split; [|split; [|split]].
  - rewrite Hxy by done. cbn [Str.empty get good eofbit failbit negb andb rest snd].
    by rewrite getline_to_end.
  - rewrite Hxy by done. cbn [Str.empty get good eofbit failbit negb andb rest snd].
    by rewrite getline_to_delim.
  - by rewrite Hxy.
  - rewrite <- (append_nil_r y). by rewrite Hxy.
Qed.

Lemma xytext_plain_witness :
  parseOneLineAction false "XYTEXT" (istringstream " 5 1   two blanks kept")
  = Returns (Some (DrawText 5 1 "  two blanks kept")).
Proof.
  refine (proj1 (xytext_plain false "5" "1" " " "  two blanks kept" EmptyString
                   _ _ _ _ _ _ _)).
  - repeat split; discriminate || reflexivity.
  - repeat split; discriminate || reflexivity.
  - reflexivity.
  - discriminate.
  - reflexivity.
  - by vm_compute.
  - reflexivity.
Defined.

(** X15.  [CENTERWINDOW] reads three numbers: the first is the [y] of the
    message box, the second its height and the third its width; the lines
    are those of [parseMessageBoxTextDefinition], called behind the white
    space that follows the line, and the command fails only where that
    call fails.  Numbers that are missing are 0. *)
Theorem centerwindow_numbers NDEBUG s y h w :
  is_int_numeral y → is_int_numeral h → is_int_numeral w →
  parseAction NDEBUG "CENTERWINDOW" s
    (istringstream (String " " (y +:+ String " " (h +:+ String " " w))))
  = ('(s', messageLines) ← parseMessageBoxTextDefinition (skipWhiteSpace s);
     Returns (s', Some (ShowMessageBox (digits_value 0 y) (digits_value 0 w)
                          (digits_value 0 h) messageLines))) ∧
  (∀ l, no_integer l →
     parseAction NDEBUG "CENTERWINDOW" s l
     = ('(s', messageLines) ← parseMessageBoxTextDefinition (skipWhiteSpace s);
        Returns (s', Some (ShowMessageBox 0 0 0 messageLines)))).
Proof.
  intros Hy Hh Hw. split.
  - unfold parseAction, istringstream. simpl String.eqb. cbv iota.
    rewrite extract_int_blank_numeral; [|done|done]. cbn [Str.empty].
    rewrite extract_int_blank_numeral; [|done|done]. cbn [Str.empty].
    rewrite <- (append_nil_r w).
    rewrite extract_int_blank_numeral; [|done|done]. by rewrite append_nil_r.
  - intros l Hno. unfold parseAction. simpl String.eqb. cbv iota.
    destruct (extract_int_fails l Hno) as [Hy0 Hl1].
    destruct (extract_int l 0) as [y0 l1]. simpl in Hy0, Hl1. subst y0.
    destruct (extract_int_fails l1 (no_integer_not_good _ Hl1)) as [Hh0 Hl2].
    destruct (extract_int l1 0) as [h0 l2]. simpl in Hh0, Hl2. subst h0.
    destruct (extract_int_fails l2 (no_integer_not_good _ Hl2)) as [Hw0 Hl3].
    destruct (extract_int l2 0) as [w0 l3]. simpl in Hw0. by subst w0.
Qed.

Lemma centerwindow_numbers_witness :
  parseAction false "CENTERWINDOW"
    (istringstream (text ["//CWTEXT Hi"; "//END"]))
    (istringstream " 5 3 10")
  = Returns (istringstream (text ["//END"]),
             Some (ShowMessageBox 5 10 3 ["Hi"])).
Proof.
  refine (eq_trans (proj1 (centerwindow_numbers false
    (istringstream (text ["//CWTEXT Hi"; "//END"])) "5" "3" "10" _ _ _)) _).
  - repeat split; discriminate || reflexivity.
  - repeat split; discriminate || reflexivity.
  - repeat split; discriminate || reflexivity.
  - vm_compute. reflexivity.
Defined.

(** ** Keywords in the wrong block *)

Section Contexts.

Variable NDEBUG : bool.

Lemma parseOneLineAction_notAllowed command l :
  command ∈ notAllowedHere →
  parseOneLineAction NDEBUG command l = Throws (notAllowed command).
Proof.
  intros Hin. destruct (notAllowedHere_not_compiled _ Hin) as [Hout Hend].
  rewrite parseOneLineAction_other by done.
  apply String.eqb_neq in Hend. rewrite Hend, andb_false_r.
  apply notAllowedHere_count_spec in Hin. by rewrite Hin.
Qed.

Lemma dispatch_keyword {Captured : Type}
    (consumeLine : string → istream → istream → Captured → outcome (istream * Captured))
    line s1 c :
  dispatch consumeLine line s1 c
  = consumeLine (keyword line) (extract_string (istringstream line)).2 s1 c.
Proof.
  unfold dispatch, keyword. by destruct (extract_string (istringstream line)).
Qed.

End Contexts.

(** X16.  A block of pages holds one-line commands only.  When the lines of
    a [PAGESSTART] block get to a command line whose keyword is
    [CENTERWINDOW], [MENU], [PAGESSTART], [CWTEXT], [SKLINE] or [PAGESEND]
    (with something behind it, so that the line is not the end marker),
    [parsePagesDefinition] throws the error that names the keyword: no
    message box, no menu and no second block of pages inside a block. *)
Theorem pages_hold_one_line_commands NDEBUG s s' pages line s1 :
  Reaches "PAGESEND" (parsePagesDefinition_consumeLine NDEBUG)
    (skipWhiteSpace s) [[]] s' pages →
  getline s' LF = (line, s1) → ok s1 = true →
  isCommand (Str.trim line) = true →
  stripCommandPrefix (Str.trim line) ≠ "PAGESEND" →
  keyword (stripCommandPrefix (Str.trim line)) ∈ notAllowedHere →
  keyword (stripCommandPrefix (Str.trim line)) ≠ "APAGE" →
  parsePagesDefinition NDEBUG s
  = Throws (notAllowed (keyword (stripCommandPrefix (Str.trim line)))).
Proof.
  intros R G O C E K A. unfold parsePagesDefinition.
  rewrite (parseScriptLines_throws "PAGESEND" _ _ _
             (notAllowed (keyword (stripCommandPrefix (Str.trim line)))));
    [done| | |].
  - apply parsePagesDefinition_consumeLine_unread.
  - apply parsePagesDefinition_consumeLine_fuel.
  - eapply reaches_throws; eauto.
    rewrite dispatch_keyword. unfold parsePagesDefinition_consumeLine.
    apply String.eqb_neq in A. rewrite A.
    by rewrite parseOneLineAction_notAllowed.
Qed.

Lemma pages_hold_one_line_commands_witness :
  parsePagesDefinition false
    (istringstream (text ["//DELAY 1"; "//CENTERWINDOW 1 2 3"; "//CWTEXT Hi"; "//PAGESEND"]))
  = Throws (invalid_argument "The command CENTERWINDOW is not allowed in this context").
Proof.
  refine (pages_hold_one_line_commands false
    (istringstream (text ["//DELAY 1"; "//CENTERWINDOW 1 2 3"; "//CWTEXT Hi"; "//PAGESEND"]))
    (istringstream (text ["//CENTERWINDOW 1 2 3"; "//CWTEXT Hi"; "//PAGESEND"]))
    [[Delay 1]] "//CENTERWINDOW 1 2 3"
    (istringstream (text ["//CWTEXT Hi"; "//PAGESEND"])) _ _ _ _ _ _ _).
  - eapply reaches_command;
      [vm_compute; reflexivity|reflexivity|reflexivity|discriminate
      |vm_compute; reflexivity|apply reaches_here].
  - vm_compute. reflexivity.
  - reflexivity.
  - reflexivity.
  - discriminate.
  - apply (bool_decide_unpack _). vm_compute. exact I.
  - discriminate.
Defined.

(** X17.  The lines of a block stay in their block.  When the lines of a
    script body get to a command line whose keyword is [APAGE], [CWTEXT],
    [SKLINE] or [PAGESEND] -- a line of a message box not behind its
    [CENTERWINDOW], or of a block of pages outside of it -- [parseScript]
    throws the error that names the keyword. *)
Theorem script_body_rejects_block_lines NDEBUG s s' script line s1 :
  Reaches "END" (parseScript_consumeLine NDEBUG) (skipWhiteSpace s) [] s' script →
  getline s' LF = (line, s1) → ok s1 = true →
  isCommand (Str.trim line) = true →
  stripCommandPrefix (Str.trim line) ≠ "END" →
  keyword (stripCommandPrefix (Str.trim line))
    ∈ ["APAGE"; "CWTEXT"; "SKLINE"; "PAGESEND"] →
  parseScript NDEBUG s
  = Throws (notAllowed (keyword (stripCommandPrefix (Str.trim line)))).
Proof.
  intros R G O C E K. unfold parseScript.
  apply parseScriptLines_throws;
    [apply parseScript_consumeLine_unread|apply parseScript_consumeLine_fuel|].
  eapply reaches_throws; eauto.
  rewrite dispatch_keyword.
  set (command := keyword _) in *.
  assert (Hin : command ∈ notAllowedHere).
  { unfold notAllowedHere.
    repeat (apply elem_of_cons in K as [->|K]); [..|by apply elem_of_nil in K];
      apply (bool_decide_unpack _); vm_compute; exact I. }
  assert (Hno : String.eqb command "PAGESSTART" = false ∧
                String.eqb command "MENU" = false ∧
                String.eqb command "CENTERWINDOW" = false).
  { repeat (apply elem_of_cons in K as [->|K]); [..|by apply elem_of_nil in K];
      done. }
  destruct Hno as (Hp & Hm & Hc).
  unfold parseScript_consumeLine, parseAction. rewrite Hp, Hm, Hc.
  by rewrite parseOneLineAction_notAllowed.
Qed.

Lemma script_body_rejects_block_lines_witness :
  parseScript false
    (istringstream (text ["//CENTERWINDOW 1 2 3"; "//CWTEXT Hi"; "//FADEIN";
                          "//CWTEXT late"; "//END"]))
  = Throws (invalid_argument "The command CWTEXT is not allowed in this context").
Proof.
  refine (script_body_rejects_block_lines false
    (istringstream (text ["//CENTERWINDOW 1 2 3"; "//CWTEXT Hi"; "//FADEIN";
                          "//CWTEXT late"; "//END"]))
    (istringstream (text ["//CWTEXT late"; "//END"]))
    [ShowMessageBox 1 3 2 ["Hi"]; FadeIn] "//CWTEXT late"
    (istringstream (text ["//END"])) _ _ _ _ _ _).
  - eapply reaches_command;
      [vm_compute; reflexivity|reflexivity|reflexivity|discriminate
      |vm_compute; reflexivity|].
    eapply reaches_command;
      [vm_compute; reflexivity|reflexivity|reflexivity|discriminate
      |vm_compute; reflexivity|apply reaches_here].
  - vm_compute. reflexivity.
  - reflexivity.
  - reflexivity.
  - discriminate.
  - apply (bool_decide_unpack _). vm_compute. exact I.
Defined.

(** ** The names of images and palettes *)

Section Names.

Lemma trim_token name :
  Str.all (fun c => negb (isspace c)) name = true → Str.trim name = name.
Proof.
  intros H. unfold Str.trim.
  assert (Hr : Str.trim_right_if isspace name = name).
  { induction name as [|c name IH]; [done|]. simpl in *.
    apply andb_true_iff in H as [Hc Hn]. apply negb_true_iff in Hc.
    by rewrite Hc, IH. }
  rewrite Hr. destruct name as [|c name]; [done|]. simpl in *.
  apply andb_true_iff in H as [Hc _]. apply negb_true_iff in Hc.
  by rewrite Hc.
Qed.

Lemma span_token name r :
  Str.all (fun c => negb (isspace c)) name = true → ends_token r →
  span (fun c => negb (isspace c)) (name +:+ r) = (name, r).
Proof.
  intros Hn Hr. destruct r as [|a r].
  - rewrite append_nil_r. by apply span_all.
  - apply span_app; [done|]. simpl in *. by rewrite Hr.
Qed.

Lemma extract_string_word ws name r :
  Str.all isspace ws = true → is_token name → ends_token r →
  Str.trim (extract_string (istringstream (ws +:+ name +:+ r))).1 = name.
Proof.
  intros Hws [Hne Hn] Hr. unfold extract_string, istringstream.
  destruct name as [|c x]; [done|].
  change (String c x +:+ r) with (String c (x +:+ r)).
  rewrite sentry_skips;
    [|done|by simpl in Hn; apply andb_true_iff in Hn as [?%negb_true_iff _]].
  cbn [good eofbit failbit negb andb rest].
  change (String c (x +:+ r)) with (String c x +:+ r).
  rewrite span_token by done. cbn [fst]. by apply trim_token.
Qed.

Lemma extract_string_blank ws :
  Str.all isspace ws = true →
  (extract_string (istringstream ws)).1 = EmptyString.
Proof.
  intros Hws. unfold extract_string, istringstream, sentry.
  cbn [good eofbit failbit negb andb rest].
  by rewrite trim_left_if_all.
Qed.

End Names.

(** X18.  [LOADRAW] and [GETPAL] take the first word of the line as the
    name of the image or of the palette, and ignore what follows it; on a
    line with no word both fail, with the error of [LOADRAW].  The word is
    taken as it is: it has no white space, so that trimming it changes
    nothing. *)
Theorem names_are_first_words NDEBUG ws name r :
  Str.all isspace ws = true → is_token name → ends_token r →
  parseOneLineAction NDEBUG "LOADRAW" (istringstream (ws +:+ name +:+ r))
  = Returns (Some (ShowFullScreenImage name)) ∧
  parseOneLineAction NDEBUG "GETPAL" (istringstream (ws +:+ name +:+ r))
  = Returns (Some (SetPalette name)) ∧
  parseOneLineAction NDEBUG "LOADRAW" (istringstream ws)
  = Throws (invalidCommand "LOADRAW") ∧
  parseOneLineAction NDEBUG "GETPAL" (istringstream ws)
  = Throws (invalidCommand "LOADRAW").
Proof.
  intros Hws Hname Hr.
  pose proof (extract_string_word ws name r Hws Hname Hr) as Htok.
  pose proof (extract_string_blank ws Hws) as Hblank.
  destruct Hname as [Hne _].
  unfold parseOneLineAction. simpl String.eqb. cbv iota.
  destruct (extract_string (istringstream (ws +:+ name +:+ r))) as [tok l].
  destruct (extract_string (istringstream ws)) as [tok' l'].
  simpl in Htok, Hblank. subst tok'. rewrite Htok.
  destruct name as [|c x]; [done|]. cbn [Str.empty Str.trim Str.trim_left_if Str.trim_right_if].
  done.
Qed.

Lemma names_are_first_words_witness :
  parseOneLineAction false "LOADRAW" (istringstream " MESSAGE.MNI  ignored")
  = Returns (Some (ShowFullScreenImage "MESSAGE.MNI")).
Proof.
  refine (proj1 (names_are_first_words false " " "MESSAGE.MNI" "  ignored" _ _ _)).
  - reflexivity.
  - split; [discriminate|reflexivity].
  - reflexivity.
Defined.
